(** * HeirclarkHealthAppNew: the helper scripts, embedded and checked

    The repository is a set of standalone Python scripts: browser
    automation with Playwright (five screenshot scripts, two font checks,
    a diagnostic and a website crawler), two icon converters and three
    PostgreSQL scripts.  Each script is a sequence of calls into a library
    (Playwright, Pillow, cairosvg, psycopg2) with ordinary Python control
    flow around them: [try]/[except]/[finally], [with], [for], [if].

    The embedding keeps that shape.  A script is a computation in a small
    monad that logs every library call together with its reply or the
    exception it raised; the library and the outside world are an oracle
    that sees the whole log so far.  Python's exception constructs are
    combinators of the monad.

    Console output: what exception handlers print and what the database
    scripts report is logged ([Printed]); the progress messages of the
    browser and icon scripts, which nothing below observes, are left out. *)

From stdpp Require Import gmap strings list pretty.
From Stdlib Require Import ZArith.
Set Warnings "-clear-no-such-hyp".
Open Scope string_scope.
Open Scope list_scope.
Open Scope Z_scope.

(** ** Python effects: a log of calls, exceptions, handlers *)

Module Py.

(** The exceptions of the embedding are the subclasses of [Exception]:
    what the library calls raise and what [except Exception] catches.
    Only [ImportError] is ever told apart from the others
    (process_svg_icon.py).  What derives from [BaseException] alone
    ([KeyboardInterrupt], [SystemExit], asyncio's [CancelledError])
    passes through [except Exception]; a run interrupted that way is
    not a run of the embedding. *)
Inductive exn_class := ImportError | Error.

Record exn := Exn { exn_kind : exn_class; exn_msg : string }.

(** The newline of Python's ["\n"]. *)
Definition nl : string := String (Ascii.ascii_of_nat 10) "".

Section Core.
Context {C R : Type}.

Inductive event :=
| Did (c : C) (r : R)         (* the call returned r *)
| Failed (c : C) (e : exn)    (* the call raised e *)
| Printed (s : string)        (* print(s) *)
| Traceback (e : exn).        (* traceback.print_exc() *)

Inductive outcome (A : Type) :=
| Ok (a : A)
| Raised (e : exn).

(** A computation reads the log so far and yields the events it adds. *)
Definition M (A : Type) : Type := list event -> list event * outcome A.

Definition ret {A} (a : A) : M A := fun _ => ([], Ok A a).

Definition bind {A B} (m : M A) (f : A -> M B) : M B :=
  fun h =>
    match m h with
    | (t1, Ok _ a) => let '(t2, r) := f a (h ++ t1) in (t1 ++ t2, r)
    | (t1, Raised _ e) => (t1, Raised B e)
    end.

Definition print (s : string) : M unit := fun _ => ([Printed s], Ok _ tt).

Definition print_exc (e : exn) : M unit := fun _ => ([Traceback e], Ok _ tt).

(** A library call: the oracle [raises] decides whether it raises,
    [value] what it returns; [shown] is the reply as logged. *)
Definition perform {A} (raises : list event -> C -> option exn)
    (c : C) (value : list event -> A) (shown : A -> R) : M A :=
  fun h =>
    match raises h c with
    | Some e => ([Failed c e], Raised A e)
    | None => ([Did c (shown (value h))], Ok A (value h))
    end.

(** A step of the runtime that cannot raise (leaving a [with] block). *)
Definition mark (c : C) (r : R) : M unit := fun _ => ([Did c r], Ok _ tt).

(** [try: body  except Exception as e: handler e]; on the exceptions
    of the embedding the bare [except:] of test_fonts.py is the same. *)
Definition try_except {A} (body : M A) (handler : exn -> M A) : M A :=
  fun h =>
    match body h with
    | (t1, Ok _ a) => (t1, Ok A a)
    | (t1, Raised _ e) => let '(t2, r) := handler e (h ++ t1) in (t1 ++ t2, r)
    end.

(** [try: body  finally: final]; an exception of [final] replaces
    the outcome of [body]. *)
Definition try_finally {A} (body : M A) (final : M unit) : M A :=
  fun h =>
    match body h with
    | (t1, r) =>
        match final (h ++ t1) with
        | (t2, Ok _ _) => (t1 ++ t2, r)
        | (t2, Raised _ e) => (t1 ++ t2, Raised A e)
        end
    end.

(** [for x in xs: body x], no [break]. *)
Fixpoint for_each {A} (xs : list A) (body : A -> M unit) : M unit :=
  match xs with
  | [] => ret tt
  | x :: rest => bind (body x) (fun _ => for_each rest body)
  end.

(** A [for] loop that threads the variables its body assigns. *)
Fixpoint fold_each {A S} (xs : list A) (body : A -> S -> M S) (s : S) : M S :=
  match xs with
  | [] => ret s
  | x :: rest => bind (body x s) (fold_each rest body)
  end.

(** [seq[i]]: an [IndexError] when [i] is out of range. *)
Definition item {A} (xs : list A) (i : nat) : M A :=
  fun _ => match xs !! i with
           | Some x => ([], Ok A x)
           | None => ([], Raised A (Exn Error "index out of range"))
           end.

(** [if c: body] with no [else]. *)
Definition when (c : bool) (body : M unit) : M unit :=
  if c then body else ret tt.

(** The whole run of a script: its log and how it ended. *)
Definition run {A} (m : M A) : list event * outcome A := m [].

Definition log_of {A} (m : M A) : list event := (run m).1.
Definition end_of {A} (m : M A) : outcome A := (run m).2.

Definition is_failed (ev : event) : bool :=
  match ev with Failed _ _ => true | _ => false end.

Definition uncaught {A} (r : outcome A) : bool :=
  match r with Raised _ _ => true | Ok _ _ => false end.

End Core.

Arguments event : clear implicits.
Arguments M : clear implicits.
Arguments Ok {A} a.
Arguments Raised {A} e.

#[global] Instance M_ret {C R} : MRet (M C R) := @ret C R.
#[global] Instance M_bind {C R} : MBind (M C R) := fun A B f m => bind m f.

End Py.
Import Py.

(** ** The Playwright layer shared by the browser scripts *)

Module Browser.

(** An element handle returned by a query. *)
Definition handle := N.

(** Text that comes from a page (titles, inner text, attributes) is a
    Python [str]: a sequence of Unicode code points. *)
Definition pystr := list N.

Definition lit (s : string) : pystr :=
  map (fun a => N.of_nat (Ascii.nat_of_ascii a)) (String.list_ascii_of_string s).

(** The keyword arguments of [browser.new_context]; [None] is an
    argument the script does not pass. *)
Record context_options := ContextOptions {
  viewport : Z * Z;                 (* width, height *)
  device_scale_factor : option Z;
  is_mobile : option bool;
  has_touch : option bool;
  user_agent : option string
}.

(** [page.locator(sel)] and [page.locator(sel).first] (sync API). *)
Record locator := Locator { loc_selector : string; loc_first : bool }.

(** The dictionaries the crawler builds and hands to [json.dump]. *)
Record element_entry := ElementEntry {       (* a card or a button *)
  el_text : pystr;
  el_classes : option pystr
}.

Record form_entry := FormEntry {
  f_type : pystr;
  f_placeholder : pystr;
  f_name : pystr
}.

Record modal_entry := ModalEntry {
  m_visible : bool;
  m_classes : option pystr
}.

Record component_entry := ComponentEntry {
  c_name : string;
  c_working : bool;
  c_type : string
}.

Record page_data := PageData {
  pd_url : string;
  pd_title : pystr;
  pd_screenshot : string;
  pd_components : list component_entry;
  pd_buttons : list element_entry;
  pd_forms : list form_entry;
  pd_cards : list element_entry;
  pd_modals : list modal_entry
}.

Record feature_entry := FeatureEntry { ft_name : string; ft_present : bool }.

Record error_entry := ErrorEntry { er_url : string; er_error : string }.

Record results := Results {
  crawl_date : string;
  base_url : string;
  pages : list page_data;
  features : list feature_entry;
  components : list component_entry;
  errors : list error_entry
}.

Inductive call :=
| Launch (headless : bool)
| NewContext (o : context_options)
| NewPage
| Goto (url : string) (wait_until : option string) (timeout : option Z)
| WaitForTimeout (ms : Z)
| Sleep (ms : Z)                                 (* time.sleep, in ms *)
| Title
| Screenshot (path : string) (full_page : option bool)
| QuerySelector (sel : string)
| QuerySelectorAll (sel : string)
| InnerText (h : handle)
| GetAttribute (h : handle) (name : string)
| HandleIsVisible (h : handle)
| Click (h : handle)
| IsVisible (sel : string)
| Evaluate (js : string)
| LocatorIsVisible (l : locator)
| LocatorClick (l : locator)
| LocatorCount (l : locator)
| LocatorEvaluate (l : locator) (js : string)
| Makedirs (path : string)
| JsonDump (path : string) (doc : results)
| BrowserClose
| PlaywrightStop.                                (* leaving [with ..playwright()] *)

Inductive reply :=
| RNone
| RStr (s : pystr)
| ROptStr (s : option pystr)
| RBool (b : bool)
| RInt (n : Z)
| RHandle (h : option handle)
| RHandles (hs : list handle).

Abbreviation event := (Py.event call reply).
Abbreviation trace := (list (Py.event call reply)).
Abbreviation M := (Py.M call reply).

(** The browser, the pages it shows and the file system: which calls
    raise and what the queries return, each as a function of the log. *)
Record world := World {
  raises : trace -> call -> option exn;
  page_title : trace -> pystr;
  found : trace -> string -> option handle;
  found_all : trace -> string -> list handle;
  text_of : trace -> handle -> pystr;
  attribute_of : trace -> handle -> string -> option pystr;
  handle_visible : trace -> handle -> bool;
  selector_visible : trace -> string -> bool;
  locator_visible : trace -> locator -> bool;
  count_of : trace -> locator -> Z;
  js_value : trace -> string -> pystr;
  today : string;                       (* datetime.now().isoformat() *)
  beside_script : string -> string      (* os.path.join(os.path.dirname(__file__), name) *)
}.

Section Api.
Variable w : world.

Definition action (c : call) : M unit :=
  perform (raises w) c (fun _ => tt) (fun _ => RNone).

Definition launch (headless : bool) : M unit := action (Launch headless).
Definition new_context (o : context_options) : M unit := action (NewContext o).
Definition new_page : M unit := action NewPage.
Definition goto (url : string) (wait_until : option string) (timeout : option Z) : M unit :=
  action (Goto url wait_until timeout).
Definition wait_for_timeout (ms : Z) : M unit := action (WaitForTimeout ms).
Definition sleep (ms : Z) : M unit := action (Sleep ms).
Definition screenshot (path : string) (full_page : option bool) : M unit :=
  action (Screenshot path full_page).
Definition click (h : handle) : M unit := action (Click h).
Definition makedirs (path : string) : M unit := action (Makedirs path).
Definition json_dump (path : string) (doc : results) : M unit := action (JsonDump path doc).
Definition browser_close : M unit := action BrowserClose.
Definition locator_click (l : locator) : M unit := action (LocatorClick l).

Definition title : M pystr :=
  perform (raises w) Title (page_title w) RStr.
Definition query_selector (sel : string) : M (option handle) :=
  perform (raises w) (QuerySelector sel) (fun h => found w h sel) RHandle.
Definition query_selector_all (sel : string) : M (list handle) :=
  perform (raises w) (QuerySelectorAll sel) (fun h => found_all w h sel) RHandles.
Definition inner_text (x : handle) : M pystr :=
  perform (raises w) (InnerText x) (fun h => text_of w h x) RStr.
Definition get_attribute (x : handle) (name : string) : M (option pystr) :=
  perform (raises w) (GetAttribute x name) (fun h => attribute_of w h x name) ROptStr.
Definition handle_is_visible (x : handle) : M bool :=
  perform (raises w) (HandleIsVisible x) (fun h => handle_visible w h x) RBool.
Definition is_visible (sel : string) : M bool :=
  perform (raises w) (IsVisible sel) (fun h => selector_visible w h sel) RBool.
Definition evaluate (js : string) : M pystr :=
  perform (raises w) (Evaluate js) (fun h => js_value w h js) RStr.
Definition locator_is_visible (l : locator) : M bool :=
  perform (raises w) (LocatorIsVisible l) (fun h => locator_visible w h l) RBool.
Definition locator_count (l : locator) : M Z :=
  perform (raises w) (LocatorCount l) (fun h => count_of w h l) RInt.
Definition locator_evaluate (l : locator) (js : string) : M pystr :=
  perform (raises w) (LocatorEvaluate l js) (fun h => js_value w h js) RStr.

(** [with sync_playwright() as p: body] and its async form: the block is
    left through [__exit__] however [body] ends. *)
Definition with_playwright {A} (body : M A) : M A :=
  try_finally body (mark PlaywrightStop RNone).

End Api.

(** A page on which every call succeeds and [present] says which
    selectors match; a matching element is named by its selector's
    length. *)
Definition quiet_world (present : string -> bool) : world :=
  {| raises := fun _ _ => None;
     page_title := fun _ => [];
     found := fun _ sel => if present sel then Some (N.of_nat (String.length sel)) else None;
     found_all := fun _ _ => [];
     text_of := fun _ _ => [];
     attribute_of := fun _ _ _ => None;
     handle_visible := fun _ _ => false;
     selector_visible := fun _ sel => present sel;
     locator_visible := fun _ l => present (loc_selector l);
     count_of := fun _ _ => 0;
     js_value := fun _ _ => [];
     today := "2026-01-01T00:00:00";
     beside_script := fun name => name |}.

(** The world of [base], except that the calls selected by [bad] raise. *)
Definition failing (bad : call -> bool) (base : world) : world :=
  {| raises := fun _ c => if bad c then Some (Exn Error "boom") else None;
     page_title := page_title base;
     found := found base;
     found_all := found_all base;
     text_of := text_of base;
     attribute_of := attribute_of base;
     handle_visible := handle_visible base;
     selector_visible := selector_visible base;
     locator_visible := locator_visible base;
     count_of := count_of base;
     js_value := js_value base;
     today := today base;
     beside_script := beside_script base |}.

End Browser.
Import Browser.

(** ** capture_element.py *)

Module capture_element.
Section Script.
Variable w : world.

Definition capture_screenshots : M unit :=
  with_playwright (
    launch w false;;
    new_context w {| viewport := (390, 1200); device_scale_factor := Some 3;
                     is_mobile := Some true; has_touch := Some true;
                     user_agent := None |};;
    new_page w;;
    try_finally
      (try_except
         (goto w "http://localhost:8081" (Some "networkidle") (Some 60000);;
          wait_for_timeout w 8000;;
          (* Skip onboarding *)
          skip_button ← query_selector w "text=Skip";
          match skip_button with
          | Some b => click w b;; wait_for_timeout w 3000
          | None => mret tt
          end;;
          (* Take full page screenshot with taller viewport *)
          screenshot w "C:\Users\derri\HeirclarkHealthAppNew\full_page_tall.png" (Some false))
         (fun e => print ("Error: " +:+ exn_msg e);; print_exc e))
      (browser_close w)).

End Script.
End capture_element.

(** ** capture_gauges.py *)

Module capture_gauges.
Section Script.
Variable w : world.

Definition capture_screenshots : M unit :=
  with_playwright (
    launch w false;;
    new_context w {| viewport := (390, 844); device_scale_factor := Some 3;
                     is_mobile := Some true; has_touch := Some true;
                     user_agent := None |};;
    new_page w;;
    try_finally
      (try_except
         (goto w "http://localhost:8081" (Some "networkidle") (Some 60000);;
          wait_for_timeout w 8000;;
          (* Try to skip onboarding if present *)
          skip_button ← query_selector w "text=Skip";
          match skip_button with
          | Some b => click w b;; wait_for_timeout w 3000
          | None => mret tt
          end;;
          (* Look for "Already have an account? Log In" link *)
          login_link ← query_selector w "text=Log In";
          match login_link with
          | Some b => click w b;; wait_for_timeout w 3000
          | None => mret tt
          end;;
          wait_for_timeout w 2000;;
          screenshot w "C:\Users\derri\HeirclarkHealthAppNew\calorie_counter_page.png" (Some true);;
          (* Try to scroll down to see more cards *)
          evaluate w "window.scrollTo(0, 800)";;
          wait_for_timeout w 2000;;
          screenshot w "C:\Users\derri\HeirclarkHealthAppNew\calorie_counter_scrolled.png" (Some true);;
          (* Scroll back up to see the macro cards *)
          evaluate w "window.scrollTo(0, 300)";;
          wait_for_timeout w 2000;;
          screenshot w "C:\Users\derri\HeirclarkHealthAppNew\macro_cards_view.png" (Some true))
         (fun e => print ("Error: " +:+ exn_msg e);; print_exc e))
      (browser_close w)).

End Script.
End capture_gauges.

(** ** capture_macro_detail.py *)

Module capture_macro_detail.
Section Script.
Variable w : world.

Definition capture_screenshots : M unit :=
  with_playwright (
    launch w false;;
    new_context w {| viewport := (390, 844); device_scale_factor := Some 3;
                     is_mobile := Some true; has_touch := Some true;
                     user_agent := None |};;
    new_page w;;
    try_finally
      (try_except
         (goto w "http://localhost:8081" (Some "networkidle") (Some 60000);;
          wait_for_timeout w 8000;;
          (* Skip onboarding *)
          skip_button ← query_selector w "text=Skip";
          match skip_button with
          | Some b => click w b;; wait_for_timeout w 3000
          | None => mret tt
          end;;
          (* Scroll to macro cards section *)
          evaluate w "window.scrollTo(0, 400)";;
          wait_for_timeout w 2000;;
          screenshot w "C:\Users\derri\HeirclarkHealthAppNew\macro_cards_detail.png" None;;
          (* Capture just the top portion with calorie gauge and macro cards *)
          evaluate w "window.scrollTo(0, 250)";;
          wait_for_timeout w 2000;;
          screenshot w "C:\Users\derri\HeirclarkHealthAppNew\gauges_combined.png" None)
         (fun e => print ("Error: " +:+ exn_msg e);; print_exc e))
      (browser_close w)).

End Script.
End capture_macro_detail.

(** ** capture_macros_final.py *)

Module capture_macros_final.
Section Script.
Variable w : world.

Definition capture_screenshots : M unit :=
  with_playwright (
    launch w false;;
    new_context w {| viewport := (390, 844); device_scale_factor := Some 3;
                     is_mobile := Some true; has_touch := Some true;
                     user_agent := None |};;
    new_page w;;
    try_finally
      (try_except
         (goto w "http://localhost:8081" (Some "networkidle") (Some 60000);;
          wait_for_timeout w 8000;;
          (* Skip onboarding *)
          skip_button ← query_selector w "text=Skip";
          match skip_button with
          | Some b => click w b;; wait_for_timeout w 3000
          | None => mret tt
          end;;
          (* Scroll specifically to show macro cards *)
          evaluate w "window.scrollTo(0, 550)";;
          wait_for_timeout w 2000;;
          screenshot w "C:\Users\derri\HeirclarkHealthAppNew\macros_view1.png" None;;
          (* Try a different scroll position *)
          evaluate w "window.scrollTo(0, 650)";;
          wait_for_timeout w 2000;;
          screenshot w "C:\Users\derri\HeirclarkHealthAppNew\macros_view2.png" None;;
          (* Try another scroll position *)
          evaluate w "window.scrollTo(0, 500)";;
          wait_for_timeout w 2000;;
          screenshot w "C:\Users\derri\HeirclarkHealthAppNew\macros_view3.png" None)
         (fun e => print ("Error: " +:+ exn_msg e);; print_exc e))
      (browser_close w)).

End Script.
End capture_macros_final.

(** ** diagnose_cards.py *)

Module diagnose_cards.
Section Script.
Variable w : world.

(** The block repeated for each collapsible card: look the card up and,
    when it is there, click it, wait and take its screenshot. *)
Definition expand_card (sel path : string) : M unit :=
  card ← query_selector w sel;
  match card with
  | Some c => click w c;; wait_for_timeout w 1000;; screenshot w path None
  | None => mret tt
  end.

Definition capture_all_cards : M unit :=
  with_playwright (
    launch w false;;
    new_context w {| viewport := (390, 1400); device_scale_factor := Some 3;
                     is_mobile := Some true; has_touch := Some true;
                     user_agent := None |};;
    new_page w;;
    try_finally
      (try_except
         (goto w "http://localhost:8081" (Some "networkidle") (Some 60000);;
          wait_for_timeout w 8000;;
          (* Skip onboarding *)
          skip_button ← query_selector w "text=Skip";
          match skip_button with
          | Some b => click w b;; wait_for_timeout w 3000
          | None => mret tt
          end;;
          (* Capture initial view *)
          screenshot w "C:\Users\derri\HeirclarkHealthAppNew\diagnosis_01_initial.png" None;;
          (* Scroll down to see more cards *)
          evaluate w "window.scrollTo(0, 800)";;
          wait_for_timeout w 2000;;
          screenshot w "C:\Users\derri\HeirclarkHealthAppNew\diagnosis_02_scrolled.png" None;;
          expand_card "text=DAILY FAT LOSS"
            "C:\Users\derri\HeirclarkHealthAppNew\diagnosis_03_daily_fat_loss.png";;
          evaluate w "window.scrollTo(0, 1200)";;
          wait_for_timeout w 2000;;
          expand_card "text=WEEKLY PROGRESS"
            "C:\Users\derri\HeirclarkHealthAppNew\diagnosis_04_weekly_progress.png";;
          evaluate w "window.scrollTo(0, 1800)";;
          wait_for_timeout w 2000;;
          expand_card "text=DINING OUT"
            "C:\Users\derri\HeirclarkHealthAppNew\diagnosis_05_dining_out.png";;
          evaluate w "window.scrollTo(0, 2400)";;
          wait_for_timeout w 2000;;
          expand_card "text=WEARABLE SYNC"
            "C:\Users\derri\HeirclarkHealthAppNew\diagnosis_06_wearable_sync.png";;
          evaluate w "window.scrollTo(0, 3000)";;
          wait_for_timeout w 2000;;
          expand_card "text=TODAY'S MEALS"
            "C:\Users\derri\HeirclarkHealthAppNew\diagnosis_07_todays_meals.png")
         (fun e => print ("Error: " +:+ exn_msg e);; print_exc e))
      (browser_close w)).

End Script.
End diagnose_cards.

(** ** check_fonts.py *)

Module check_fonts.
Section Script.
Variable w : world.

(** The [for port in ports] loop with its [break]: the result is the
    final value of [connected]. *)
Fixpoint try_ports (ports : list Z) : M bool :=
  match ports with
  | [] => mret false
  | port :: rest =>
      connected ← try_except
        (goto w ("http://localhost:" +:+ pretty port) None (Some 10000);;
         mret true)
        (fun e =>
           print ("Port " +:+ pretty port +:+ " not available: " +:+ exn_msg e);;
           mret false);
      if (connected : bool) then mret true else try_ports rest
  end.

Definition check_app_fonts : M unit :=
  with_playwright (
    launch w false;;
    new_context w {| viewport := (430, 932); device_scale_factor := None;
                     is_mobile := None; has_touch := None; user_agent := None |};;
    new_page w;;
    (* Try common Expo web ports *)
    connected ← try_ports [8081; 19006; 19000; 8082];
    if (connected : bool) then
      wait_for_timeout w 5000;;
      screenshot w (beside_script w "font_check_screenshot.png") (Some true);;
      (* Keep browser open for manual inspection *)
      wait_for_timeout w 30000;;
      browser_close w
    else
      print (nl +:+ "Could not connect to Expo app.");;
      print "Make sure the app is running with: npx expo start --web";;
      browser_close w).

End Script.
End check_fonts.

(** ** test_fonts.py *)

Module test_fonts.
Section Script.
Variable w : world.

(** [for port in ..: try: goto; break  except: continue] *)
Fixpoint try_ports (ports : list Z) : M unit :=
  match ports with
  | [] => mret tt
  | port :: rest =>
      connected ← try_except
        (goto w ("http://localhost:" +:+ pretty port) None (Some 5000);;
         mret true)
        (fun _ => mret false);
      if (connected : bool) then mret tt else try_ports rest
  end.

Definition test_fonts : M unit :=
  with_playwright (
    launch w true;;
    new_context w {| viewport := (430, 932); device_scale_factor := None;
                     is_mobile := None; has_touch := None; user_agent := None |};;
    new_page w;;
    try_ports [8081; 8082; 19006; 19000];;
    wait_for_timeout w 3000;;
    screenshot w "C:\Users\derri\HeirclarkHealthAppNew\font_test_result.png" None;;
    browser_close w).

End Script.
End test_fonts.

(** ** comprehensive_diagnostic.py *)

Module comprehensive_diagnostic.
Section Script.
Variable w : world.

Definition loc (sel : string) : locator := Locator sel false.
Definition first_of (sel : string) : locator := Locator sel true.

(** The double quote inside a selector. *)
Definition dq : string := String (Ascii.ascii_of_nat 34) "".

Definition run_diagnostics : M unit :=
  with_playwright (
    launch w false;;
    new_context w {| viewport := (430, 932); device_scale_factor := None;
                     is_mobile := None; has_touch := None;
                     user_agent := Some "Mozilla/5.0 (iPhone; CPU iPhone OS 16_0 like Mac OS X) AppleWebKit/605.1.15" |};;
    new_page w;;
    (* Navigate to app *)
    goto w "http://localhost:8081" None None;;
    sleep w 3000;;
    makedirs w "diagnostics";;
    (* Test 1: Dashboard Load *)
    screenshot w "diagnostics/01_dashboard_load.png" None;;
    (* Test 2: Greeting Card *)
    locator_is_visible w (loc "text=/Good (Morning|Afternoon|Evening)/");;
    screenshot w "diagnostics/02_greeting_card.png" None;;
    (* Test 3: Weather Widget *)
    locator_is_visible w (loc "text=WEATHER");;
    screenshot w "diagnostics/03_weather_widget.png" None;;
    (* Test 4: Calendar *)
    locator_count w (loc ("[role=" +:+ dq +:+ "tab" +:+ dq +:+ "]"));;
    screenshot w "diagnostics/04_calendar.png" None;;
    (* Test 5: Daily Balance Gauge *)
    locator_is_visible w (loc "text=DAILY BALANCE");;
    screenshot w "diagnostics/05_daily_balance.png" None;;
    (* Test 6: Macro Gauges; [and] evaluates left to right and stops early *)
    protein ← locator_is_visible w (loc "text=Protein");
    (if (protein : bool) then
       fat ← locator_is_visible w (loc "text=Fat");
       if (fat : bool) then locator_is_visible w (loc "text=Carbs") else mret false
     else mret false);;
    screenshot w "diagnostics/06_macro_gauges.png" None;;
    (* Test 7: Scroll to collapsible cards *)
    evaluate w "window.scrollTo(0, 1000)";;
    sleep w 1000;;
    screenshot w "diagnostics/07_scroll_cards.png" None;;
    (* Test 8: Daily Fat Loss Card *)
    fat_loss ← locator_is_visible w (loc "text=DAILY FAT LOSS");
    when fat_loss (
      locator_click w (loc "text=DAILY FAT LOSS");;
      sleep w 1000;;
      screenshot w "diagnostics/08_fat_loss_expanded.png" None;;
      locator_click w (loc "text=DAILY FAT LOSS");;
      sleep w 500);;
    (* Test 9: Weekly Progress Card *)
    weekly ← locator_is_visible w (loc "text=WEEKLY PROGRESS");
    when weekly (
      locator_click w (loc "text=WEEKLY PROGRESS");;
      sleep w 1000;;
      screenshot w "diagnostics/09_weekly_expanded.png" None;;
      locator_click w (loc "text=WEEKLY PROGRESS");;
      sleep w 500);;
    (* Test 10: Scroll to Today's Meals *)
    evaluate w "window.scrollTo(0, 1500)";;
    sleep w 1000;;
    meals ← locator_is_visible w (loc "text=TODAY'S MEALS");
    when meals (
      locator_click w (loc "text=TODAY'S MEALS");;
      sleep w 1000;;
      screenshot w "diagnostics/10_meals_expanded.png" None);;
    (* Test 11: AI Meal Logger Button *)
    log_meal ← locator_is_visible w (loc "text=+ Log Meal");
    when log_meal (
      locator_click w (loc "text=+ Log Meal");;
      sleep w 2000;;
      screenshot w "diagnostics/11_ai_meal_logger_open.png" None;;
      locator_is_visible w (loc "text=Manual Entry");;
      (* Close modal *)
      locator_click w (first_of ("[aria-label=" +:+ dq +:+ "close" +:+ dq +:+ "]"));;
      sleep w 1000);;
    (* Test 12: Scroll to Wearable Sync *)
    evaluate w "window.scrollTo(0, 2000)";;
    sleep w 1000;;
    wearable ← locator_is_visible w (loc "text=WEARABLE SYNC");
    when wearable (
      locator_click w (loc "text=WEARABLE SYNC");;
      sleep w 1000;;
      screenshot w "diagnostics/12_wearable_sync_expanded.png" None;;
      locator_is_visible w (loc "text=Apple Health");;
      locator_is_visible w (loc "text=Fitbit");;
      locator_is_visible w (loc "text=Google Fit");;
      mret tt);;
    (* Test 13: Dining Out Card *)
    evaluate w "window.scrollTo(0, 2500)";;
    sleep w 1000;;
    dining ← locator_is_visible w (loc "text=DINING OUT");
    when dining (
      locator_click w (loc "text=DINING OUT");;
      sleep w 1000;;
      screenshot w "diagnostics/13_dining_out_expanded.png" None);;
    (* Test 14: Full page screenshot *)
    evaluate w "window.scrollTo(0, 0)";;
    sleep w 1000;;
    screenshot w "diagnostics/14_full_page_top.png" (Some false);;
    (* Test 15: Check font weights *)
    evaluate w "window.scrollTo(0, 500)";;
    sleep w 1000;;
    calorie ← locator_is_visible w (first_of "#hc-calories-ring-main, .hc-gauge-value");
    when calorie (
      locator_evaluate w (first_of "#hc-calories-ring-main, .hc-gauge-value")
        "el => window.getComputedStyle(el).fontWeight";;
      mret tt);;
    screenshot w "diagnostics/15_font_weight_check.png" None;;
    (* Test 16: Color scheme check *)
    evaluate w "window.getComputedStyle(document.body).backgroundColor";;
    screenshot w "diagnostics/16_color_scheme.png" None;;
    (* Test 17: Check white removal from gauges *)
    evaluate w "window.scrollTo(0, 800)";;
    sleep w 1000;;
    screenshot w "diagnostics/17_gauge_transparency_check.png" None;;
    (* Test 18: Card spacing check *)
    evaluate w "window.scrollTo(0, 400)";;
    sleep w 1000;;
    screenshot w "diagnostics/18_card_spacing.png" None;;
    browser_close w).

End Script.
End comprehensive_diagnostic.

(** ** crawl_heirclark_website.py *)

Module crawl_heirclark_website.

(** *** The string operations the crawler applies to page text *)

(** [str.isspace] on one code point. *)
Definition py_isspace (c : N) : bool :=
  ((9 <=? c) && (c <=? 13) || (28 <=? c) && (c <=? 32)
   || (c =? 133) || (c =? 160) || (c =? 5760)
   || (8192 <=? c) && (c <=? 8202)
   || (c =? 8232) || (c =? 8233) || (c =? 8239) || (c =? 8287)
   || (c =? 12288))%N.

Fixpoint lstrip (s : pystr) : pystr :=
  match s with
  | c :: rest => if py_isspace c then lstrip rest else s
  | [] => []
  end.

(** [s.strip()] *)
Definition strip (s : pystr) : pystr := reverse (lstrip (reverse (lstrip s))).

(** [s.encode('ascii', 'ignore').decode('ascii')] *)
Definition ascii_ignore (s : pystr) : pystr := filter (fun c => (c < 128)%N) s.

(** [text and len(text.strip()) > 0] *)
Definition has_text (s : pystr) : bool :=
  match s with
  | [] => false
  | _ => (0 <? Z.of_nat (length (strip s)))
  end.

(** [x or default] for an optional string. *)
Definition or_default (x : option pystr) (default : pystr) : pystr :=
  match x with
  | Some (c :: s) => c :: s
  | _ => default
  end.

Definition slash : Ascii.ascii := Ascii.ascii_of_nat 47.

Fixpoint last_segment_from (s cur : string) : string :=
  match s with
  | EmptyString => cur
  | String c rest =>
      if Ascii.eqb c slash then last_segment_from rest ""
      else last_segment_from rest (cur +:+ String c "")
  end.

(** [url.split("/")[-1]] *)
Definition last_segment (url : string) : string := last_segment_from url "".

(** [f'screenshots/{url.split("/")[-1] or "home"}.png'] *)
Definition screenshot_path (url : string) : string :=
  "screenshots/" +:+
  (match last_segment url with EmptyString => "home" | seg => seg end) +:+ ".png".

Definition dq : string := String (Ascii.ascii_of_nat 34) "".
Definition quoted (s : string) : string := dq +:+ s +:+ dq.

Definition cards_selector : string :=
  "[class*=" +:+ quoted "card" +:+ "], [class*=" +:+ quoted "section" +:+
  "], [class*=" +:+ quoted "container" +:+ "]".
Definition buttons_selector : string :=
  "button, [role=" +:+ quoted "button" +:+ "], a[class*=" +:+ quoted "button" +:+ "]".
Definition inputs_selector : string := "input, textarea, select".
Definition modals_selector : string :=
  "[role=" +:+ quoted "dialog" +:+ "], [class*=" +:+ quoted "modal" +:+
  "], [class*=" +:+ quoted "dialog" +:+ "]".
Definition log_meal_selector : string := "button:has-text(" +:+ quoted "Log Meal" +:+ ")".
Definition dialog_selector : string := "[role=" +:+ quoted "dialog" +:+ "]".
Definition close_selector : string :=
  "[aria-label*=" +:+ quoted "close" +:+ "], button:has-text(" +:+ quoted "Cancel" +:+ ")".
Definition dates_selector : string :=
  "[class*=" +:+ quoted "day" +:+ "], [class*=" +:+ quoted "date" +:+ "]".
Definition sync_selector : string := "button:has-text(" +:+ quoted "Sync" +:+ ")".

Definition pages_to_visit : list string :=
  [ "https://heirclark.com";
    "https://heirclark.com/pages/calorie-counter";
    "https://heirclark.com/pages/steps";
    "https://heirclark.com/pages/meals";
    "https://heirclark.com/pages/programs";
    "https://heirclark.com/pages/settings" ].

Definition features_to_check : list (string * string) :=
  [ ("Daily Balance", "Daily Balance");
    ("Macros", "Protein");
    ("Today's Meals", "Breakfast");
    ("Daily Fat Loss", "FAT LOSS");
    ("Weekly Progress", "WEEKLY PROGRESS");
    ("Dining Out", "DINING OUT");
    ("Wearable Sync", "WEARABLE SYNC");
    ("Log Meal", "Log Meal") ].

Definition add_page (pd : page_data) (r : results) : results :=
  Results (crawl_date r) (base_url r) (pages r ++ [pd]) (features r)
          (components r) (errors r).

Definition add_error (url : string) (e : exn) (r : results) : results :=
  Results (crawl_date r) (base_url r) (pages r) (features r) (components r)
          (errors r ++ [ErrorEntry url (exn_msg e)]).

Definition set_features (fs : list feature_entry) (r : results) : results :=
  Results (crawl_date r) (base_url r) (pages r) fs (components r) (errors r).

Section Script.
Variable w : world.

(** One round of [for card in cards[:20]]: the entry is appended only
    when the text and the class were both read; any exception is
    swallowed ([except Exception: pass]). *)
Definition card_entry (card : handle) (acc : list element_entry) : M (list element_entry) :=
  try_except
    (text ← inner_text w card;
     if has_text text then
       let safe_text := take 200%nat (strip (ascii_ignore text)) in
       classes ← get_attribute w card "class";
       mret (acc ++ [ElementEntry safe_text classes])
     else mret acc)
    (fun _ => mret acc).

Definition button_entry (btn : handle) (acc : list element_entry) : M (list element_entry) :=
  try_except
    (text ← inner_text w btn;
     if has_text text then
       let safe_text := strip (ascii_ignore text) in
       classes ← get_attribute w btn "class";
       mret (acc ++ [ElementEntry safe_text classes])
     else mret acc)
    (fun _ => mret acc).

Definition input_entry (inp : handle) (acc : list form_entry) : M (list form_entry) :=
  type ← get_attribute w inp "type";
  placeholder ← get_attribute w inp "placeholder";
  name ← get_attribute w inp "name";
  mret (acc ++ [FormEntry (or_default type (lit "text")) (or_default placeholder [])
                          (or_default name [])]).

Definition modal_visibility (modal : handle) (acc : list modal_entry) : M (list modal_entry) :=
  is_visible ← handle_is_visible w modal;
  classes ← get_attribute w modal "class";
  mret (acc ++ [ModalEntry is_visible classes]).

(** "Try clicking Log Meal": the component is appended before the modal
    is closed, so it stays in [page_data] when closing raises; the same
    handler prints the warning in both cases. *)
Definition test_log_meal (comps : list component_entry) : M (list component_entry) :=
  let warn (kept : list component_entry) (e : exn) :=
    print ("    [WARNING] Log Meal test failed: " +:+ exn_msg e);; mret kept in
  try_except
    (log_meal_btn ← query_selector w log_meal_selector;
     match log_meal_btn with
     | Some btn =>
         click w btn;;
         wait_for_timeout w 1000;;
         (* Check if modal opened *)
         modal_visible ← is_visible w dialog_selector;
         let comps' := comps ++ [ComponentEntry "Log Meal Modal" modal_visible "modal"] in
         try_except
           ((* Close modal *)
            close_btn ← query_selector w close_selector;
            match close_btn with
            | Some c => click w c;; wait_for_timeout w 500
            | None => mret tt
            end;;
            mret comps')
           (warn comps')
     | None => mret comps
     end)
    (warn comps).

Definition test_date_selector (comps : list component_entry) : M (list component_entry) :=
  try_except
    (date_btns ← query_selector_all w dates_selector;
     match date_btns with
     | _ :: _ :: third :: _ =>                      (* len(date_btns) > 2 *)
         click w third;;
         wait_for_timeout w 500;;
         mret (comps ++ [ComponentEntry "Date Selector" true "calendar"])
     | _ => mret comps
     end)
    (fun e => print ("    [WARNING] Date selector test failed: " +:+ exn_msg e);; mret comps).

Definition test_sync (comps : list component_entry) : M (list component_entry) :=
  try_except
    (sync_btn ← query_selector w sync_selector;
     match sync_btn with
     | Some btn =>
         click w btn;;
         wait_for_timeout w 1000;;
         mret (comps ++ [ComponentEntry "Sync Button" true "button"])
     | None => mret comps
     end)
    (fun e => print ("    [WARNING] Sync test failed: " +:+ exn_msg e);; mret comps).

(** The body of the per-URL [try]: everything done on one page, up to
    the dictionary that is appended to [results['pages']]. *)
Definition visit_page (url : string) : M page_data :=
  (* Navigate to page *)
  goto w url (Some "networkidle") (Some 30000);;
  wait_for_timeout w 2000;;
  page_title ← title w;
  (* Take screenshot *)
  screenshot w (screenshot_path url) (Some true);;
  (* Cards *)
  cards ← query_selector_all w cards_selector;
  card_list ← fold_each (take 20%nat cards) card_entry [];
  (* Buttons *)
  buttons ← query_selector_all w buttons_selector;
  button_list ← fold_each (take 30%nat buttons) button_entry [];
  (* Forms and inputs *)
  inputs ← query_selector_all w inputs_selector;
  form_list ← fold_each inputs input_entry [];
  (* Check for modals/dialogs *)
  modals ← query_selector_all w modals_selector;
  modal_list ← fold_each modals modal_visibility [];
  (* Test interactive features *)
  comps ← test_log_meal [];
  comps ← test_date_selector comps;
  comps ← test_sync comps;
  mret (PageData url page_title (screenshot_path url) comps button_list
                 form_list card_list modal_list).

(** One round of [for url in pages_to_visit]; the loop variables are the
    set [visited_pages] and the dictionary [results]. *)
Definition crawl_url (url : string) (st : gset string * results) : M (gset string * results) :=
  let '(visited_pages, res) := st in
  if decide (url ∈ visited_pages) then mret st       (* continue *)
  else
    let visited_pages := {[url]} ∪ visited_pages in   (* visited_pages.add(url) *)
    try_except
      (page_data ← visit_page url;
       mret (visited_pages, add_page page_data res))
      (fun e =>
         print ("  [ERROR] Error on " +:+ url +:+ ": " +:+ exn_msg e);;
         mret (visited_pages, add_error url e res)).

(** The crawl loop over an arbitrary list of URLs. *)
Definition crawl_pages (urls : list string) (st : gset string * results)
  : M (gset string * results) :=
  fold_each urls crawl_url st.

(** The [for feature_name, search_text] loop: it runs inside a [try], so
    the entries appended before an exception stay in [results]; the
    second component is that exception. *)
Fixpoint check_features (fs : list (string * string)) (acc : list feature_entry)
  : M (list feature_entry * option exn) :=
  match fs with
  | [] => mret (acc, None)
  | (feature_name, search_text) :: rest =>
      step ← try_except
        (present ← is_visible w ("text=" +:+ quoted search_text); mret (inl present))
        (fun e => mret (inr e));
      match step with
      | inl present => check_features rest (acc ++ [FeatureEntry feature_name present])
      | inr e => mret (acc, Some e)
      end
  end.

Definition feature_error (e : exn) : M unit :=
  print ("  [ERROR] Feature analysis error: " +:+ exn_msg e).

(** "Extract overall features from calorie counter page" *)
Definition analyze_features (res : results) : M results :=
  try_except
    (goto w "https://heirclark.com/pages/calorie-counter" (Some "networkidle") None;;
     wait_for_timeout w 2000;;
     '(fs, interrupted) ← check_features features_to_check (features res);
     match interrupted with
     | Some e => feature_error e
     | None => mret tt
     end;;
     mret (set_features fs res))
    (fun e => feature_error e;; mret res).

Definition initial_results : results :=
  Results (today w) "https://heirclark.com" [] [] [] [].

Definition crawl_heirclark : M results :=
  res ← with_playwright (
    launch w false;;
    new_context w {| viewport := (390, 844); device_scale_factor := None;
                     is_mobile := None; has_touch := None;
                     user_agent := Some "Mozilla/5.0 (iPhone; CPU iPhone OS 16_0 like Mac OS X)" |};;
    new_page w;;
    (* Track visited pages *)
    '(_, res) ← crawl_pages pages_to_visit (∅, initial_results);
    res ← analyze_features res;
    browser_close w;;
    mret res);
  (* Save results *)
  json_dump w "website_crawl_results.json" res;;
  mret res.

End Script.
End crawl_heirclark_website.

(** ** The imaging layer of the icon scripts: Pillow, cairosvg, Inkscape *)

Module Img.

(** How the pixels of an image came about. *)
Inductive pixels :=
| FromFile (path : string)
| FromBytes (data : string)
| Solid (color : Z * Z * Z)
| BandOf (n : nat) (p : pixels)
| NoMask
| Pasted (onto src mask : pixels)
| Converted (mode : string) (p : pixels)
| Cropped (box : Z * Z * Z * Z) (p : pixels)
| Resized (size : Z * Z) (resample : string) (p : pixels).

(** A Pillow image: [size], [mode], [format] and its content. *)
Record image := Image {
  im_size : Z * Z;
  im_mode : string;
  im_format : option string;
  im_pixels : pixels
}.

(** A file as the icon scripts leave it on disk. *)
Record file := File { file_format : string; file_size : Z * Z; file_mode : option string }.

Inductive call :=
| Open (path : string)                               (* Image.open(path) *)
| OpenBytes (data : string)                          (* Image.open(io.BytesIO(data)) *)
| New (mode : string) (size : Z * Z) (color : Z * Z * Z)
| Split (im : image)
| Paste (onto im : image) (mask : option image)
| Convert (im : image) (mode : string)
| Crop (im : image) (box : Z * Z * Z * Z)
| Resize (im : image) (size : Z * Z) (resample : string)
| Save (im : image) (path format : string) (optimize : option bool)
       (compress_level : option Z)
| Getsize (path : string)                            (* os.path.getsize *)
| PathExists (path : string)                         (* os.path.exists *)
| ReadText (path : string)                           (* open(path, 'r').read() *)
| ImportModule (name : string)
| Svg2png (url write_to : string) (output_width output_height : Z)
| Run (argv : list string)                           (* subprocess.run(.., check=True) *)
| Copy2 (src dst : string).

Inductive reply :=
| RNone
| RImage (im : image)
| RBands (ims : list image)
| RBool (b : bool)
| RInt (n : Z)
| RText (s : string).

Abbreviation event := (Py.event call reply).
Abbreviation trace := (list (Py.event call reply)).
Abbreviation M := (Py.M call reply).

(** The disk and the installed software: which calls raise, what the
    files hold. *)
Record world := World {
  raises : trace -> call -> option exn;
  opened : trace -> string -> image;         (* Image.open of a path *)
  decoded : trace -> string -> image;        (* Image.open of bytes *)
  text_at : trace -> string -> string;
  exists_at : trace -> string -> bool;
  size_at : trace -> string -> Z;
  python : string                            (* sys.executable *)
}.

(** Pillow on sizes and modes. *)
Definition band_names (mode : string) : list string :=
  if String.eqb mode "RGBA" then ["R"; "G"; "B"; "A"]
  else if String.eqb mode "RGB" then ["R"; "G"; "B"]
  else if String.eqb mode "CMYK" then ["C"; "M"; "Y"; "K"]
  else if String.eqb mode "LA" then ["L"; "A"]
  else if String.eqb mode "PA" then ["P"; "A"]
  else [mode].

Definition split_image (im : image) : list image :=
  imap (fun i _ => Image (im_size im) "L" None (BandOf i (im_pixels im)))
       (band_names (im_mode im)).

Definition new_image (mode : string) (size : Z * Z) (color : Z * Z * Z) : image :=
  Image size mode None (Solid color).

Definition paste_image (onto im : image) (mask : option image) : image :=
  Image (im_size onto) (im_mode onto) (im_format onto)
        (Pasted (im_pixels onto) (im_pixels im) (default NoMask (im_pixels <$> mask))).

Definition convert_image (im : image) (mode : string) : image :=
  Image (im_size im) mode None (Converted mode (im_pixels im)).

Definition crop_image (im : image) (box : Z * Z * Z * Z) : image :=
  let '(x0, y0, x1, y1) := box in
  Image (x1 - x0, y1 - y0) (im_mode im) None (Cropped box (im_pixels im)).

Definition resize_image (im : image) (size : Z * Z) (resample : string) : image :=
  Image size (im_mode im) None (Resized size resample (im_pixels im)).

Section Api.
Variable w : world.

Definition action (c : call) : M unit :=
  perform (raises w) c (fun _ => tt) (fun _ => RNone).

Definition image_open (path : string) : M image :=
  perform (raises w) (Open path) (fun h => opened w h path) RImage.
Definition image_open_bytes (data : string) : M image :=
  perform (raises w) (OpenBytes data) (fun h => decoded w h data) RImage.
Definition image_new (mode : string) (size : Z * Z) (color : Z * Z * Z) : M image :=
  perform (raises w) (New mode size color) (fun _ => new_image mode size color) RImage.
Definition split (im : image) : M (list image) :=
  perform (raises w) (Split im) (fun _ => split_image im) RBands.
Definition paste (onto im : image) (mask : option image) : M image :=
  perform (raises w) (Paste onto im mask) (fun _ => paste_image onto im mask) RImage.
Definition convert (im : image) (mode : string) : M image :=
  perform (raises w) (Convert im mode) (fun _ => convert_image im mode) RImage.
Definition crop (im : image) (box : Z * Z * Z * Z) : M image :=
  perform (raises w) (Crop im box) (fun _ => crop_image im box) RImage.
Definition resize (im : image) (size : Z * Z) (resample : string) : M image :=
  perform (raises w) (Resize im size resample) (fun _ => resize_image im size resample) RImage.
Definition save (im : image) (path format : string) (optimize : option bool)
    (compress_level : option Z) : M unit :=
  action (Save im path format optimize compress_level).
Definition getsize (path : string) : M Z :=
  perform (raises w) (Getsize path) (fun h => size_at w h path) RInt.
Definition path_exists (path : string) : M bool :=
  perform (raises w) (PathExists path) (fun h => exists_at w h path) RBool.
Definition read_text (path : string) : M string :=
  perform (raises w) (ReadText path) (fun h => text_at w h path) RText.
Definition import_module (name : string) : M unit := action (ImportModule name).
Definition svg2png (url write_to : string) (output_width output_height : Z) : M unit :=
  action (Svg2png url write_to output_width output_height).
Definition subprocess_run (argv : list string) : M unit := action (Run argv).
Definition copy2 (src dst : string) : M unit := action (Copy2 src dst).

End Api.

(** *** The image files a run leaves on disk

    What follows tracks the files that the calls name as their
    destination: the [write_to] of cairosvg, the path of [Image.save],
    the [--export-filename] of Inkscape, the target of [shutil.copy2].
    A command that names no export file, as the [pip install] of
    process_svg_icon.py, is not among them: the packages it installs
    are no output of the scripts; [IconObs.effects] lists such a
    command as what it is. *)

(** The argument of a command-line option [--name=value]. *)
Fixpoint strip_prefix (p s : string) : option string :=
  match p, s with
  | EmptyString, _ => Some s
  | String a p', String b s' => if Ascii.eqb a b then strip_prefix p' s' else None
  | String _ _, EmptyString => None
  end.

Definition option_value (name : string) (argv : list string) : option string :=
  list_find (fun a => is_Some (strip_prefix name a)) argv ≫= fun '(_, a) => strip_prefix name a.

Fixpoint digits (s : string) (acc : Z) : option Z :=
  match s with
  | EmptyString => Some acc
  | String c rest =>
      let n := Z.of_nat (Ascii.nat_of_ascii c) in
      if (48 <=? n) && (n <=? 57) then digits rest (10 * acc + (n - 48)) else None
  end.

Definition number (s : string) : option Z :=
  match s with EmptyString => None | _ => digits s 0 end.

(** What Inkscape exports for a command line that names a PNG file and
    both dimensions. *)
Definition inkscape_export (argv : list string) : option (string * file) :=
  out ← option_value "--export-filename=" argv;
  type ← option_value "--export-type=" argv;
  width ← option_value "--export-width=" argv ≫= number;
  height ← option_value "--export-height=" argv ≫= number;
  if String.eqb type "png" then Some (out, File "PNG" (width, height) None) else None.

(** The effect of one successful call on these files. *)
Definition writes (c : call) (fs : gmap string file) : gmap string file :=
  match c with
  | Save im path format _ _ =>
      <[path := File format (im_size im) (Some (im_mode im))]> fs
  | Svg2png _ write_to width height =>
      <[write_to := File "PNG" (width, height) None]> fs
  | Run argv =>
      match inkscape_export argv with
      | Some (path, f) => <[path := f]> fs
      | None => fs
      end
  | Copy2 src dst =>
      match fs !! src with
      | Some f => <[dst := f]> fs
      | None => fs
      end
  | _ => fs
  end.

Definition step (fs : gmap string file) (ev : event) : gmap string file :=
  match ev with
  | Did c _ => writes c fs
  | _ => fs
  end.

(** The files after the run with log [t], starting from [fs]. *)
Definition files_after (t : trace) (fs : gmap string file) : gmap string file :=
  foldl step fs t.

(** The images a run saved with Pillow, in order. *)
Definition saved (t : trace) : list (string * string * image) :=
  omap (fun ev => match ev with
                  | Did (Save im path format _ _) _ => Some (path, format, im)
                  | _ => None
                  end) t.

(** The destinations a run wrote to, in order. *)
Definition written (t : trace) : list string :=
  omap (fun ev => match ev with
                  | Did (Save _ path _ _ _) _ => Some path
                  | Did (Svg2png _ write_to _ _) _ => Some write_to
                  | Did (Run argv) _ => fst <$> inkscape_export argv
                  | Did (Copy2 _ dst) _ => Some dst
                  | _ => None
                  end) t.

End Img.

(** ** process_app_icon.py *)

Module process_app_icon.
Import Img.

Definition input_path : string := "C:\Users\derri\Downloads\IMG_1023.jpg".
Definition output_dir : string := "C:\Users\derri\HeirclarkHealthAppNew\assets".
(** [os.path.join] on Windows. *)
Definition output_icon : string := output_dir +:+ "\icon.png".
Definition output_adaptive : string := output_dir +:+ "\adaptive-icon.png".
Definition output_splash : string := output_dir +:+ "\splash-icon.png".

Section Script.
Variable w : world.

(** "Convert to RGB if needed (remove alpha channel for iOS)" *)
Definition to_rgb (img : image) : M image :=
  if String.eqb (im_mode img) "RGBA" then
    (* Create white background *)
    background ← image_new w "RGB" (im_size img) (255, 255, 255);
    bands ← split w img;
    alpha ← item bands 3;
    paste w background img (Some alpha)            (* img = background *)
  else if negb (String.eqb (im_mode img) "RGB") then
    convert w img "RGB"
  else mret img.

Definition main : M unit :=
  (* Open the original image *)
  img ← image_open w input_path;
  let '(width, height) := im_size img in
  img ← to_rgb img;
  (* Create square crop centered on the image *)
  let square_size := Z.min width height in
  let left_ := (width - square_size) `div` 2 in
  let top_ := (height - square_size) `div` 2 in
  let right_ := left_ + square_size in
  let bottom_ := top_ + square_size in
  img_square ← crop w img (left_, top_, right_, bottom_);
  (* Resize to 1024x1024 using highest quality resampling *)
  img_1024 ← resize w img_square (1024, 1024) "LANCZOS";
  (* Save main icon (iOS App Store) *)
  save w img_1024 output_icon "PNG" (Some true) (Some 6);;
  getsize w output_icon;;
  (* Save adaptive icon (Android) *)
  save w img_1024 output_adaptive "PNG" (Some true) (Some 6);;
  (* Save splash icon *)
  save w img_1024 output_splash "PNG" (Some true) (Some 6);;
  (* Verify final output meets Apple standards *)
  image_open w output_icon;;
  mret tt.

End Script.
End process_app_icon.

(** ** process_svg_icon.py *)

Module process_svg_icon.
Import Img.

Definition input_svg : string := "C:\Users\derri\OneDrive\Documents\HeirclarkHealthAppLogo.svg".
Definition output_dir : string := "C:\Users\derri\HeirclarkHealthAppNew\assets".
Definition output_icon : string := output_dir +:+ "\icon.png".
Definition output_adaptive : string := output_dir +:+ "\adaptive-icon.png".
Definition output_splash : string := output_dir +:+ "\splash-icon.png".

(** Common Inkscape installation paths on Windows *)
Definition inkscape_paths : list string :=
  [ "C:\Program Files\Inkscape\bin\inkscape.exe";
    "C:\Program Files (x86)\Inkscape\bin\inkscape.exe";
    "C:\Program Files\Inkscape\inkscape.exe" ].

(** ["=" * 60] *)
Definition rule60 : string :=
  "============================================================".

Section Script.
Variable w : world.

(** Method 1: Try cairosvg (best quality) *)
Definition method1 : M bool :=
  try_except
    (import_module w "cairosvg";;
     svg2png w input_svg output_icon 1024 1024;;
     (* Also create adaptive icon and splash *)
     svg2png w input_svg output_adaptive 1024 1024;;
     svg2png w input_svg output_splash 1024 1024;;
     mret true)
    (fun e =>
       match exn_kind e with
       | ImportError => print "[SKIP] cairosvg not installed"
       | Error => print ("[ERROR] cairosvg failed: " +:+ exn_msg e)
       end;;
       mret false).

(** Method 2: Try Pillow with svg support *)
Definition method2 : M bool :=
  try_except
    (import_module w "PIL";;
     import_module w "io";;
     (* Read SVG as text *)
     svg_data ← read_text w input_svg;
     (* This will only work if Pillow has SVG support compiled in *)
     img ← image_open_bytes w svg_data;
     img ← resize w img (1024, 1024) "LANCZOS";
     save w img output_icon "PNG" None None;;
     save w img output_adaptive "PNG" None None;;
     save w img output_splash "PNG" None None;;
     mret true)
    (fun e =>
       print ("[SKIP] Pillow SVG support not available: " +:+ exn_msg e);;
       mret false).

(** [for path in inkscape_paths: if os.path.exists(path): .. break] *)
Fixpoint find_inkscape (paths : list string) : M (option string) :=
  match paths with
  | [] => mret None
  | path :: rest =>
      there ← path_exists w path;
      if (there : bool) then mret (Some path) else find_inkscape rest
  end.

(** Method 3: Try Inkscape command line *)
Definition method3 : M bool :=
  try_except
    (inkscape_exe ← find_inkscape inkscape_paths;
     match inkscape_exe with
     | Some exe =>
         (* Convert SVG to PNG using Inkscape *)
         subprocess_run w
           [ exe; input_svg; "--export-type=png";
             "--export-filename=" +:+ output_icon;
             "--export-width=1024"; "--export-height=1024" ];;
         (* Copy for adaptive and splash *)
         import_module w "shutil";;
         copy2 w output_icon output_adaptive;;
         copy2 w output_icon output_splash;;
         mret true
     | None =>
         print "[SKIP] Inkscape not found in common installation paths";;
         mret false
     end)
    (fun e =>
       print ("[SKIP] Inkscape conversion failed: " +:+ exn_msg e);;
       mret false).

(** Method 4: Install cairosvg and retry *)
Definition method4 : M bool :=
  try_except
    (subprocess_run w [python w; "-m"; "pip"; "install"; "cairosvg"];;
     import_module w "cairosvg";;
     svg2png w input_svg output_icon 1024 1024;;
     svg2png w input_svg output_adaptive 1024 1024;;
     svg2png w input_svg output_splash 1024 1024;;
     mret true)
    (fun e =>
       print ("[ERROR] Failed to install/use cairosvg: " +:+ exn_msg e);;
       mret false).

(** The four [if not conversion_success] stages; the result is the
    final value of [conversion_success]. *)
Definition convert_svg : M bool :=
  conversion_success ← method1;
  conversion_success ← (if (conversion_success : bool) then mret true else method2);
  conversion_success ← (if (conversion_success : bool) then mret true else method3);
  if (conversion_success : bool) then mret true else method4.

(** The script; the result is its exit status. *)
Definition main : M Z :=
  conversion_success ← convert_svg;
  if negb conversion_success then
    (* If all methods failed, provide instructions *)
    print (nl +:+ rule60);;
    print "CONVERSION FAILED - Manual Steps Required";;
    print rule60;;
    print (nl +:+ "Please convert the SVG manually:");;
    print "1. Open the SVG in a design tool (Figma, Illustrator, Inkscape)";;
    print "2. Export as PNG at 1024x1024 pixels";;
    print ("3. Save to: " +:+ output_icon);;
    print (nl +:+ "Or install cairosvg:");;
    print "   pip install cairosvg";;
    mret 1                                           (* sys.exit(1) *)
  else
    (* Verify output *)
    there ← path_exists w output_icon;
    if (there : bool) then
      import_module w "PIL";;
      image_open w output_icon;;
      getsize w output_icon;;
      mret 0
    else
      print (nl +:+ "[ERROR] Output file not created");;
      mret 1.                                        (* sys.exit(1) *)

End Script.
End process_svg_icon.

(** ** The database layer of the backend scripts: psycopg2 and PostgreSQL *)

Module Db.

(** A column as [information_schema.columns] shows it. *)
Record column := Column { col_name : string; data_type : string; is_nullable : bool }.

(** The tables of the [public] schema with their columns in ordinal
    position. *)
Abbreviation schema := (gmap string (list column)).

(** The SQL the scripts send. *)
Inductive statement :=
| AlterAddColumns (table : string) (cols : list (string * string))
    (* ALTER TABLE table ADD COLUMN IF NOT EXISTS name type, ... *)
| SelectTables
    (* SELECT table_name FROM information_schema.tables
       WHERE table_schema = 'public' ORDER BY table_name *)
| SelectColumnTypes (table : string) (names : list string)
    (* SELECT column_name, data_type FROM information_schema.columns
       WHERE table_name = table AND column_name IN names ORDER BY column_name *)
| SelectColumns (table : string).
    (* SELECT column_name, data_type, is_nullable FROM information_schema.columns
       WHERE table_name = table ORDER BY ordinal_position *)

Inductive call :=
| Connect      (* psycopg2.connect(DATABASE_URL), the URL being a constant of the scripts *)
| Cursor
| Execute (q : statement)
| Commit
| Fetchall
| CursorClose
| ConnectionClose.

Inductive reply :=
| RNone
| RRows (rows : list (list string)).

Abbreviation event := (Py.event call reply).
Abbreviation trace := (list (Py.event call reply)).
Abbreviation M := (Py.M call reply).

Record world := World {
  raises : trace -> call -> option exn;
  fetched : trace -> list (list string)
}.

Section Api.
Variable w : world.

Definition action (c : call) : M unit :=
  perform (raises w) c (fun _ => tt) (fun _ => RNone).

Definition connect : M unit := action Connect.
Definition cursor : M unit := action Cursor.
Definition execute (q : statement) : M unit := action (Execute q).
Definition commit : M unit := action Commit.
Definition fetchall : M (list (list string)) :=
  perform (raises w) Fetchall (fetched w) RRows.
Definition cursor_close : M unit := action CursorClose.
Definition connection_close : M unit := action ConnectionClose.

End Api.

(** *** PostgreSQL on a schema

    The server's side of the statements above, on a schema of plain
    tables: inheritance is not part of it (on a table with descendants
    an [ALTER TABLE] without [ONLY], as the migration's, reaches the
    descendants too). *)

Definition has_column (name : string) (cols : list column) : bool :=
  existsb (fun c => String.eqb (col_name c) name) cols.

(** [ADD COLUMN IF NOT EXISTS name type]: a column of that name, of
    whatever type, is left as it is; a new column is nullable. *)
Definition add_column (cols : list column) (new : string * string) : list column :=
  if has_column new.1 cols then cols else cols ++ [Column new.1 new.2 true].

Definition add_columns (new : list (string * string)) (cols : list column) : list column :=
  foldl add_column cols new.

(** Whether the server accepts the statement. *)
Definition accepted (q : statement) (s : schema) : bool :=
  match q with
  | AlterAddColumns table _ => bool_decide (is_Some (s !! table))
  | _ => true
  end.

(** The schema a statement leaves. *)
Definition exec (q : statement) (s : schema) : schema :=
  match q with
  | AlterAddColumns table new =>
      match s !! table with
      | Some cols => <[table := add_columns new cols]> s
      | None => s
      end
  | _ => s
  end.

Fixpoint insert_sorted (x : list string) (rows : list (list string)) : list (list string) :=
  match rows with
  | [] => [x]
  | y :: rest =>
      if String.leb (default "" (head x)) (default "" (head y)) then x :: y :: rest
      else y :: insert_sorted x rest
  end.

(** [ORDER BY] the first field. *)
Definition order_rows (rows : list (list string)) : list (list string) :=
  foldr insert_sorted [] rows.

Definition yes_no (b : bool) : string := if b then "YES" else "NO".

(** The rows a query returns. *)
Definition rows_of (q : statement) (s : schema) : list (list string) :=
  match q with
  | AlterAddColumns _ _ => []
  | SelectTables => order_rows ((fun t => [t]) <$> elements (dom s))
  | SelectColumnTypes table names =>
      order_rows
        ((fun c => [col_name c; data_type c]) <$>
         filter (fun c => col_name c ∈ names) (default [] (s !! table)))
  | SelectColumns table =>
      (fun c => [col_name c; data_type c; yes_no (is_nullable c)]) <$>
      default [] (s !! table)
  end.

(** The session state a log leads to: the committed schema, the schema
    as the open transaction sees it, and the last statement run. *)
Record session := Session {
  durable : schema;
  current : schema;
  last_query : option statement
}.

Definition db_step (ss : session) (ev : event) : session :=
  match ev with
  | Did (Execute q) _ => Session (durable ss) (exec q (current ss)) (Some q)
  | Failed (Execute _) _ => Session (durable ss) (durable ss) None
  | Did Commit _ => Session (current ss) (current ss) (last_query ss)
  | Did ConnectionClose _ => Session (durable ss) (durable ss) None
  | _ => ss
  end.

Definition session_after (t : trace) (s : schema) : session :=
  foldl db_step (Session s s None) t.

(** The committed schema after a run with log [t] on schema [s]. *)
Definition schema_after (t : trace) (s : schema) : schema :=
  durable (session_after t s).

Definition dq : string := String (Ascii.ascii_of_nat 34) "".

Definition refusal (q : statement) : exn :=
  match q with
  | AlterAddColumns table _ =>
      Exn Error ("relation " +:+ dq +:+ table +:+ dq +:+ " does not exist")
  | _ => Exn Error "syntax error"
  end.

(** A PostgreSQL server holding schema [s]; [online] says whether it can
    be reached. *)
Definition postgres (s : schema) (online : bool) : world :=
  {| raises := fun h c =>
       match c with
       | Connect => if online then None else Some (Exn Error "could not connect to server")
       | Execute q =>
           if accepted q (current (session_after h s)) then None else Some (refusal q)
       | _ => None
       end;
     fetched := fun h =>
       let ss := session_after h s in
       match last_query ss with
       | Some q => rows_of q (current ss)
       | None => []
       end |}.

End Db.

(** ** backend/run_migration.py *)

Module run_migration.
Import Db.

(** The migration: [ALTER TABLE workout_plans ADD COLUMN IF NOT EXISTS
    cardio_recommendations JSONB, ADD COLUMN IF NOT EXISTS
    nutrition_guidance JSONB]. *)
Definition migration : statement :=
  AlterAddColumns "workout_plans"
    [("cardio_recommendations", "jsonb"); ("nutrition_guidance", "jsonb")].

(** The query that verifies it. *)
Definition verification : statement :=
  SelectColumnTypes "workout_plans" ["cardio_recommendations"; "nutrition_guidance"].

Section Script.
Variable w : world.

(** [for row in results: print(f"  - {row[0]}: {row[1]}")] *)
Definition print_columns (results : list (list string)) : M unit :=
  for_each results (fun row =>
    name ← item row 0;
    type ← item row 1;
    print ("  - " +:+ name +:+ ": " +:+ type)).

Definition run_migration : M bool :=
  try_except
    (print "Connecting to Railway database...";;
     connect w;;
     cursor w;;
     print "Running migration: Adding cardio_recommendations and nutrition_guidance columns...";;
     (* Run migration SQL *)
     execute w migration;;
     commit w;;
     print "[SUCCESS] Migration completed successfully!";;
     (* Verify columns were added *)
     print (nl +:+ "Verifying columns...");;
     execute w verification;;
     results ← fetchall w;
     match results with
     | _ :: _ =>
         print (nl +:+ "[SUCCESS] Columns verified:");;
         print_columns results
     | [] => print "[WARNING] Could not verify columns"
     end;;
     cursor_close w;;
     connection_close w;;
     mret true)
    (fun e =>
       print ("[ERROR] Migration failed: " +:+ exn_msg e);;
       mret false).

(** [sys.exit(0 if success else 1)] *)
Definition main : M Z :=
  success ← run_migration;
  mret (if (success : bool) then 0 else 1).

End Script.
End run_migration.

(** ** backend/check_tables.py *)

Module check_tables.
Import Db.

Section Script.
Variable w : world.

Definition check_tables : M bool :=
  try_except
    (print "Connecting to Railway database...";;
     connect w;;
     cursor w;;
     print (nl +:+ "Checking available tables...");;
     execute w SelectTables;;
     tables ← fetchall w;
     match tables with
     | _ :: _ =>
         print (nl +:+ "[SUCCESS] Available tables:");;
         for_each tables (fun table =>
           name ← item table 0;
           print ("  - " +:+ name))
     | [] => print "[WARNING] No tables found"
     end;;
     (* Check workout_plans structure *)
     print (nl +:+ nl +:+ "Checking workout_plans columns...");;
     execute w (SelectColumns "workout_plans");;
     columns ← fetchall w;
     match columns with
     | _ :: _ =>
         print (nl +:+ "[SUCCESS] workout_plans structure:");;
         for_each columns (fun col =>
           name ← item col 0;
           type ← item col 1;
           nullable ← item col 2;
           print ("  - " +:+ name +:+ ": " +:+ type +:+ " (nullable: " +:+ nullable +:+ ")"))
     | [] => mret tt
     end;;
     cursor_close w;;
     connection_close w;;
     mret true)
    (fun e =>
       print ("[ERROR] Failed: " +:+ exn_msg e);;
       mret false).

(** The result of [check_tables()] is dropped. *)
Definition main : M unit := check_tables;; mret tt.

End Script.
End check_tables.

(** ** backend/check_user_profiles.py *)

Module check_user_profiles.
Import Db.

Section Script.
Variable w : world.

Definition show_columns (table : string) : M unit :=
  execute w (SelectColumns table);;
  columns ← fetchall w;
  match columns with
  | _ :: _ =>
      print (nl +:+ "[SUCCESS] " +:+ table +:+ " structure:");;
      for_each columns (fun col =>
        name ← item col 0;
        type ← item col 1;
        nullable ← item col 2;
        print ("  - " +:+ name +:+ ": " +:+ type +:+ " (nullable: " +:+ nullable +:+ ")"))
  | [] => mret tt
  end.

Definition check_user_profiles : M bool :=
  try_except
    (print "Connecting to Railway database...";;
     connect w;;
     cursor w;;
     (* Check user_profiles structure *)
     print (nl +:+ "Checking user_profiles columns...");;
     show_columns "user_profiles";;
     (* Check user_goals structure *)
     print (nl +:+ nl +:+ "Checking user_goals columns...");;
     show_columns "user_goals";;
     cursor_close w;;
     connection_close w;;
     mret true)
    (fun e =>
       print ("[ERROR] Failed: " +:+ exn_msg e);;
       mret false).

Definition main : M unit := check_user_profiles;; mret tt.

End Script.
End check_user_profiles.

(** ** What a log shows *)

Module Log.
Section Generic.
Context {C R : Type}.
Implicit Types (t : list (Py.event C R)) (ev : Py.event C R).

Definition is_report ev : bool :=
  match ev with Printed _ | Traceback _ => true | _ => false end.

(** No call raised. *)
Definition clean t : bool := forallb (fun ev => negb (is_failed ev)) t.

(** The first call that raised, its exception, and what the log shows
    after it. *)
Fixpoint first_failure t : option (C * exn * list (Py.event C R)) :=
  match t with
  | [] => None
  | Failed c e :: rest => Some (c, e, rest)
  | _ :: rest => first_failure rest
  end.

(** After the first exception the script only reports and cleans up:
    every later event is a print or a call allowed by [cleanup]. *)
Definition winds_down (cleanup : C -> bool) t : bool :=
  match first_failure t with
  | None => true
  | Some (_, _, rest) =>
      forallb (fun ev => match ev with
                         | Did c _ | Failed c _ => cleanup c
                         | _ => true
                         end) rest
  end.

(** The first exception, when it comes from a call in [guarded], is
    reported at once by the events [report e]. *)
Definition reports (guarded : C -> bool) (report : exn -> list (Py.event C R))
    (same : Py.event C R -> Py.event C R -> bool) t : bool :=
  match first_failure t with
  | None => true
  | Some (c, e, rest) =>
      if guarded c then
        forallb (fun p => same p.1 p.2) (zip (report e) rest)
        && (length (report e) <=? length rest)%nat
      else true
  end.

(** A call raised and the script went on to make a call outside
    [cleanup]: the exception was swallowed. *)
Definition carries_on (cleanup : C -> bool) t : bool := negb (winds_down cleanup t).

(** Properties of a computation, from any point of a run. *)
Section Computations.
Context {A : Type}.
Implicit Type m : Py.M C R A.

(** Every event [m] logs satisfies [P]. *)
Definition emits (P : Py.event C R -> Prop) m : Prop :=
  forall h, Forall P (m h).1.

(** [m] never raises. *)
Definition total m : Prop :=
  forall h, exists a, (m h).2 = Ok a.

(** [m] has no handler: a call that raises is the last thing it does,
    and its exception is how [m] ends. *)
Definition fail_fast m : Prop :=
  forall h,
    match m h with
    | (t, Ok _) => clean t = true
    | (t, Raised e) =>
        clean t = true \/ exists t1 c, t = t1 ++ [Failed c e] /\ clean t1 = true
    end.

(** When [m] returns, it has logged an event satisfying [P]. *)
Definition returns_after (P : Py.event C R -> bool) m : Prop :=
  forall h, match m h with
            | (t, Ok _) => existsb P t = true
            | (_, Raised _) => True
            end.

End Computations.

End Generic.
End Log.
Import Log.

Module BrowserLog.

Definition call_of (ev : event) : option call :=
  match ev with
  | Did c _ | Failed c _ => Some c
  | _ => None
  end.

(** The URLs the browser was sent to, in order. *)
Definition navigations (t : trace) : list string :=
  omap (fun ev => match call_of ev with Some (Goto url _ _) => Some url | _ => None end) t.

(** The full navigation calls: target, wait condition, timeout. *)
Definition gotos (t : trace) : list (string * option string * option Z) :=
  omap (fun ev => match call_of ev with
                  | Some (Goto url wu tm) => Some (url, wu, tm)
                  | _ => None
                  end) t.

Definition contexts (t : trace) : list context_options :=
  omap (fun ev => match call_of ev with Some (NewContext o) => Some o | _ => None end) t.

Definition waits (t : trace) : list Z :=
  omap (fun ev => match call_of ev with Some (WaitForTimeout ms) => Some ms | _ => None end) t.

Definition clicked (t : trace) : list handle :=
  omap (fun ev => match call_of ev with Some (Click h) => Some h | _ => None end) t.

(** A call that is not a navigation, or is the navigation to the local
    app with its wait condition and timeout. *)
Definition local_navigation (c : call) : bool :=
  match c with
  | Goto "http://localhost:8081" (Some "networkidle") (Some 60000) => true
  | Goto _ _ _ => false
  | _ => true
  end.

(** A call that does not create a context, or creates it with [o]. *)
Definition context_is (o : context_options) (c : call) : Prop :=
  match c with
  | NewContext o' => o' = o
  | _ => True
  end.

(** A property of the calls of a log; prints satisfy it. *)
Definition calls (P : call -> Prop) (ev : event) : Prop :=
  match call_of ev with
  | Some c => P c
  | None => True
  end.

(** The paths of the screenshots that were taken. *)
Definition shots (t : trace) : list string :=
  omap (fun ev => match ev with Did (Screenshot path _) _ => Some path | _ => None end) t.

(** [browser.close()] was called. *)
Definition closes (t : trace) : bool :=
  existsb (fun ev => match call_of ev with Some BrowserClose => true | _ => false end) t.

(** The browser was launched. *)
Definition launched (t : trace) : bool :=
  existsb (fun ev => match ev with Did (Launch _) _ => true | _ => false end) t.

(** The page was created: launch, context and page all succeeded. *)
Definition page_created (t : trace) : bool :=
  existsb (fun ev => match ev with Did NewPage _ => true | _ => false end) t.

(** The [with ..playwright()] block was left. *)
Definition leaves_scope (t : trace) : bool :=
  existsb (fun ev => match ev with Did PlaywrightStop _ => true | _ => false end) t.

Definition is_teardown (c : call) : bool :=
  match c with BrowserClose | PlaywrightStop => true | _ => false end.

(** The calls made before the [try] of a capture script, and its
    [finally]. *)
Definition outside_try (c : call) : bool :=
  match c with
  | Launch _ | NewContext _ | NewPage | BrowserClose | PlaywrightStop => true
  | _ => false
  end.

(** One of those calls raised. *)
Definition failed_outside_try (t : trace) : bool :=
  existsb (fun ev => match ev with Failed c _ => outside_try c | _ => false end) t.

Definition same_event (a b : event) : bool :=
  match a, b with
  | Printed s, Printed s' => String.eqb s s'
  | Traceback e, Traceback e' => String.eqb (exn_msg e) (exn_msg e')
  | _, _ => false
  end.

(** The lookup of the Skip button, as the log shows it: what the lookup
    returned and the events that follow it. *)
Fixpoint skip_lookup (t : trace) : option (option handle * trace) :=
  match t with
  | [] => None
  | Did (QuerySelector "text=Skip") (RHandle found) :: rest => Some (found, rest)
  | _ :: rest => skip_lookup rest
  end.

(** After the lookup found [b]: the click on [b] comes next and, when
    it succeeds, the 3000 ms wait. *)
Definition click_follows (b : handle) (post : trace) : bool :=
  match post with
  | Did (Click b') _ :: ev :: _ =>
      (b' =? b)%N && match call_of ev with Some (WaitForTimeout 3000) => true | _ => false end
  | Failed (Click b') _ :: _ => (b' =? b)%N
  | _ => false
  end.

(** The next event is a call, and neither a click nor a wait. *)
Definition moves_on (post : trace) : bool :=
  match post with
  | ev :: _ =>
      match call_of ev with
      | Some (Click _) | Some (WaitForTimeout _) | None => false
      | Some _ => true
      end
  | [] => false
  end.

(** The viewport, the navigations, the waits and the clicks of a run:
    what is left of it once screenshot paths and scroll offsets are
    put aside. *)
Definition profile (t : trace)
  : list context_options * list (string * option string * option Z) * list Z * list handle :=
  (contexts t, gotos t, waits t, clicked t).

(** The elements a page query returned, as logged. *)
Fixpoint discovered (sel : string) (t : trace) : list handle :=
  match t with
  | [] => []
  | Did (QuerySelectorAll sel') (RHandles hs) :: rest =>
      if String.eqb sel' sel then hs else discovered sel rest
  | _ :: rest => discovered sel rest
  end.

End BrowserLog.
Import BrowserLog.

(** ** The pattern of the five capture scripts *)

Module capture.
Section Pattern.
Variable w : world.

(** Launch with a 390 pixel wide mobile viewport, open the local app,
    wait 8000 ms, skip the onboarding when its button is there, then
    [rest]; report any exception; close the browser. *)
Definition capture_pattern (height : Z) (rest : M unit) : M unit :=
  with_playwright (
    launch w false;;
    new_context w {| viewport := (390, height); device_scale_factor := Some 3;
                     is_mobile := Some true; has_touch := Some true;
                     user_agent := None |};;
    new_page w;;
    try_finally
      (try_except
         (goto w "http://localhost:8081" (Some "networkidle") (Some 60000);;
          wait_for_timeout w 8000;;
          skip_button ← query_selector w "text=Skip";
          match skip_button with
          | Some b => click w b;; wait_for_timeout w 3000
          | None => mret tt
          end;;
          rest)
         (fun e => print ("Error: " +:+ exn_msg e);; print_exc e))
      (browser_close w)).

(** The part inside the [try]. *)
Definition tried (rest : M unit) : M unit :=
  goto w "http://localhost:8081" (Some "networkidle") (Some 60000);;
  wait_for_timeout w 8000;;
  skip_button ← query_selector w "text=Skip";
  match skip_button with
  | Some b => click w b;; wait_for_timeout w 3000
  | None => mret tt
  end;;
  rest.

(** What each script does after the Skip step. *)
Definition element_rest : M unit :=
  screenshot w "C:\Users\derri\HeirclarkHealthAppNew\full_page_tall.png" (Some false).

Definition gauges_rest : M unit :=
  login_link ← query_selector w "text=Log In";
  match login_link with
  | Some b => click w b;; wait_for_timeout w 3000
  | None => mret tt
  end;;
  wait_for_timeout w 2000;;
  screenshot w "C:\Users\derri\HeirclarkHealthAppNew\calorie_counter_page.png" (Some true);;
  evaluate w "window.scrollTo(0, 800)";;
  wait_for_timeout w 2000;;
  screenshot w "C:\Users\derri\HeirclarkHealthAppNew\calorie_counter_scrolled.png" (Some true);;
  evaluate w "window.scrollTo(0, 300)";;
  wait_for_timeout w 2000;;
  screenshot w "C:\Users\derri\HeirclarkHealthAppNew\macro_cards_view.png" (Some true).

Definition macro_detail_rest : M unit :=
  evaluate w "window.scrollTo(0, 400)";;
  wait_for_timeout w 2000;;
  screenshot w "C:\Users\derri\HeirclarkHealthAppNew\macro_cards_detail.png" None;;
  evaluate w "window.scrollTo(0, 250)";;
  wait_for_timeout w 2000;;
  screenshot w "C:\Users\derri\HeirclarkHealthAppNew\gauges_combined.png" None.

Definition macros_final_rest : M unit :=
  evaluate w "window.scrollTo(0, 550)";;
  wait_for_timeout w 2000;;
  screenshot w "C:\Users\derri\HeirclarkHealthAppNew\macros_view1.png" None;;
  evaluate w "window.scrollTo(0, 650)";;
  wait_for_timeout w 2000;;
  screenshot w "C:\Users\derri\HeirclarkHealthAppNew\macros_view2.png" None;;
  evaluate w "window.scrollTo(0, 500)";;
  wait_for_timeout w 2000;;
  screenshot w "C:\Users\derri\HeirclarkHealthAppNew\macros_view3.png" None.

Definition diagnose_rest : M unit :=
  screenshot w "C:\Users\derri\HeirclarkHealthAppNew\diagnosis_01_initial.png" None;;
  evaluate w "window.scrollTo(0, 800)";;
  wait_for_timeout w 2000;;
  screenshot w "C:\Users\derri\HeirclarkHealthAppNew\diagnosis_02_scrolled.png" None;;
  diagnose_cards.expand_card w "text=DAILY FAT LOSS"
    "C:\Users\derri\HeirclarkHealthAppNew\diagnosis_03_daily_fat_loss.png";;
  evaluate w "window.scrollTo(0, 1200)";;
  wait_for_timeout w 2000;;
  diagnose_cards.expand_card w "text=WEEKLY PROGRESS"
    "C:\Users\derri\HeirclarkHealthAppNew\diagnosis_04_weekly_progress.png";;
  evaluate w "window.scrollTo(0, 1800)";;
  wait_for_timeout w 2000;;
  diagnose_cards.expand_card w "text=DINING OUT"
    "C:\Users\derri\HeirclarkHealthAppNew\diagnosis_05_dining_out.png";;
  evaluate w "window.scrollTo(0, 2400)";;
  wait_for_timeout w 2000;;
  diagnose_cards.expand_card w "text=WEARABLE SYNC"
    "C:\Users\derri\HeirclarkHealthAppNew\diagnosis_06_wearable_sync.png";;
  evaluate w "window.scrollTo(0, 3000)";;
  wait_for_timeout w 2000;;
  diagnose_cards.expand_card w "text=TODAY'S MEALS"
    "C:\Users\derri\HeirclarkHealthAppNew\diagnosis_07_todays_meals.png".

End Pattern.

Definition capture_options (height : Z) : context_options :=
  {| viewport := (390, height); device_scale_factor := Some 3;
     is_mobile := Some true; has_touch := Some true; user_agent := None |}.

(** The navigation every capture script starts with. *)
Definition local_app : string * option string * option Z :=
  ("http://localhost:8081", Some "networkidle", Some 60000).

(** The log of a setup that went through. *)
Definition setup_log (height : Z) : trace :=
  [Did (Launch false) RNone; Did (NewContext (capture_options height)) RNone;
   Did NewPage RNone].

(** What the [except] clause prints. *)
Definition error_report (e : exn) : trace :=
  [Printed ("Error: " +:+ exn_msg e); Traceback e].

(** The handling of the Skip button as a log shows it: a click on the
    element found (then the 3000 ms wait), or no click and no wait. *)
Definition skip_step_ok (t : trace) : bool :=
  match skip_lookup t with
  | None => true
  | Some (Some b, post) => click_follows b post
  | Some (None, post) => moves_on post
  end.

(** The five scripts, by name. *)
Inductive script := Element | Gauges | MacroDetail | MacrosFinal | DiagnoseCards.

Definition all_scripts : list script :=
  [Element; Gauges; MacroDetail; MacrosFinal; DiagnoseCards].

Definition program (s : script) (w : world) : M unit :=
  match s with
  | Element => capture_element.capture_screenshots w
  | Gauges => capture_gauges.capture_screenshots w
  | MacroDetail => capture_macro_detail.capture_screenshots w
  | MacrosFinal => capture_macros_final.capture_screenshots w
  | DiagnoseCards => diagnose_cards.capture_all_cards w
  end.

Definition height_of (s : script) : Z :=
  match s with
  | Element => 1200
  | Gauges | MacroDetail | MacrosFinal => 844
  | DiagnoseCards => 1400
  end.

Definition rest_of (s : script) (w : world) : M unit :=
  match s with
  | Element => element_rest w
  | Gauges => gauges_rest w
  | MacroDetail => macro_detail_rest w
  | MacrosFinal => macros_final_rest w
  | DiagnoseCards => diagnose_rest w
  end.

(** The screenshots a script takes whatever it finds on the page. *)
Definition unconditional_shots (s : script) : list string :=
  match s with
  | Element => ["C:\Users\derri\HeirclarkHealthAppNew\full_page_tall.png"]
  | Gauges =>
      [ "C:\Users\derri\HeirclarkHealthAppNew\calorie_counter_page.png";
        "C:\Users\derri\HeirclarkHealthAppNew\calorie_counter_scrolled.png";
        "C:\Users\derri\HeirclarkHealthAppNew\macro_cards_view.png" ]
  | MacroDetail =>
      [ "C:\Users\derri\HeirclarkHealthAppNew\macro_cards_detail.png";
        "C:\Users\derri\HeirclarkHealthAppNew\gauges_combined.png" ]
  | MacrosFinal =>
      [ "C:\Users\derri\HeirclarkHealthAppNew\macros_view1.png";
        "C:\Users\derri\HeirclarkHealthAppNew\macros_view2.png";
        "C:\Users\derri\HeirclarkHealthAppNew\macros_view3.png" ]
  | DiagnoseCards =>
      [ "C:\Users\derri\HeirclarkHealthAppNew\diagnosis_01_initial.png";
        "C:\Users\derri\HeirclarkHealthAppNew\diagnosis_02_scrolled.png" ]
  end.

(** The reading of the specification that is put to the test: the five
    runs agree on everything but screenshot paths and scroll offsets. *)
Definition same_up_to_paths_and_scrolls : Prop :=
  forall (s1 s2 : script) (w : world),
    profile (log_of (program s1 w)) = profile (log_of (program s2 w)).

(** The reading that is put to the test: with no Skip button on the
    page and no failing call, what follows the lookup holds a wait and
    a screenshot. *)
Definition skip_absent_still_waits : Prop :=
  forall (s : script) (w : world),
    (forall h c, raises w h c = None) ->
    (forall h, found w h "text=Skip" = None) ->
    exists post,
      skip_lookup (log_of (program s w)) = Some (None, post) /\
      waits post <> [] /\ shots post <> [].

End capture.

(** ** All the browser scripts *)

Module browser_scripts.

Inductive script :=
| Capture (s : capture.script)
| CheckFonts
| TestFonts
| Diagnostic
| Crawler.

(** The log of a computation and whether it ended in an exception. *)
Definition observed {A} (m : M A) : trace * bool := (log_of m, uncaught (end_of m)).

Definition session (s : script) (w : world) : trace * bool :=
  match s with
  | Capture c => observed (capture.program c w)
  | CheckFonts => observed (check_fonts.check_app_fonts w)
  | TestFonts => observed (test_fonts.test_fonts w)
  | Diagnostic => observed (comprehensive_diagnostic.run_diagnostics w)
  | Crawler => observed (crawl_heirclark_website.crawl_heirclark w)
  end.

(** A call on the browser or on one of its pages. *)
Definition uses_browser (c : call) : bool :=
  match c with
  | Sleep _ | Makedirs _ | JsonDump _ _ | PlaywrightStop => false
  | _ => true
  end.

(** The [with ..playwright()] block was left, and nothing was done with
    the browser afterwards: the log is a [body], the exit and a [tail]
    without calls on the browser. *)
Definition scope_closes (t : trace) : Prop :=
  exists body tail,
    t = body ++ Did PlaywrightStop RNone :: tail /\
    Forall (calls (fun c => uses_browser c = false)) tail.

(** A page on which everything is present and every call succeeds but
    the screenshots, which raise. *)
Definition no_screenshot : world :=
  failing (fun c => match c with Screenshot _ _ => true | _ => false end)
          (quiet_world (fun _ => true)).

Definition is_close (ev : event) : bool :=
  match call_of ev with Some BrowserClose => true | _ => false end.

End browser_scripts.

(** ** The crawl, as its log and its results show it *)

Module crawl.
Import crawl_heirclark_website.

(** The entries of a list that do not occur earlier in it, nor in
    [earlier]. *)
Fixpoint first_occurrences (earlier urls : list string) : list string :=
  match urls with
  | [] => []
  | u :: rest =>
      if decide (u ∈ earlier) then first_occurrences earlier rest
      else u :: first_occurrences (earlier ++ [u]) rest
  end.

(** The reading that is put to the test: every entry of the list is
    navigated to and no set of visited URLs is built up. *)
Definition no_dedup : Prop :=
  forall (w : world) (urls : list string),
    navigations (log_of (crawl_pages w urls (∅, initial_results w))) = urls /\
    exists res, end_of (crawl_pages w urls (∅, initial_results w)) = Ok (∅, res).


(** One run of the per-URL [try]: the log before it, its own log and
    how it ended. *)
Record visit := Visit {
  v_url : string;
  v_before : trace;
  v_log : trace;
  v_end : outcome page_data
}.

(** What a visit adds to [results['pages']], and to
    [results['errors']]. *)
Definition page_of (v : visit) : option page_data :=
  match v_end v with Ok pd => Some pd | Raised _ => None end.

Definition error_of (v : visit) : option error_entry :=
  match v_end v with
  | Ok _ => None
  | Raised e => Some (ErrorEntry (v_url v) (exn_msg e))
  end.

(** The visit took place in the run that started after [h] and logged
    [t]: it is a run of [visit_page] from the log as it stood, and its
    own log is a segment of [t]. *)
Definition happened (w : world) (h t : trace) (v : visit) : Prop :=
  visit_page w (v_url v) (v_before v) = (v_log v, v_end v) /\
  exists mid rest, v_before v = h ++ mid /\ t = mid ++ v_log v ++ rest.

(** What the per-URL handler prints. *)
Definition page_error (u : string) (e : exn) : event :=
  Printed ("  [ERROR] Error on " +:+ u +:+ ": " +:+ exn_msg e).

(** The log of the crawler's setup when it goes through. *)
Definition crawler_setup : trace :=
  [ Did (Launch false) RNone;
    Did (NewContext
           {| viewport := (390, 844); device_scale_factor := None;
              is_mobile := None; has_touch := None;
              user_agent := Some "Mozilla/5.0 (iPhone; CPU iPhone OS 16_0 like Mac OS X)" |})
        RNone;
    Did NewPage RNone ].

(** The crawl loop of the script, run after the log [h]. *)
Definition crawl_loop (w : world) (urls : list string) (h : trace)
  : trace * outcome (gset string * results) :=
  crawl_pages w urls (∅, initial_results w) h.

(** A call that is not a navigation, or navigates to one of [urls]. *)
Definition navigates_within (urls : list string) (c : call) : Prop :=
  match c with
  | Goto u _ _ => u ∈ urls
  | _ => True
  end.

(** How often [u] occurs. *)
Definition occurrences (u : string) (l : list string) : nat :=
  length (filter (fun x => x = u) l).

(** The text a card entry keeps of the text read, and the text a
    button entry keeps. *)
Definition card_text (txt : pystr) : pystr := take 200%nat (strip (ascii_ignore txt)).
Definition button_text (txt : pystr) : pystr := strip (ascii_ignore txt).

(** [reads cleaned cs t es]: [t] is the log of going through the
    elements [cs] one after the other, and [es] are the entries that
    result, in order.  An element whose text was read and is not blank,
    and whose class was read, leaves the entry of its cleaned text and
    class; an element whose text is blank, or whose text or class could
    not be read, leaves none. *)
Inductive reads (cleaned : pystr -> pystr)
  : list handle -> trace -> list element_entry -> Prop :=
| reads_done : reads cleaned [] [] []
| reads_entry c cs txt cls t es :
    has_text txt = true -> reads cleaned cs t es ->
    reads cleaned (c :: cs)
      (Did (InnerText c) (RStr txt) :: Did (GetAttribute c "class") (ROptStr cls) :: t)
      (ElementEntry (cleaned txt) cls :: es)
| reads_blank c cs txt t es :
    has_text txt = false -> reads cleaned cs t es ->
    reads cleaned (c :: cs) (Did (InnerText c) (RStr txt) :: t) es
| reads_no_text c cs e t es :
    reads cleaned cs t es ->
    reads cleaned (c :: cs) (Failed (InnerText c) e :: t) es
| reads_no_class c cs txt e t es :
    has_text txt = true -> reads cleaned cs t es ->
    reads cleaned (c :: cs)
      (Did (InnerText c) (RStr txt) :: Failed (GetAttribute c "class") e :: t) es.

(** The same for the inputs: each leaves the entry of its three
    attributes, an attribute that is missing or empty replaced by its
    default. *)
Inductive reads_forms : list handle -> trace -> list form_entry -> Prop :=
| reads_forms_done : reads_forms [] [] []
| reads_forms_entry inp inputs type placeholder name t fs :
    reads_forms inputs t fs ->
    reads_forms (inp :: inputs)
      (Did (GetAttribute inp "type") (ROptStr type) ::
       Did (GetAttribute inp "placeholder") (ROptStr placeholder) ::
       Did (GetAttribute inp "name") (ROptStr name) :: t)
      (FormEntry (or_default type (lit "text")) (or_default placeholder [])
                 (or_default name []) :: fs).

(** And for the modals: each leaves its visibility and its class. *)
Inductive reads_modals : list handle -> trace -> list modal_entry -> Prop :=
| reads_modals_done : reads_modals [] [] []
| reads_modals_entry modal modals visible cls t ms :
    reads_modals modals t ms ->
    reads_modals (modal :: modals)
      (Did (HandleIsVisible modal) (RBool visible) ::
       Did (GetAttribute modal "class") (ROptStr cls) :: t)
      (ModalEntry visible cls :: ms).

(** The page dictionary [pd] holds what the visit with log [t] found.
    The log is the navigation to the page's URL, the wait, the title,
    the screenshot, and the four queries, each followed by the reading
    of what it returned: the first 20 cards, the first 30 buttons, all
    inputs and all modals; the title and the four lists of [pd] are what
    was read.  What follows in [tail] are the interaction tests. *)
Definition dumps (t : trace) (pd : page_data) : Prop :=
  exists cards tc buttons tb inputs ti modals tm tail,
    t = [ Did (Goto (pd_url pd) (Some "networkidle") (Some 30000)) RNone;
          Did (WaitForTimeout 2000) RNone;
          Did Title (RStr (pd_title pd));
          Did (Screenshot (pd_screenshot pd) (Some true)) RNone;
          Did (QuerySelectorAll cards_selector) (RHandles cards) ] ++ tc ++
        Did (QuerySelectorAll buttons_selector) (RHandles buttons) :: tb ++
        Did (QuerySelectorAll inputs_selector) (RHandles inputs) :: ti ++
        Did (QuerySelectorAll modals_selector) (RHandles modals) :: tm ++ tail /\
    reads card_text (take 20 cards) tc (pd_cards pd) /\
    reads button_text (take 30 buttons) tb (pd_buttons pd) /\
    reads_forms inputs ti (pd_forms pd) /\
    reads_modals modals tm (pd_modals pd).

(** The page of the feature analysis. *)
Definition calorie_counter : string := "https://heirclark.com/pages/calorie-counter".

(** *** The reading of the specification that is put to the test

    In three parts.  When the browser is up, the script navigates to the
    six URLs of its list, in order, and to nothing else. *)
Definition visits_exactly_the_list : Prop :=
  forall w : world,
    page_created (log_of (crawl_heirclark w)) = true ->
    navigations (log_of (crawl_heirclark w)) = pages_to_visit.

(** The URLs a run has loaded, and the pages of the results it has
    written. *)
Definition loaded (t : trace) : list string :=
  omap (fun ev => match ev with Did (Goto url _ _) _ => Some url | _ => None end) t.

Definition dumped_pages (t : trace) : list page_data :=
  mjoin (omap (fun ev => match ev with
                        | Did (JsonDump _ res) _ => Some (pages res)
                        | _ => None
                        end) t).

(** Every page that loaded has an entry in the results written. *)
Definition loaded_pages_dumped : Prop :=
  forall w : world,
    Forall (fun url => url ∈ pd_url <$> dumped_pages (log_of (crawl_heirclark w)))
           (loaded (log_of (crawl_heirclark w))).

(** The entry of a page holds the elements its queries returned: one
    card, button, form and modal entry for each. *)
Definition discovered_elements_dumped : Prop :=
  forall (w : world) (url : string) (h t : trace) (pd : page_data),
    visit_page w url h = (t, Ok pd) ->
    length (pd_cards pd) = length (discovered cards_selector t) /\
    length (pd_buttons pd) = length (discovered buttons_selector t) /\
    length (pd_forms pd) = length (discovered inputs_selector t) /\
    length (pd_modals pd) = length (discovered modals_selector t).

(** A page on which every query returns the same 21 elements, each
    with the text x and no class, and every call succeeds. *)
Definition long_page : world :=
  {| raises := fun _ _ => None;
     page_title := fun _ => lit "Heirclark";
     found := fun _ _ => None;
     found_all := fun _ _ => N.of_nat <$> seq 1 21;
     text_of := fun _ _ => lit "x";
     attribute_of := fun _ _ _ => None;
     handle_visible := fun _ _ => true;
     selector_visible := fun _ _ => false;
     locator_visible := fun _ _ => false;
     count_of := fun _ _ => 0;
     js_value := fun _ _ => [];
     today := "2026-01-01T00:00:00";
     beside_script := fun name => name |}.

(** A page with two cards, the second one blank, a button, an input
    without attributes and a visible modal; every call succeeds. *)
Definition small_page : world :=
  {| raises := fun _ _ => None;
     page_title := fun _ => lit "Heirclark";
     found := fun _ _ => None;
     found_all := fun _ sel =>
       if String.eqb sel cards_selector then [1%N; 2%N]
       else if String.eqb sel buttons_selector then [3%N]
       else if String.eqb sel inputs_selector then [4%N]
       else if String.eqb sel modals_selector then [5%N]
       else [];
     text_of := fun _ x =>
       if (x =? 1)%N then lit "  Daily Balance " else
       if (x =? 3)%N then lit "Log Meal" else lit " ";
     attribute_of := fun _ x name =>
       if (x =? 4)%N then None else if String.eqb name "class" then Some (lit "card") else None;
     handle_visible := fun _ _ => true;
     selector_visible := fun _ _ => false;
     locator_visible := fun _ _ => false;
     count_of := fun _ _ => 0;
     js_value := fun _ _ => [];
     today := "2026-01-01T00:00:00";
     beside_script := fun name => name |}.

Definition is_goto (c : call) : bool :=
  match c with Goto _ _ _ => true | _ => false end.

Definition is_query_all (c : call) : bool :=
  match c with QuerySelectorAll _ => true | _ => false end.

End crawl.

(** ** What the log of a database script shows *)

Module DbLog.
Import Db.

(** The run printed the line that follows the commit of the migration. *)
Definition reports_success (t : trace) : bool :=
  existsb (fun ev => match ev with
                     | Printed line =>
                         String.eqb line "[SUCCESS] Migration completed successfully!"
                     | _ => false
                     end) t.

(** Two runs of the migration script, one after the other, on a
    reachable server that starts with schema [s]: log and result of each,
    and the schema each leaves. *)
Definition first_run (s : schema) : trace * outcome bool :=
  run (run_migration.run_migration (postgres s true)).

Definition schema_after_first (s : schema) : schema :=
  schema_after (first_run s).1 s.

Definition second_run (s : schema) : trace * outcome bool :=
  run (run_migration.run_migration (postgres (schema_after_first s) true)).

Definition schema_after_second (s : schema) : schema :=
  schema_after (second_run s).1 (schema_after_first s).

End DbLog.

(** ** What the log of an icon script shows *)

Module IconLog.
Import Img.

(** A 1024 x 1024 PNG file. *)
Definition is_icon (f : file) : Prop :=
  file_format f = "PNG" /\ file_size f = (1024, 1024).

(** The file at [path] after the run with log [t] is a 1024 x 1024 PNG. *)
Definition icon_at (t : trace) (fs : gmap string file) (path : string) : Prop :=
  exists f, files_after t fs !! path = Some f /\ is_icon f.

(** A disk that holds the image [src] at every path not written yet, on
    a machine where no call raises; a file written in the run is read
    back as it was written. *)
Definition disk (src : image) : world :=
  {| raises := fun _ _ => None;
     opened := fun h path =>
       match files_after h ∅ !! path with
       | Some f => Image (file_size f) (default "RGB" (file_mode f))
                         (Some (file_format f)) (FromFile path)
       | None => src
       end;
     decoded := fun _ data => Image (im_size src) (im_mode src) None (FromBytes data);
     text_at := fun _ _ => "";
     exists_at := fun h path => bool_decide (is_Some (files_after h ∅ !! path));
     size_at := fun _ _ => 0;
     python := "python" |}.

(** *** process_app_icon.py *)

Definition white : Z * Z * Z := (255, 255, 255).

(** The pixels without transparency: an RGBA image composited onto a
    white background with its alpha band (the fourth) as mask, an RGB
    image as it is, any other mode converted to RGB. *)
Definition without_alpha (src : image) : pixels :=
  if String.eqb (im_mode src) "RGBA" then
    Pasted (Solid white) (im_pixels src) (BandOf 3 (im_pixels src))
  else if String.eqb (im_mode src) "RGB" then im_pixels src
  else Converted "RGB" (im_pixels src).

(** The centred square of side [min width height]. *)
Definition centre_box (size : Z * Z) : Z * Z * Z * Z :=
  let side := Z.min size.1 size.2 in
  ((size.1 - side) `div` 2, (size.2 - side) `div` 2,
   (size.1 - side) `div` 2 + side, (size.2 - side) `div` 2 + side).

(** The icon the script is meant to make of [src]. *)
Definition icon_of (src : image) : image :=
  Image (1024, 1024) "RGB" None
        (Resized (1024, 1024) "LANCZOS"
           (Cropped (centre_box (im_size src)) (without_alpha src))).

(** [box] is a square with pixels in it that lies inside an image of
    size [size]. *)
Definition square_inside (size : Z * Z) (box : Z * Z * Z * Z) : Prop :=
  let '(x0, y0, x1, y1) := box in
  0 <= x0 /\ 0 <= y0 /\ x1 <= size.1 /\ y1 <= size.2 /\
  0 < x1 - x0 /\ x1 - x0 = y1 - y0.

(** A portrait photograph as a phone stores it. *)
Definition photo : image :=
  Image (3024, 4032) "RGB" (Some "JPEG") (FromFile process_app_icon.input_path).

Definition app_outputs : list string :=
  [process_app_icon.output_icon; process_app_icon.output_adaptive;
   process_app_icon.output_splash].

(** *** process_svg_icon.py *)

Definition svg_outputs : list string :=
  [process_svg_icon.output_icon; process_svg_icon.output_adaptive;
   process_svg_icon.output_splash].

(** The calls of method 1, and its log when they all go through. *)
Definition cairosvg_calls : list call :=
  ImportModule "cairosvg" ::
  ((fun out => Svg2png process_svg_icon.input_svg out 1024 1024) <$> svg_outputs).

Definition cairosvg_log : trace := (fun c => Did c RNone) <$> cairosvg_calls.

(** A machine without cairosvg, whose Pillow cannot read an SVG, with
    Inkscape installed in the second of the usual places; the disk is
    that of [disk photo]. *)
Definition inkscape_machine : world :=
  {| raises := fun _ c =>
       match c with
       | ImportModule "cairosvg" => Some (Exn ImportError "No module named 'cairosvg'")
       | OpenBytes _ => Some (Exn Error "cannot identify image file")
       | _ => None
       end;
     opened := opened (disk photo);
     decoded := decoded (disk photo);
     text_at := text_at (disk photo);
     exists_at := fun h path =>
       String.eqb path "C:\Program Files (x86)\Inkscape\bin\inkscape.exe"
       || exists_at (disk photo) h path;
     size_at := size_at (disk photo);
     python := python (disk photo) |}.

(** *** Pillow's limit on the size of an image

    [Image.open] checks the size it reads from the header against
    [Image.MAX_IMAGE_PIXELS]: beyond twice that number it raises
    [DecompressionBombError]. *)
Definition max_image_pixels : Z := 89478485.

Definition pixel_count (im : image) : Z := (im_size im).1 * (im_size im).2.

Definition too_large (im : image) : bool := 2 * max_image_pixels <? pixel_count im.

Definition bomb_error (im : image) : exn :=
  Exn Error ("Image size (" +:+ pretty (pixel_count im) +:+ " pixels) exceeds limit of " +:+
             pretty (2 * max_image_pixels) +:+
             " pixels, could be decompression bomb DOS attack.").

(** The disk of [disk src] on a machine where everything is installed
    and works: the only call that raises is the [Image.open] of an
    image beyond Pillow's limit. *)
Definition pillow_disk (src : image) : world :=
  {| raises := fun h c =>
       match c with
       | Open path =>
           if too_large (opened (disk src) h path)
           then Some (bomb_error (opened (disk src) h path))
           else None
       | _ => None
       end;
     opened := opened (disk src);
     decoded := decoded (disk src);
     text_at := text_at (disk src);
     exists_at := exists_at (disk src);
     size_at := size_at (disk src);
     python := python (disk src) |}.

(** A scan of 14000 x 14000 pixels. *)
Definition poster : image :=
  Image (14000, 14000) "RGB" (Some "JPEG") (FromFile process_app_icon.input_path).

(** The reading that is put to the test: whatever image of positive
    width and height lies at the input path, a run of
    process_app_icon.py leaves its icon as a 1024 x 1024 PNG file, and a
    run of process_svg_icon.py each of its three outputs. *)
Definition always_converts : Prop :=
  forall w : world,
    0 < (im_size (opened w [] process_app_icon.input_path)).1 ->
    0 < (im_size (opened w [] process_app_icon.input_path)).2 ->
    icon_at (log_of (process_app_icon.main w)) ∅ process_app_icon.output_icon /\
    Forall (icon_at (log_of (process_svg_icon.main w)) ∅) svg_outputs.

End IconLog.

(** ** Invariants of the logs of the icon scripts *)

Module IconInv.
Import Img IconLog.

(** What a successful call may write so that only icons are written:
    a 1024 x 1024 PNG, or a copy of a file written earlier in the run. *)
Definition good_write (h : trace) (ev : event) : Prop :=
  match ev with
  | Did (Save im _ format _ _) _ => format = "PNG" /\ im_size im = (1024, 1024)
  | Did (Svg2png _ _ width height) _ => width = 1024 /\ height = 1024
  | Did (Run argv) _ =>
      match inkscape_export argv with
      | Some (_, f) => is_icon f
      | None => True
      end
  | Did (Copy2 src _) _ => src ∈ written h
  | _ => True
  end.

(** Every event of [t], logged after [h], is a good write. *)
Inductive good_log : trace -> trace -> Prop :=
| good_nil h : good_log h []
| good_cons h ev t : good_write h ev -> good_log (h ++ [ev]) t -> good_log h (ev :: t).

(** Every file the run has written is a 1024 x 1024 PNG, whatever was
    on disk before. *)
Definition icons (t : trace) : Prop :=
  forall fs, Forall (icon_at t fs) (written t).

Definition writes_icons {A} (m : M A) : Prop :=
  forall h, good_log h (m h).1.

(** A conversion stage never raises, and when it answers [True] the
    paths in [outputs] have been written. *)
Definition delivers (outputs : list string) (m : M bool) : Prop :=
  forall h, match m h with
            | (t, Ok true) => outputs ⊆ written t
            | (_, Ok false) => True
            | (_, Raised _) => False
            end.

End IconInv.

(** ** The fourteen scripts and how they take a failure *)

Module repository.
Import browser_scripts.

Inductive script :=
| OnBrowser (s : browser_scripts.script)
| AppIcon
| SvgIcon
| Migration
| CheckTables
| CheckUserProfiles.

(** What the scripts run against: the pages, the disk with the imaging
    software, the database server. *)
Record environment := Environment {
  web : Browser.world;
  files : Img.world;
  database : Db.world
}.

(** What a run shows about failures: whether a call raised; whether,
    after the first call that raised, the script made a further call that
    is not part of leaving ([browser.close()], the end of the [with]
    block); whether the run ended in an exception. *)
Record conduct := Conduct {
  failed : bool;
  went_on : bool;
  ended_in_exception : bool
}.

Definition conduct_of {C R A} (cleanup : C -> bool) (m : Py.M C R A) : conduct :=
  Conduct (negb (clean (log_of m))) (carries_on cleanup (log_of m)) (uncaught (end_of m)).

Definition no_cleanup {C} (c : C) : bool := false.

Definition on_browser (s : browser_scripts.script) (w : Browser.world) : conduct :=
  match s with
  | Capture c => conduct_of is_teardown (capture.program c w)
  | CheckFonts => conduct_of is_teardown (check_fonts.check_app_fonts w)
  | TestFonts => conduct_of is_teardown (test_fonts.test_fonts w)
  | Diagnostic => conduct_of is_teardown (comprehensive_diagnostic.run_diagnostics w)
  | Crawler => conduct_of is_teardown (crawl_heirclark_website.crawl_heirclark w)
  end.

Definition behaviour (s : script) (env : environment) : conduct :=
  match s with
  | OnBrowser b => on_browser b (web env)
  | AppIcon => conduct_of no_cleanup (process_app_icon.main (files env))
  | SvgIcon => conduct_of no_cleanup (process_svg_icon.main (files env))
  | Migration => conduct_of no_cleanup (run_migration.main (database env))
  | CheckTables => conduct_of no_cleanup (check_tables.main (database env))
  | CheckUserProfiles => conduct_of no_cleanup (check_user_profiles.main (database env))
  end.

(** The reading that is put to the test.  Every script has a handler
    (some failure does not end it in an exception), and no script goes
    on working after a call has raised. *)
Definition single_top_level_handler : Prop :=
  forall s : script,
    (forall env, went_on (behaviour s env) = false) /\
    (exists env, failed (behaviour s env) = true /\
                 ended_in_exception (behaviour s env) = false).

(** *** The scripts by the handlers they have *)

Definition capture_scripts : list script :=
  [OnBrowser (Capture capture.Element); OnBrowser (Capture capture.Gauges);
   OnBrowser (Capture capture.MacroDetail); OnBrowser (Capture capture.MacrosFinal);
   OnBrowser (Capture capture.DiagnoseCards)].

Definition database_scripts : list script := [Migration; CheckTables; CheckUserProfiles].

(** One [try]/[except] around the work, whose handler prints and lets
    the script end. *)
Definition one_handler : list script := capture_scripts ++ database_scripts.

(** No handler at all. *)
Definition no_handler : list script := [OnBrowser Diagnostic; AppIcon].

(** Handlers around single steps, after which the script continues. *)
Definition handler_per_step : list script :=
  [OnBrowser CheckFonts; OnBrowser TestFonts; OnBrowser Crawler; SvgIcon].

Definition all_scripts : list script := one_handler ++ no_handler ++ handler_per_step.

(** What the handler of a database script prints. *)
Definition error_line (s : script) (e : exn) : string :=
  match s with
  | Migration => "[ERROR] Migration failed: " +:+ exn_msg e
  | _ => "[ERROR] Failed: " +:+ exn_msg e
  end.

Definition same_line (a b : Db.event) : bool :=
  match a, b with
  | Printed s, Printed s' => String.eqb s s'
  | _, _ => false
  end.

(** In a script with one handler the first exception is reported at
    once; in a capture script, the first exception of a call inside the
    [try]. *)
Definition reported (s : script) (env : environment) : bool :=
  let report e := [Printed (error_line s e)] in
  match s with
  | OnBrowser (Capture c) =>
      reports (fun c => negb (outside_try c)) capture.error_report same_event
              (log_of (capture.program c (web env)))
  | Migration =>
      reports (fun _ => true) report same_line (log_of (run_migration.main (database env)))
  | CheckTables =>
      reports (fun _ => true) report same_line (log_of (check_tables.main (database env)))
  | CheckUserProfiles =>
      reports (fun _ => true) report same_line
              (log_of (check_user_profiles.main (database env)))
  | _ => true
  end.

(** *** Environments in which something fails *)

(** A machine without cairosvg and without the photograph, on which
    every other call succeeds. *)
Definition bare_machine : Img.world :=
  {| Img.raises := fun _ c =>
       match c with
       | Img.ImportModule "cairosvg" => Some (Exn ImportError "No module named 'cairosvg'")
       | Img.Open path =>
           if String.eqb path process_app_icon.input_path
           then Some (Exn Error "No such file or directory") else None
       | _ => None
       end;
     Img.opened := Img.opened (IconLog.disk IconLog.photo);
     Img.decoded := Img.decoded (IconLog.disk IconLog.photo);
     Img.text_at := Img.text_at (IconLog.disk IconLog.photo);
     Img.exists_at := Img.exists_at (IconLog.disk IconLog.photo);
     Img.size_at := Img.size_at (IconLog.disk IconLog.photo);
     Img.python := Img.python (IconLog.disk IconLog.photo) |}.

(** A browser in which every navigation raises: nothing is served. *)
Definition nothing_served : Browser.world :=
  failing (fun c => match c with Goto _ _ _ => true | _ => false end)
          (quiet_world (fun _ => true)).

(** Everything works, on an empty database. *)
Definition calm : environment :=
  Environment (quiet_world (fun _ => true)) (IconLog.disk IconLog.photo)
              (Db.postgres ∅ true).

(** No page is served, cairosvg and the photograph are missing, and the
    database server cannot be reached. *)
Definition broken : environment :=
  Environment nothing_served bare_machine (Db.postgres ∅ false).

End repository.

(** ** More of what the logs of the database scripts show *)

Module DbObs.
Import Db.

(** An attempt to change the database: an ALTER or a COMMIT, whether it
    went through or raised. *)
Definition modifies (ev : event) : bool :=
  match ev with
  | Did (Execute (AlterAddColumns _ _)) _ | Failed (Execute (AlterAddColumns _ _)) _
  | Did Commit _ | Failed Commit _ => true
  | _ => false
  end.

Definition is_commit (ev : event) : bool :=
  match ev with Did Commit _ => true | _ => false end.

(** [conn.commit()] went through. *)
Definition committed (t : trace) : bool := existsb is_commit t.

Definition is_close (ev : event) : bool :=
  match ev with Did ConnectionClose _ => true | _ => false end.


(** The two scripts that only look at the schema. *)
Definition inspections (w : world) : list (M bool) :=
  [check_tables.check_tables w; check_user_profiles.check_user_profiles w].



(** A server on which everything succeeds until the connection is lost
    right after the commit: the verification query raises. *)
Definition lost_after_commit : world :=
  {| raises := fun _ c =>
       match c with
       | Execute (SelectColumnTypes _ _) => Some (Exn Error "server closed the connection")
       | _ => None
       end;
     fetched := fun _ => [] |}.

(** A schema whose table [workout_plans] has one of the two columns
    already, as text. *)
Definition legacy_schema : schema :=
  {[ "workout_plans" :=
       [Column "id" "integer" false; Column "nutrition_guidance" "text" true] ]}.

(** The line the verification prints for a row. *)
Definition column_line (row : list string) : event :=
  Printed ("  - " +:+ default "" (row !! 0%nat) +:+ ": " +:+ default "" (row !! 1%nat)).

(** The two columns the migration is about. *)
Definition new_columns : list string := ["cardio_recommendations"; "nutrition_guidance"].

(** The log of the migration script against a reachable server that has
    the table, up to the rows the verification fetched. *)
Definition migrated_log (rows : list (list string)) : trace :=
  [Printed "Connecting to Railway database..."; Did Connect RNone; Did Cursor RNone;
   Printed "Running migration: Adding cardio_recommendations and nutrition_guidance columns...";
   Did (Execute run_migration.migration) RNone; Did Commit RNone;
   Printed "[SUCCESS] Migration completed successfully!";
   Printed (nl +:+ "Verifying columns...");
   Did (Execute run_migration.verification) RNone; Did Fetchall (RRows rows)]
  ++ match rows with
     | [] => [Printed "[WARNING] Could not verify columns"]
     | _ :: _ => Printed (nl +:+ "[SUCCESS] Columns verified:") :: (column_line <$> rows)
     end
  ++ [Did CursorClose RNone; Did ConnectionClose RNone].

End DbObs.

(** ** More of what the logs of the icon scripts show *)

Module IconObs.
Import Img IconLog.

(** What a call does to the disk: it writes the file it names, or it is
    a command that names no export file and does what it does, as
    [pip install], which puts packages into the interpreter's
    directories. *)
Inductive effect :=
| Writes (path : string)
| Runs (argv : list string).

Definition effect_of (c : call) : option effect :=
  match c with
  | Save _ path _ _ _ => Some (Writes path)
  | Svg2png _ write_to _ _ => Some (Writes write_to)
  | Run argv =>
      Some (match inkscape_export argv with
            | Some (path, _) => Writes path
            | None => Runs argv
            end)
  | Copy2 _ dst => Some (Writes dst)
  | _ => None
  end.

(** The effects of a run, in order.  A call that raised counts: it may
    have written before it failed. *)
Definition effects (t : trace) : list effect :=
  omap (fun ev => match ev with
                  | Did c _ | Failed c _ => effect_of c
                  | _ => None
                  end) t.

(** [[sys.executable, '-m', 'pip', 'install', 'cairosvg']] *)
Definition pip_install (w : world) : list string :=
  [python w; "-m"; "pip"; "install"; "cairosvg"].

(** An effect of process_svg_icon.py: a write to one of [outputs], or
    the installation of cairosvg. *)
Definition effect_within (w : world) (outputs : list string) (e : effect) : Prop :=
  match e with
  | Writes path => path ∈ outputs
  | Runs argv => argv = pip_install w
  end.

Definition touches_within (w : world) (outputs : list string) (ev : event) : Prop :=
  Forall (effect_within w outputs) (effects [ev]).

(** The crops a run made: the image and the box. *)
Definition crops (t : trace) : list (image * (Z * Z * Z * Z)) :=
  omap (fun ev => match ev with
                  | Did (Crop im box) _ => Some (im, box)
                  | _ => None
                  end) t.

(** The log of a search that found the paths [missing] absent. *)
Definition not_there (missing : list string) : trace :=
  (fun q => Did (PathExists q) (RBool false)) <$> missing.

(** The calls of the verification at the end of process_svg_icon.py. *)
Definition verification_calls : list call :=
  [PathExists process_svg_icon.output_icon; ImportModule "PIL";
   Open process_svg_icon.output_icon; Getsize process_svg_icon.output_icon].

(** [python -m pip ...] *)
Definition is_pip (c : call) : bool :=
  match c with
  | Run (_ :: "-m" :: "pip" :: _) => true
  | _ => false
  end.

(** The run tried to install a package. *)
Definition pip_attempted (t : trace) : bool :=
  existsb (fun ev => match ev with Did c _ | Failed c _ => is_pip c | _ => false end) t.

(** A line that starts with [start] was printed. *)
Definition printed_with (start : string) (t : trace) : bool :=
  existsb (fun ev => match ev with Printed s => String.prefix start s | _ => false end) t.

(** What a log shows of the four stages: whether cairosvg, Pillow and
    Inkscape each reported that it failed or is missing, and whether pip
    was run. *)
Definition stages (t : trace) : bool * bool * bool * bool :=
  (printed_with "[SKIP] cairosvg" t || printed_with "[ERROR] cairosvg failed" t,
   printed_with "[SKIP] Pillow" t,
   printed_with "[SKIP] Inkscape" t,
   pip_attempted t).

Definition stages_or (a b : bool * bool * bool * bool) : bool * bool * bool * bool :=
  (a.1.1.1 || b.1.1.1, a.1.1.2 || b.1.1.2, a.1.2 || b.1.2, a.2 || b.2).

(** Cairosvg, Pillow and Inkscape have all been given up. *)
Definition gave_up (t : trace) : bool :=
  let '(cairo, pillow, inkscape, _) := stages t in cairo && pillow && inkscape.

(** A conversion stage: it never raises; when it answers [True] it has
    printed no failure line and not run pip, and when it answers [False]
    the stages its log shows are [own]. *)
Definition staged (own : bool * bool * bool * bool) (m : M bool) : Prop :=
  forall h, match m h with
            | (t, Ok true) => stages t = (false, false, false, false)
            | (t, Ok false) => stages t = own
            | (_, Raised _) => False
            end.

(** A machine on which every call raises. *)
Definition nothing_works : world :=
  {| raises := fun _ _ => Some (Exn Error "not available");
     opened := opened (disk photo);
     decoded := decoded (disk photo);
     text_at := text_at (disk photo);
     exists_at := exists_at (disk photo);
     size_at := size_at (disk photo);
     python := python (disk photo) |}.

End IconObs.

(** ** More of what the logs of the browser scripts show *)

Module FontObs.

(** [f"http://localhost:{port}"] *)
Definition port_url (port : Z) : string := "http://localhost:" +:+ pretty port.

(** What a port that refuses leaves in the log of check_fonts.py: the
    navigation that raised and the line its handler prints. *)
Definition refused (p : Z * exn) : trace :=
  [Failed (Goto (port_url p.1) None (Some 10000)) p.2;
   Printed ("Port " +:+ pretty p.1 +:+ " not available: " +:+ exn_msg p.2)].

(** The same in test_fonts.py, whose handler prints nothing. *)
Definition refused_silently (p : Z * exn) : trace :=
  [Failed (Goto (port_url p.1) None (Some 5000)) p.2].

(** A navigation went through. *)
Definition connected (t : trace) : bool :=
  existsb (fun ev => match ev with Did (Goto _ _ _) _ => true | _ => false end) t.

(** The screenshots a run tried to take. *)
Definition shot_attempts (t : trace) : list string :=
  omap (fun ev => match call_of ev with Some (Screenshot p _) => Some p | _ => None end) t.

(** Only navigations can raise. *)
Definition only_navigation_fails (w : world) : Prop :=
  forall h c, (match c with Goto _ _ _ => false | _ => true end) = true -> raises w h c = None.

End FontObs.

(** ** More of what the crawler's results show *)

Module CrawlObs.
Import crawl_heirclark_website.

(** Only code points below 128. *)
Definition ascii_only (s : pystr) : Prop := Forall (fun c => (c < 128)%N) s.

Definition starts_clean (s : pystr) : Prop :=
  match head s with Some c => py_isspace c = false | None => True end.

Definition ends_clean (s : pystr) : Prop :=
  match last s with Some c => py_isspace c = false | None => True end.

(** The text of a card entry: at most 200 code points, ASCII, no
    whitespace in front. *)
Definition card_ok (e : element_entry) : Prop :=
  (length (el_text e) <= 200)%nat /\ ascii_only (el_text e) /\ starts_clean (el_text e).

(** The text of a button entry: ASCII, no whitespace at either end. *)
Definition button_ok (e : element_entry) : Prop :=
  ascii_only (el_text e) /\ starts_clean (el_text e) /\ ends_clean (el_text e).

(** The names the three interaction tests record, in their order. *)
Definition component_names : list string :=
  ["Log Meal Modal"; "Date Selector"; "Sync Button"].

Definition component_ok (c : component_entry) : Prop :=
  c_name c = "Log Meal Modal" /\ c_type c = "modal"
  \/ c_working c = true /\
     (c_name c = "Date Selector" /\ c_type c = "calendar"
      \/ c_name c = "Sync Button" /\ c_type c = "button").

(** The cards and buttons of a page entry: at most 20 and 30, with
    texts as above. *)
Definition texts_ok (pd : page_data) : Prop :=
  (length (pd_cards pd) <= 20)%nat /\ (length (pd_buttons pd) <= 30)%nat /\
  Forall card_ok (pd_cards pd) /\ Forall button_ok (pd_buttons pd).

(** The components of a page entry: some of the three, in their order;
    all but the modal are recorded as working. *)
Definition interactions_ok (pd : page_data) : Prop :=
  c_name <$> pd_components pd `sublist_of` component_names /\
  Forall component_ok (pd_components pd).

Definition page_ok (pd : page_data) : Prop :=
  texts_ok pd /\ interactions_ok pd /\ pd_screenshot pd = screenshot_path (pd_url pd).

(** The form entries of a page: the type is never empty (a missing or
    empty [type] attribute is recorded as text). *)
Definition forms_ok (pd : page_data) : Prop :=
  Forall (fun f => f_type f <> []) (pd_forms pd).




(** The entry [f] records, for the feature [spec], what the visibility
    check of its search text answered in the log [t]. *)
Definition feature_from (t : trace) (spec : string * string) (f : feature_entry) : Prop :=
  ft_name f = spec.1 /\
  Did (IsVisible ("text=" +:+ quoted spec.2)) (RBool (ft_present f)) ∈ t.

Definition is_dump (ev : event) : bool :=
  match ev with Did (JsonDump _ _) _ => true | _ => false end.

(** The results were written. *)
Definition dumped (t : trace) : bool := existsb is_dump t.

Definition dump_attempted (ev : event) : bool :=
  match call_of ev with Some (JsonDump _ _) => true | _ => false end.

(** A page whose every element has a text of one emoji. *)
Definition emoji_page : world :=
  {| raises := fun _ _ => None;
     page_title := fun _ => [];
     found := fun _ _ => None;
     found_all := fun _ _ => [1%N];
     text_of := fun _ _ => [128512%N];
     attribute_of := fun _ _ _ => None;
     handle_visible := fun _ _ => false;
     selector_visible := fun _ _ => false;
     locator_visible := fun _ _ => false;
     count_of := fun _ _ => 0;
     js_value := fun _ _ => [];
     today := "2026-01-01T00:00:00";
     beside_script := fun name => name |}.

End CrawlObs.

(** ** More of what the logs of the screenshot scripts show *)

Module CaptureObs.

(** The five collapsible cards of diagnose_cards.py: the selector that
    is looked up and the file the expanded card is saved to. *)
Definition card_steps : list (string * string) :=
  [ ("text=DAILY FAT LOSS",
     "C:\Users\derri\HeirclarkHealthAppNew\diagnosis_03_daily_fat_loss.png");
    ("text=WEEKLY PROGRESS",
     "C:\Users\derri\HeirclarkHealthAppNew\diagnosis_04_weekly_progress.png");
    ("text=DINING OUT",
     "C:\Users\derri\HeirclarkHealthAppNew\diagnosis_05_dining_out.png");
    ("text=WEARABLE SYNC",
     "C:\Users\derri\HeirclarkHealthAppNew\diagnosis_06_wearable_sync.png");
    ("text=TODAY'S MEALS",
     "C:\Users\derri\HeirclarkHealthAppNew\diagnosis_07_todays_meals.png") ].

(** The two screenshots diagnose_cards.py takes before it looks for
    cards. *)
Definition overview_shots : list string :=
  [ "C:\Users\derri\HeirclarkHealthAppNew\diagnosis_01_initial.png";
    "C:\Users\derri\HeirclarkHealthAppNew\diagnosis_02_scrolled.png" ].

(** The paths of the cards that [present] says are on the page. *)
Definition shots_of_present (present : string -> bool) : list string :=
  snd <$> filter (fun c => present c.1 = true) card_steps.

End CaptureObs.

(** ** What the log of the diagnostic shows about its clicks *)

Module DiagObs.

#[global] Instance locator_eq_dec : EqDecision locator.
Proof. solve_decision. Defined.

(** The locators a log clicks (or tries to) without having seen them
    visible before: [seen] holds the locators whose [is_visible()] has
    answered true so far. *)
Fixpoint unseen_clicks_from (seen : list locator) (t : trace) : list locator :=
  match t with
  | [] => []
  | ev :: rest =>
      match ev with
      | Did (LocatorIsVisible l) (RBool true) => unseen_clicks_from (l :: seen) rest
      | Did (LocatorClick l) _ | Failed (LocatorClick l) _ =>
          (if bool_decide (l ∈ seen) then [] else [l]) ++ unseen_clicks_from seen rest
      | _ => unseen_clicks_from seen rest
      end
  end.

Definition unseen_clicks (t : trace) : list locator := unseen_clicks_from [] t.

(** The locators a log clicks or tries to click. *)
Definition locator_clicks (t : trace) : list locator :=
  omap (fun ev => match call_of ev with Some (LocatorClick l) => Some l | _ => None end) t.

(** The close button of the meal logger. *)
Definition close_button : locator :=
  comprehensive_diagnostic.first_of
    ("[aria-label=" +:+ comprehensive_diagnostic.dq +:+ "close" +:+
     comprehensive_diagnostic.dq +:+ "]").

(** The locators seen visible after the log [t], starting from [seen]. *)
Fixpoint seen_after (seen : list locator) (t : trace) : list locator :=
  match t with
  | [] => seen
  | Did (LocatorIsVisible l) (RBool true) :: rest => seen_after (l :: seen) rest
  | _ :: rest => seen_after seen rest
  end.

(** From any point at which the locators [known] have been seen
    visible, [m] clicks nothing unseen but the close button. *)
Definition careful {A} (known : list locator) (m : M A) : Prop :=
  forall h seen, known ⊆ seen ->
    Forall (fun l => l = close_button) (unseen_clicks_from seen (m h).1).

(** The directory was created. *)
Definition made_dir (path : string) (t : trace) : bool :=
  existsb (fun ev => match ev with Did (Makedirs p) _ => String.eqb p path | _ => false end) t.

(** A piece of the script that takes no screenshot before it has
    created the directory [path]. *)
Definition prepares {A} (path : string) (m : M A) : Prop :=
  forall h, FontObs.shot_attempts (m h).1 = [] \/ made_dir path (m h).1 = true.

(** A call that is no screenshot, or a screenshot into [dir]. *)
Definition shot_into (dir : string) (ev : event) : Prop :=
  match call_of ev with
  | Some (Screenshot p _) => String.prefix dir p = true
  | _ => True
  end.

End DiagObs.

(** * Proofs *)

(** ** Rules for the combinators *)

Module Rules.
Section Rules.
Context {C R : Type}.
Abbreviation comp := (Py.M C R).
Implicit Types (t : list (Py.event C R)) (ev : Py.event C R).

Lemma run_bind {A B} (m : comp A) (f : A -> comp B) h :
  (m ≫= f) h =
  match m h with
  | (t1, Ok a) => let '(t2, r) := f a (h ++ t1) in (t1 ++ t2, r)
  | (t1, Raised e) => (t1, Raised e)
  end.
Proof. reflexivity. Qed.

Lemma log_bind_prefix {A B} (m : comp A) (f : A -> comp B) h :
  exists t2, ((m ≫= f) h).1 = (m h).1 ++ t2.
Proof.
  rewrite run_bind. destruct (m h) as [t1 [a|e]]; simpl.
  - destruct (f a (h ++ t1)) as [t2 r]. by exists t2.
  - exists []. by rewrite app_nil_r.
Qed.

(** Reading a run backwards. *)
Lemma bind_inv {A B} (m : comp A) (f : A -> comp B) h t r :
  (m ≫= f) h = (t, r) ->
  (exists e, m h = (t, Raised e) /\ r = Raised e) \/
  (exists t1 a t2, m h = (t1, Ok a) /\ f a (h ++ t1) = (t2, r) /\ t = t1 ++ t2).
Proof.
  rewrite run_bind. destruct (m h) as [t1 [a|e]].
  - destruct (f a (h ++ t1)) as [t2 r2] eqn:Hf. intros [= <- <-]. right. by exists t1, a, t2.
  - intros [= <- <-]. left. by exists e.
Qed.

Lemma bind_ok {A B} (m : comp A) (f : A -> comp B) h t b :
  (m ≫= f) h = (t, Ok b) ->
  exists t1 a t2, m h = (t1, Ok a) /\ f a (h ++ t1) = (t2, Ok b) /\ t = t1 ++ t2.
Proof. intros [(e & _ & [=])|H]%bind_inv. done. Qed.

Lemma perform_ok {A} raises c (value : list (Py.event C R) -> A) shown h t a :
  perform raises c value shown h = (t, Ok a) ->
  t = [Did c (shown (value h))] /\ a = value h.
Proof. unfold perform. destruct (raises h c); [done|]. by intros [= <- <-]. Qed.

Lemma perform_log {A} raises c (value : list (Py.event C R) -> A) shown h t a :
  perform raises c value shown h = (t, Ok a) -> t = [Did c (shown a)].
Proof. by intros [-> ->]%perform_ok. Qed.

Lemma ret_ok {A} (a b : A) h t : (mret a : comp A) h = (t, Ok b) -> t = [] /\ b = a.
Proof. by intros [= <- <-]. Qed.

Lemma clean_app t1 t2 : clean (t1 ++ t2) = clean t1 && clean t2.
Proof. unfold clean. apply forallb_app. Qed.

Lemma first_failure_clean t1 t2 :
  clean t1 = true -> first_failure (t1 ++ t2) = first_failure t2.
Proof.
  induction t1 as [|ev t1 IH]; simpl; [done|].
  intros H. apply andb_prop in H as [Hev H]. destruct ev; try done; auto.
Qed.

Lemma first_failure_none t : clean t = true -> first_failure t = None.
Proof.
  intros H. rewrite <- (app_nil_r t). by rewrite first_failure_clean.
Qed.

Lemma first_failure_at t1 c e t2 :
  clean t1 = true -> first_failure (t1 ++ Failed c e :: t2) = Some (c, e, t2).
Proof. intros H. by rewrite first_failure_clean. Qed.

(** *** [emits] *)

Lemma emits_ret {A} P (a : A) : emits P (mret a : comp A).
Proof. intros h. constructor. Qed.

Lemma emits_bind {A B} P (m : comp A) (f : A -> comp B) :
  emits P m -> (forall a, emits P (f a)) -> emits P (m ≫= f).
Proof.
  intros Hm Hf h. rewrite run_bind. specialize (Hm h).
  destruct (m h) as [t1 [a|e]]; simpl in *; [|done].
  specialize (Hf a (h ++ t1)). destruct (f a (h ++ t1)) as [t2 r]; simpl in *.
  by apply Forall_app.
Qed.

Lemma emits_print P s : P (Printed s) -> emits P (print s : comp unit).
Proof. intros H h. simpl. by repeat constructor. Qed.

Lemma emits_print_exc P e : P (Traceback e) -> emits P (print_exc e : comp unit).
Proof. intros H h. simpl. by repeat constructor. Qed.

Lemma emits_perform {A} P raises c (value : list (Py.event C R) -> A) shown :
  (forall r, P (Did c r)) -> (forall e, P (Failed c e)) ->
  emits P (perform raises c value shown).
Proof.
  intros H1 H2 h. unfold perform. destruct (raises h c); simpl; by repeat constructor.
Qed.

Lemma emits_mark P c r : P (Did c r) -> emits P (mark c r : comp unit).
Proof. intros H h. simpl. by repeat constructor. Qed.

Lemma emits_item {A} P (xs : list A) i : emits P (item xs i : comp A).
Proof. intros h. unfold item. destruct (xs !! i); simpl; constructor. Qed.

Lemma emits_try_except {A} P (body : comp A) handler :
  emits P body -> (forall e, emits P (handler e)) -> emits P (try_except body handler).
Proof.
  intros Hb Hh h. unfold try_except. specialize (Hb h).
  destruct (body h) as [t1 [a|e]]; simpl in *; [done|].
  specialize (Hh e (h ++ t1)). destruct (handler e (h ++ t1)) as [t2 r]; simpl in *.
  by apply Forall_app.
Qed.

Lemma emits_try_finally {A} P (body : comp A) final :
  emits P body -> emits P final -> emits P (try_finally body final).
Proof.
  intros Hb Hf h. unfold try_finally. specialize (Hb h).
  destruct (body h) as [t1 r]; simpl in *.
  specialize (Hf (h ++ t1)). destruct (final (h ++ t1)) as [t2 [[]|e]]; simpl in *;
    by apply Forall_app.
Qed.

Lemma emits_for_each {A} P (xs : list A) (body : A -> comp unit) :
  (forall x, emits P (body x)) -> emits P (for_each xs body).
Proof.
  intros Hb. induction xs as [|x xs IH]; simpl.
  - apply (emits_ret P tt).
  - apply (emits_bind P (body x)); auto.
Qed.

Lemma emits_fold_each {A S} P (xs : list A) (body : A -> S -> comp S) s :
  (forall x s, emits P (body x s)) -> emits P (fold_each xs body s).
Proof.
  intros Hb. revert s. induction xs as [|x xs IH]; intros s; simpl.
  - apply (emits_ret P s).
  - apply (emits_bind P (body x s)); auto.
Qed.

Lemma emits_fold_each_in {A S} P (xs : list A) (body : A -> S -> comp S) s :
  (forall x s, x ∈ xs -> emits P (body x s)) -> emits P (fold_each xs body s).
Proof.
  revert s. induction xs as [|x xs IH]; intros s Hb; simpl.
  - apply (emits_ret P s).
  - apply (emits_bind P (body x s)).
    + apply Hb. by left.
    + intros s'. apply IH. intros y s'' Hy. apply Hb. by right.
Qed.

Lemma emits_when P (c : bool) (body : comp unit) :
  emits P body -> emits P (when c body).
Proof. intros H. destruct c; simpl; [done|]. apply (emits_ret P tt). Qed.

(** *** [total] *)

Lemma total_ret {A} (a : A) : total (mret a : comp A).
Proof. intros h. by exists a. Qed.

Lemma total_print s : total (print s : comp unit).
Proof. intros h. by exists tt. Qed.

Lemma total_bind {A B} (m : comp A) (f : A -> comp B) :
  total m -> (forall a, total (f a)) -> total (m ≫= f).
Proof.
  intros Hm Hf h. rewrite run_bind. destruct (Hm h) as [a Ha].
  destruct (m h) as [t1 r]; simpl in *; subst r.
  destruct (Hf a (h ++ t1)) as [b Hb]. destruct (f a (h ++ t1)) as [t2 r]; simpl in *.
  by exists b.
Qed.

Lemma total_try_except {A} (body : comp A) handler :
  (forall e, total (handler e)) -> total (try_except body handler).
Proof.
  intros Hh h. unfold try_except. destruct (body h) as [t1 [a|e]]; simpl.
  - by exists a.
  - destruct (Hh e (h ++ t1)) as [b Hb].
    destruct (handler e (h ++ t1)) as [t2 r]; simpl in *. by exists b.
Qed.

Lemma total_fold_each {A S} (xs : list A) (body : A -> S -> comp S) s :
  (forall x s, total (body x s)) -> total (fold_each xs body s).
Proof.
  intros Hb. revert s. induction xs as [|x xs IH]; intros s; simpl.
  - apply (total_ret s).
  - apply (total_bind (body x s)); auto.
Qed.

(** *** [fail_fast] *)

Lemma fail_fast_ret {A} (a : A) : fail_fast (mret a : comp A).
Proof. intros h. done. Qed.

Lemma fail_fast_print s : fail_fast (print s : comp unit).
Proof. intros h. done. Qed.

Lemma fail_fast_perform {A} raises c (value : list (Py.event C R) -> A) shown :
  fail_fast (perform raises c value shown).
Proof.
  intros h. unfold perform. destruct (raises h c) as [e|]; [|done].
  right. by exists [], c.
Qed.

Lemma fail_fast_item {A} (xs : list A) i : fail_fast (item xs i : comp A).
Proof. intros h. unfold item. destruct (xs !! i); [done|by left]. Qed.

Lemma fail_fast_bind {A B} (m : comp A) (f : A -> comp B) :
  fail_fast m -> (forall a, fail_fast (f a)) -> fail_fast (m ≫= f).
Proof.
  intros Hm Hf h. rewrite run_bind. specialize (Hm h).
  destruct (m h) as [t1 [a|e]]; [|done].
  specialize (Hf a (h ++ t1)). destruct (f a (h ++ t1)) as [t2 [b|e]].
  - rewrite clean_app, Hm, Hf. done.
  - destruct Hf as [Hf|(t3 & c & -> & Hf)].
    + left. by rewrite clean_app, Hm, Hf.
    + right. exists (t1 ++ t3), c. rewrite clean_app, Hm, Hf. by rewrite (assoc (++)).
Qed.

Lemma fail_fast_when (c : bool) (body : comp unit) :
  fail_fast body -> fail_fast (when c body).
Proof. intros H. destruct c; simpl; [done|]. apply (fail_fast_ret tt). Qed.

Lemma fail_fast_for_each {A} (xs : list A) (body : A -> comp unit) :
  (forall x, fail_fast (body x)) -> fail_fast (for_each xs body).
Proof.
  intros Hb. induction xs as [|x xs IH]; simpl.
  - apply (fail_fast_ret tt).
  - apply (fail_fast_bind (body x)); auto.
Qed.

(** A failure inside handler-free code ends it with an exception. *)
Lemma fail_fast_uncaught {A} (m : comp A) h :
  fail_fast m -> clean (m h).1 = false -> uncaught (m h).2 = true.
Proof.
  intros Hm Hc. specialize (Hm h). destruct (m h) as [t [a|e]]; simpl in *; [congruence|done].
Qed.

(** *** [returns_after] *)

Lemma returns_after_here {A} P (m : comp A) :
  returns_after P m -> forall B (f : A -> comp B), returns_after P (m ≫= f).
Proof.
  intros Hm B f h. rewrite run_bind. specialize (Hm h).
  destruct (m h) as [t1 [a|e]]; [|done].
  destruct (f a (h ++ t1)) as [t2 [b|e]]; [|done].
  rewrite existsb_app, Hm. done.
Qed.

Lemma returns_after_later {A B} P (m : comp A) (f : A -> comp B) :
  (forall a, returns_after P (f a)) -> returns_after P (m ≫= f).
Proof.
  intros Hf h. rewrite run_bind. destruct (m h) as [t1 [a|e]]; [|done].
  specialize (Hf a (h ++ t1)). destruct (f a (h ++ t1)) as [t2 [b|e]]; [|done].
  rewrite existsb_app, Hf. by rewrite orb_true_r.
Qed.

Lemma returns_after_perform {A} (P : Py.event C R -> bool) raises c
    (value : list (Py.event C R) -> A) shown :
  (forall r, P (Did c r) = true) -> returns_after P (perform raises c value shown).
Proof.
  intros H h. unfold perform. destruct (raises h c); [done|]. simpl. by rewrite H.
Qed.

End Rules.
End Rules.
Import Rules.

(** ** Automation *)

Create HintDb api.

#[global] Hint Unfold launch new_context new_page goto wait_for_timeout sleep screenshot click
  makedirs json_dump browser_close locator_click title query_selector query_selector_all
  inner_text get_attribute handle_is_visible is_visible evaluate locator_is_visible
  locator_count locator_evaluate Browser.action : api.

#[global] Hint Unfold Img.image_open Img.image_open_bytes Img.image_new Img.split Img.paste
  Img.convert Img.crop Img.resize Img.save Img.getsize Img.path_exists Img.read_text
  Img.import_module Img.svg2png Img.subprocess_run Img.copy2 Img.action : api.

#[global] Hint Unfold Db.connect Db.cursor Db.execute Db.commit Db.fetchall Db.cursor_close
  Db.connection_close Db.action : api.

(** Handler-free code is [fail_fast], by its syntax. *)
Ltac fail_fast_step :=
  lazymatch goal with
  | |- fail_fast (mbind _ _) => apply fail_fast_bind; [|intros ?]
  | |- fail_fast (mret _) => apply fail_fast_ret
  | |- fail_fast (perform _ _ _ _) => apply fail_fast_perform
  | |- fail_fast (print _) => apply fail_fast_print
  | |- fail_fast (when _ _) => apply fail_fast_when
  | |- fail_fast (item _ _) => apply fail_fast_item
  | |- fail_fast (for_each _ _) => apply fail_fast_for_each; intros ?
  | |- fail_fast (match ?x with _ => _ end) => destruct x
  end.

Ltac fail_fast_tac := autounfold with api; repeat fail_fast_step.

(** Every event of a computation satisfies a property that holds of
    each of its calls and prints. *)
Ltac emits_step :=
  lazymatch goal with
  | |- emits _ (mbind _ _) => apply emits_bind; [|intros ?]
  | |- emits _ (mret _) => apply emits_ret
  | |- emits _ (perform _ _ _ _) => apply emits_perform; intros; try done
  | |- emits _ (print _) => apply emits_print; try done
  | |- emits _ (print_exc _) => apply emits_print_exc; try done
  | |- emits _ (mark _ _) => apply emits_mark; try done
  | |- emits _ (when _ _) => apply emits_when
  | |- emits _ (item _ _) => apply emits_item
  | |- emits _ (try_except _ _) => apply emits_try_except; [|intros ?]
  | |- emits _ (try_finally _ _) => apply emits_try_finally
  | |- emits _ (for_each _ _) => apply emits_for_each; intros ?
  | |- emits _ (fold_each _ _ _) => apply emits_fold_each; intros ? ?
  | |- emits _ (match ?x with _ => _ end) => destruct x
  end.

Ltac emits_tac := autounfold with api; repeat emits_step.

Ltac total_step :=
  lazymatch goal with
  | |- total (mbind _ _) => apply total_bind; [|intros ?]
  | |- total (mret _) => apply total_ret
  | |- total (print _) => apply total_print
  | |- total (try_except _ _) => apply total_try_except; intros ?
  | |- total (fold_each _ _ _) => apply total_fold_each; intros ? ?
  | |- total (match ?x with _ => _ end) => destruct x
  end.

Ltac total_tac := repeat total_step.

(** ** The capture scripts *)

Module capture_facts.
Import capture.

Lemma programs_follow_pattern s w :
  program s w = capture_pattern w (height_of s) (rest_of s w).
Proof. by destruct s. Qed.

Lemma rest_fail_fast s w : fail_fast (rest_of s w).
Proof.
  destruct s; simpl;
    unfold element_rest, gauges_rest, macro_detail_rest, macros_final_rest,
      diagnose_rest, diagnose_cards.expand_card; fail_fast_tac.
Qed.

Ltac ask_world :=
  match goal with
  | |- context [raises ?w ?h ?c] => destruct (raises w h c) eqn:?; simpl
  end.

Section Pattern.
Variable w : world.
Variables (height : Z) (rest : M unit).
Hypothesis Hrest : fail_fast rest.

Lemma tried_fail_fast : fail_fast (tried w rest).
Proof. unfold tried. fail_fast_tac. apply Hrest. Qed.

(** The two ways a capture script can run: the setup fails and nothing
    but the exit from the [with] block follows; or the setup goes
    through, the [try] runs and either returns or is reported, and the
    [finally] calls [browser.close()]. *)
Lemma pattern_run :
  exists t r, run (capture_pattern w height rest) = (t, r) /\
  ((exists t1 c e, t = t1 ++ [Failed c e; Did PlaywrightStop RNone] /\ clean t1 = true /\
      outside_try c = true /\ page_created t = false /\ r = Raised e)
   \/ (exists tb tc, t = setup_log height ++ tb ++ tc ++ [Did PlaywrightStop RNone] /\
       (tc = [Did BrowserClose RNone] /\ r = Ok tt \/
        exists e, tc = [Failed BrowserClose e] /\ r = Raised e) /\
       (clean tb = true \/
        exists tb1 c e, tb = tb1 ++ Failed c e :: error_report e /\ clean tb1 = true))).
Proof.
  unfold run, capture_pattern, with_playwright, try_finally at 1.
  rewrite run_bind. unfold launch at 1, Browser.action, perform at 1.
  destruct (raises w [] (Launch false)) as [e|] eqn:E1.
  { eexists _, _; split; [reflexivity|]. left. by exists [], (Launch false), e. }
  rewrite run_bind. unfold new_context at 1, Browser.action, perform at 1.
  match goal with
  | |- context [raises w ?h ?c] => destruct (raises w h c) as [e|] eqn:E2
  end.
  { eexists _, _; split; [reflexivity|]. left. by eexists [_], _, e. }
  rewrite run_bind. unfold new_page at 1, Browser.action, perform at 1.
  match goal with
  | |- context [raises w ?h ?c] => destruct (raises w h c) as [e|] eqn:E3
  end.
  { eexists _, _; split; [reflexivity|]. left. by eexists [_; _], _, e. }
  fold (tried w rest). unfold try_finally, try_except.
  match goal with
  | |- context [tried w rest ?h] =>
      pose proof (tried_fail_fast h) as Hb; destruct (tried w rest h) as [tb [[]|e]]
  end.
  - unfold browser_close, Browser.action, perform.
    match goal with
    | |- context [raises w ?h ?c] => destruct (raises w h c) as [e|] eqn:E4
    end; simpl; (eexists _, _; split; [reflexivity|]); right.
    + exists tb, [Failed BrowserClose e]. split; [|split; [right; eauto | by left]].
      simpl. by rewrite <- !(assoc (++)).
    + exists tb, [Did BrowserClose RNone]. split; [|split; [by left | by left]].
      simpl. by rewrite <- !(assoc (++)).
  - simpl. unfold browser_close, Browser.action, perform.
    assert (clean (tb ++ error_report e) = true \/
            exists tb1 c e0, tb ++ error_report e = tb1 ++ Failed c e0 :: error_report e0 /\
                             clean tb1 = true) as Hreport.
    { destruct Hb as [Hb|(t1 & c & -> & Hb)].
      - left. by rewrite clean_app, Hb.
      - right. exists t1, c, e. by rewrite <- (assoc (++)). }
    match goal with
    | |- context [raises w ?h ?c] => destruct (raises w h c) as [e'|] eqn:E4
    end; simpl; (eexists _, _; split; [reflexivity|]); right.
    + exists (tb ++ error_report e), [Failed BrowserClose e'].
      split; [|split; [right; eauto | done]].
      simpl. by rewrite <- !(assoc (++)).
    + exists (tb ++ error_report e), [Did BrowserClose RNone].
      split; [|split; [by left | done]].
      simpl. by rewrite <- !(assoc (++)).
Qed.

Lemma pattern_leaves_scope : leaves_scope (log_of (capture_pattern w height rest)) = true.
Proof.
  unfold log_of. destruct pattern_run as (t & r & -> & [(t1 & c & e & -> & _)|(tb & tc & -> & _)]);
    simpl; unfold leaves_scope; rewrite ?existsb_app; simpl; by rewrite ?orb_true_r.
Qed.

Lemma pattern_closes :
  page_created (log_of (capture_pattern w height rest)) = true ->
  closes (log_of (capture_pattern w height rest)) = true.
Proof.
  unfold log_of.
  destruct pattern_run as (t & r & -> & [(t1 & c & e & -> & _ & _ & Hp & _)|(tb & tc & -> & Hc & _)]);
    simpl.
  - intros H. by rewrite H in Hp.
  - intros _. unfold closes. rewrite !existsb_app.
    destruct Hc as [[-> _]|(e & -> & _)]; simpl; by rewrite ?orb_true_r.
Qed.

Lemma pattern_winds_down :
  winds_down is_teardown (log_of (capture_pattern w height rest)) = true.
Proof.
  unfold log_of.
  destruct pattern_run as (t & r & -> &
    [(t1 & c & e & -> & Ht1 & _)|(tb & tc & -> & Hc & Hb)]); simpl; unfold winds_down; simpl.
  - by rewrite first_failure_at.
  - destruct Hb as [Hb|(tb1 & c & e & -> & Hb)].
    + rewrite first_failure_clean by done.
      destruct Hc as [[-> _]|(e & -> & _)]; simpl; done.
    + rewrite <- (assoc (++)). simpl. rewrite first_failure_at by done.
      destruct Hc as [[-> _]|(e' & -> & _)]; simpl; done.
Qed.

Lemma pattern_reports :
  reports (fun c => negb (outside_try c)) error_report same_event
          (log_of (capture_pattern w height rest)) = true.
Proof.
  unfold log_of.
  destruct pattern_run as (t & r & -> &
    [(t1 & c & e & -> & Ht1 & Hc & _)|(tb & tc & -> & Hc & Hb)]); simpl; unfold reports; simpl.
  - rewrite first_failure_at by done. by rewrite Hc.
  - destruct Hb as [Hb|(tb1 & c & e & -> & Hb)].
    + rewrite first_failure_clean by done.
      destruct Hc as [[-> _]|(e & -> & _)]; simpl; done.
    + rewrite <- (assoc (++)). simpl. rewrite first_failure_at by done.
      destruct (negb (outside_try c)); [|done]. simpl.
      by rewrite !String.eqb_refl.
Qed.

(** An exception leaves the script only from the setup or from
    [browser.close()]. *)
Lemma pattern_uncaught :
  uncaught (end_of (capture_pattern w height rest)) = true ->
  failed_outside_try (log_of (capture_pattern w height rest)) = true.
Proof.
  unfold log_of, end_of.
  destruct pattern_run as (t & r & -> &
    [(t1 & c & e & -> & Ht1 & Hc & _)|(tb & tc & -> & Hc & Hb)]); simpl;
    unfold failed_outside_try; rewrite ?existsb_app; simpl.
  - intros _. by rewrite Hc, ?orb_true_r.
  - destruct Hc as [[-> ->]|(e & -> & ->)]; [done|]. intros _. simpl.
    by rewrite ?orb_true_r.
Qed.

Lemma moves_on_app t1 t2 : moves_on t1 = true -> moves_on (t1 ++ t2) = true.
Proof. by destruct t1. Qed.

(** The Skip step, whatever follows it. *)
Lemma pattern_skip :
  (forall h, moves_on (rest h).1 = true) ->
  skip_step_ok (log_of (capture_pattern w height rest)) = true.
Proof.
  intros Hmoves.
  unfold log_of, run, capture_pattern, with_playwright, try_finally, try_except.
  autounfold with api. unfold mbind, M_bind, bind, perform, mark, print, print_exc. simpl.
  do 6 (ask_world; [repeat ask_world; try done|]).
  match goal with
  | |- context [found w ?h ?s] => destruct (found w h s) as [b|]; simpl
  end.
  - ask_world.
    { repeat ask_world; unfold skip_step_ok; simpl; by rewrite ?N.eqb_refl. }
    ask_world.
    { repeat ask_world; unfold skip_step_ok; simpl; by rewrite ?N.eqb_refl. }
    match goal with
    | |- context [rest ?h] => destruct (rest h) as [tr [[]|e]]
    end; simpl; repeat ask_world; unfold skip_step_ok; simpl; by rewrite ?N.eqb_refl.
  - match goal with
    | |- context [rest ?h] => specialize (Hmoves h); destruct (rest h) as [tr [[]|e]]
    end; (destruct tr as [|ev tr]; [done|]); simpl in *;
      repeat ask_world; unfold skip_step_ok; simpl; done.
Qed.

End Pattern.

Lemma rest_moves_on s w h : moves_on (rest_of s w h).1 = true.
Proof.
  destruct s; simpl;
    unfold element_rest, gauges_rest, macro_detail_rest, macros_final_rest, diagnose_rest;
    try match goal with
        | |- context [(?m ≫= ?f) h] =>
            destruct (log_bind_prefix m f h) as [t2 ->]; apply moves_on_app
        end;
    autounfold with api; unfold perform; by ask_world.
Qed.

(** *** Events of a whole run *)

Lemma emits_log {A} (P : event -> Prop) (m : M A) : emits P m -> Forall P (log_of m).
Proof. intros H. apply H. Qed.

Lemma gotos_local t :
  Forall (calls (fun c => local_navigation c = true)) t ->
  Forall (fun g => g = local_app) (gotos t).
Proof.
  induction 1 as [|ev t Hev _ IH]; [constructor|].
  unfold gotos. simpl. fold (gotos t). unfold calls in Hev.
  destruct (call_of ev) as [[]|]; try done.
  constructor; [|done].
  repeat match goal with
         | H : local_navigation _ = true |- _ => simpl in H
         | H : match ?x with _ => _ end = true |- _ => destruct x; try done
         end.
Qed.

Lemma contexts_are o t :
  Forall (calls (context_is o)) t -> Forall (fun o' => o' = o) (contexts t).
Proof.
  induction 1 as [|ev t Hev _ IH]; [constructor|].
  unfold contexts. simpl. fold (contexts t). unfold calls in Hev.
  destruct (call_of ev) as [[]|]; try done. by constructor.
Qed.

Lemma programs_navigate_locally s w :
  emits (calls (fun c => local_navigation c = true)) (program s w).
Proof.
  rewrite programs_follow_pattern. unfold capture_pattern, with_playwright.
  destruct s; simpl;
    unfold element_rest, gauges_rest, macro_detail_rest, macros_final_rest,
      diagnose_rest, diagnose_cards.expand_card; emits_tac.
Qed.

Lemma programs_context s w :
  emits (calls (context_is (capture_options (height_of s)))) (program s w).
Proof.
  rewrite programs_follow_pattern. unfold capture_pattern, with_playwright.
  destruct s; simpl;
    unfold element_rest, gauges_rest, macro_detail_rest, macros_final_rest,
      diagnose_rest, diagnose_cards.expand_card; emits_tac.
Qed.

(** *** A page without Skip button, no failing call *)

Ltac quiet_run Hr :=
  repeat first
    [ match goal with |- context [raises ?w ?h ?c] => rewrite (Hr h c) end
    | progress simpl ].

Lemma shots_app t1 t2 : shots (t1 ++ t2) = shots t1 ++ shots t2.
Proof. apply omap_app. Qed.

Lemma pattern_skip_absent w height rest :
  (forall h c, raises w h c = None) ->
  (forall h, found w h "text=Skip" = None) ->
  exists h tail,
    skip_lookup (log_of (capture_pattern w height rest)) = Some (None, (rest h).1 ++ tail).
Proof.
  intros Hr Hskip.
  unfold log_of, run, capture_pattern, with_playwright, try_finally, try_except.
  autounfold with api. unfold mbind, M_bind, bind, perform, mark, print, print_exc.
  quiet_run Hr. rewrite Hskip. simpl.
  match goal with
  | |- context [rest ?h] => exists h; destruct (rest h) as [tr [[]|e]]
  end; quiet_run Hr; repeat rewrite <- app_assoc; eexists; reflexivity.
Qed.

Lemma diagnose_first_steps w (rem : M unit) p1 js ms p2 h :
  (forall h c, raises w h c = None) ->
  exists v t2,
    ((screenshot w p1 None;; evaluate w js;; wait_for_timeout w ms;;
      screenshot w p2 None;; rem) h).1 =
    Did (Screenshot p1 None) RNone :: Did (Evaluate js) (RStr v)
      :: Did (WaitForTimeout ms) RNone :: Did (Screenshot p2 None) RNone :: t2.
Proof.
  intros Hr. autounfold with api. unfold mbind, M_bind, bind, perform.
  quiet_run Hr.
  match goal with |- context [rem ?h] => destruct (rem h) as [tr r] end. simpl. eauto.
Qed.

Lemma rest_shots s w h :
  (forall h c, raises w h c = None) ->
  Forall (fun p => p ∈ shots (rest_of s w h).1) (unconditional_shots s).
Proof.
  intros Hr. destruct s; simpl.
  5: { unfold diagnose_rest.
       match goal with
       | |- context [(_ ;; _ ;; _ ;; _ ;; ?rem) h] =>
           destruct (diagnose_first_steps w rem
             "C:\Users\derri\HeirclarkHealthAppNew\diagnosis_01_initial.png"
             "window.scrollTo(0, 800)" 2000
             "C:\Users\derri\HeirclarkHealthAppNew\diagnosis_02_scrolled.png" h Hr)
             as (v & t2 & ->)
       end.
       simpl. repeat constructor; set_solver. }
  all: unfold element_rest, gauges_rest, macro_detail_rest, macros_final_rest;
    autounfold with api; unfold mbind, M_bind, bind, perform; quiet_run Hr.
  all: repeat match goal with
         | |- context [found ?w0 ?h ?s] => destruct (found w0 h s); quiet_run Hr
         end.
  all: repeat constructor; set_solver.
Qed.

End capture_facts.

(** ** All the browser scripts: leaving the [with] block, closing *)

Module browser_facts.
Import browser_scripts crawl_heirclark_website.

Lemma with_playwright_log {A} (body : M A) h :
  (with_playwright body h).1 = (body h).1 ++ [Did PlaywrightStop RNone].
Proof. unfold with_playwright, try_finally. by destruct (body h). Qed.

Lemma with_playwright_end {A} (body : M A) h :
  (with_playwright body h).2 = (body h).2.
Proof. unfold with_playwright, try_finally. by destruct (body h). Qed.

Lemma with_playwright_leaves {A} (body : M A) :
  leaves_scope (log_of (with_playwright body)) = true.
Proof.
  unfold log_of, run. rewrite with_playwright_log. unfold leaves_scope.
  rewrite existsb_app. simpl. by rewrite orb_true_r.
Qed.

Lemma with_playwright_returns {A} P (body : M A) :
  returns_after P body -> returns_after P (with_playwright body).
Proof.
  intros H h. specialize (H h).
  pose proof (with_playwright_log body h) as Hl. pose proof (with_playwright_end body h) as He.
  destruct (with_playwright body h) as [t r], (body h) as [tb rb]; simpl in *. subst.
  destruct rb; [|done]. by rewrite existsb_app, H.
Qed.

Ltac returns_after_tac :=
  autounfold with api;
  repeat first
    [ apply returns_after_perform; done
    | apply returns_after_later; intros ?
    | match goal with |- returns_after _ (if ?c then _ else _) => destruct c end ].

Lemma returned_closed {A} (m : M A) :
  returns_after is_close m -> uncaught (end_of m) = false -> closes (log_of m) = true.
Proof.
  intros H. unfold end_of, log_of, run. specialize (H []).
  by destruct (m []) as [t [a|e]].
Qed.

Lemma check_fonts_returns w : returns_after is_close (check_fonts.check_app_fonts w).
Proof.
  unfold check_fonts.check_app_fonts. apply with_playwright_returns. returns_after_tac.
Qed.

Lemma test_fonts_returns w : returns_after is_close (test_fonts.test_fonts w).
Proof.
  unfold test_fonts.test_fonts. apply with_playwright_returns. returns_after_tac.
Qed.

Lemma diagnostic_returns w :
  returns_after is_close (comprehensive_diagnostic.run_diagnostics w).
Proof.
  unfold comprehensive_diagnostic.run_diagnostics. apply with_playwright_returns.
  returns_after_tac.
Qed.

(** *** The crawler never lets an exception of a page escape *)

Lemma crawl_pages_total w urls st : total (crawl_pages w urls st).
Proof. unfold crawl_pages, crawl_url. total_tac. Qed.

Lemma analyze_features_total w res : total (analyze_features w res).
Proof. unfold analyze_features, feature_error. total_tac. Qed.

(** The crawler's shape: setup, a loop and an analysis that cannot
    raise, then [browser.close()]; the dump comes after the block. *)
Lemma crawler_shape_closes w o (loop : M (gset string * results))
    (analyze : results -> M results) path :
  total loop -> (forall r, total (analyze r)) ->
  let m : M results :=
    res ← with_playwright (
      launch w false;; new_context w o;; new_page w;;
      '(_, res) ← loop;
      res ← analyze res;
      browser_close w;;
      mret res);
    json_dump w path res;;
    mret res in
  page_created (log_of m) = true -> closes (log_of m) = true.
Proof.
  intros Hloop Han. simpl.
  unfold log_of, run, with_playwright, try_finally.
  autounfold with api. unfold mbind, M_bind, bind, perform, mark. simpl.
  do 3 (capture_facts.ask_world; [done|]).
  match goal with
  | |- context [loop ?h] => destruct (Hloop h) as [[v res] Hl]; destruct (loop h) as [tl rl]
  end.
  simpl in Hl. subst rl. simpl.
  match goal with
  | |- context [analyze res ?h] =>
      destruct (Han res h) as [res' Ha]; destruct (analyze res h) as [ta ra]
  end.
  simpl in Ha. subst ra. simpl.
  intros _. repeat capture_facts.ask_world; unfold closes; simpl; rewrite ?existsb_app; simpl;
    by rewrite ?orb_true_r.
Qed.

Lemma crawler_closes w :
  page_created (log_of (crawl_heirclark w)) = true ->
  closes (log_of (crawl_heirclark w)) = true.
Proof.
  apply (crawler_shape_closes w _ (crawl_pages w pages_to_visit (∅, initial_results w))
           (analyze_features w)).
  - apply crawl_pages_total.
  - apply analyze_features_total.
Qed.

Lemma crawler_leaves w : leaves_scope (log_of (crawl_heirclark w)) = true.
Proof.
  unfold crawl_heirclark, log_of, run.
  match goal with
  | |- context [(?m ≫= ?f) []] => destruct (log_bind_prefix m f []) as [t2 ->]
  end.
  rewrite with_playwright_log. unfold leaves_scope. rewrite !existsb_app. simpl.
  by rewrite ?orb_true_r.
Qed.

(** *** Leaving the block is the last thing done with the browser *)

Lemma with_playwright_scope {A} (body : M A) :
  scope_closes (log_of (with_playwright body)).
Proof.
  unfold log_of, run. rewrite with_playwright_log. by exists (body []).1, [].
Qed.

Lemma crawler_scope w : scope_closes (log_of (crawl_heirclark w)).
Proof.
  unfold crawl_heirclark, log_of, run. rewrite run_bind.
  rewrite (surjective_pairing (with_playwright _ [])).
  rewrite with_playwright_log, with_playwright_end.
  match goal with
  | |- context [(?body []).2] => destruct (body []) as [tb [res|e]]
  end; cbn [fst snd].
  - autounfold with api. unfold mbind, M_bind, bind, perform.
    capture_facts.ask_world; rewrite <- app_assoc;
      eexists tb, _; (split; [reflexivity|]); by repeat constructor.
  - by exists tb, [].
Qed.

(** In test_fonts.py [browser.close()] is a plain last statement: when
    the screenshot raises, the run ends in that exception and the call
    is never made; the block is left all the same. *)
Lemma close_skipped_after_exception :
  uncaught (end_of (test_fonts.test_fonts no_screenshot)) = true /\
  closes (log_of (test_fonts.test_fonts no_screenshot)) = false /\
  leaves_scope (log_of (test_fonts.test_fonts no_screenshot)) = true.
Proof. by vm_compute. Qed.

End browser_facts.

(** ** The crawler *)

Module crawl_facts.
Import crawl_heirclark_website crawl.

Tactic Notation "bound" hyp(H) "as" ident(t1) ident(a) ident(H1) :=
  let t2 := fresh "t" in
  apply bind_ok in H as (t1 & a & t2 & H1 & H & ->).

Tactic Notation "called" hyp(H) "as" ident(a) :=
  let t1 := fresh "t" in
  let t2 := fresh "t" in
  let H1 := fresh "Hstep" in
  apply bind_ok in H as (t1 & a & t2 & H1 & H & ->);
  apply perform_log in H1 as ->.

Ltac open_bind H :=
  let t1 := fresh "t" in
  let a := fresh "a" in
  let t2 := fresh "t" in
  let H1 := fresh "Hstep" in
  apply bind_ok in H as (t1 & a & t2 & H1 & H & ->).

Ltac open_call H :=
  let t1 := fresh "t" in
  let a := fresh "a" in
  let t2 := fresh "t" in
  let H1 := fresh "Hstep" in
  apply bind_ok in H as (t1 & a & t2 & H1 & H & ->);
  apply perform_log in H1 as ->.

(** *** One card, one button *)

Lemma card_entry_inv w c acc h t acc' :
  card_entry w c acc h = (t, Ok acc') ->
  acc' = acc \/
  exists txt cls,
    acc' = acc ++ [ElementEntry (take 200%nat (strip (ascii_ignore txt))) cls] /\
    has_text txt = true /\
    Did (InnerText c) (RStr txt) ∈ t /\
    Did (GetAttribute c "class") (ROptStr cls) ∈ t.
Proof.
  unfold card_entry, try_except. autounfold with api.
  unfold mbind, M_bind, bind, perform. simpl.
  destruct (raises w h (InnerText c)); simpl; [intros [= <- <-]; by left|].
  destruct (has_text (text_of w h c)) eqn:Htext; simpl; [|intros [= <- <-]; by left].
  match goal with
  | |- context [raises w ?h' ?c'] => destruct (raises w h' c')
  end; simpl; intros [= <- <-]; [by left|].
  right. eexists _, _. split; [done|]. split; [done|]. set_solver.
Qed.

Lemma button_entry_inv w c acc h t acc' :
  button_entry w c acc h = (t, Ok acc') ->
  acc' = acc \/
  exists txt cls,
    acc' = acc ++ [ElementEntry (strip (ascii_ignore txt)) cls] /\
    has_text txt = true /\
    Did (InnerText c) (RStr txt) ∈ t /\
    Did (GetAttribute c "class") (ROptStr cls) ∈ t.
Proof.
  unfold button_entry, try_except. autounfold with api.
  unfold mbind, M_bind, bind, perform. simpl.
  destruct (raises w h (InnerText c)); simpl; [intros [= <- <-]; by left|].
  destruct (has_text (text_of w h c)) eqn:Htext; simpl; [|intros [= <- <-]; by left].
  match goal with
  | |- context [raises w ?h' ?c'] => destruct (raises w h' c')
  end; simpl; intros [= <- <-]; [by left|].
  right. eexists _, _. split; [done|]. split; [done|]. set_solver.
Qed.

(** *** The four loops *)

Section Loops.
Variable w : world.

Lemma reads_app cleaned cs1 t1 es1 cs2 t2 es2 :
  reads cleaned cs1 t1 es1 -> reads cleaned cs2 t2 es2 ->
  reads cleaned (cs1 ++ cs2) (t1 ++ t2) (es1 ++ es2).
Proof. induction 1; intros H2; simpl; [done|by constructor; auto..]. Qed.

(** One round of the loop over the cards, in full. *)
Lemma card_entry_run c acc h :
  exists t es, card_entry w c acc h = (t, Ok (acc ++ es)) /\ reads card_text [c] t es.
Proof.
  unfold card_entry, try_except. autounfold with api.
  unfold mbind, M_bind, bind, perform. simpl.
  destruct (raises w h (InnerText c)); simpl.
  { eexists _, []. rewrite app_nil_r. split; [done|]. repeat constructor. }
  destruct (has_text (text_of w h c)) eqn:Htext; simpl.
  - match goal with
    | |- context [raises w ?h' ?c'] => destruct (raises w h' c')
    end; simpl.
    + eexists _, []. rewrite app_nil_r. split; [done|]. by repeat constructor.
    + eexists _, [_]. split; [done|].
      by apply (reads_entry card_text c [] (text_of w h c) _ [] []); [|constructor].
  - eexists _, []. rewrite app_nil_r. split; [done|]. by repeat constructor.
Qed.

Lemma button_entry_run c acc h :
  exists t es, button_entry w c acc h = (t, Ok (acc ++ es)) /\ reads button_text [c] t es.
Proof.
  unfold button_entry, try_except. autounfold with api.
  unfold mbind, M_bind, bind, perform. simpl.
  destruct (raises w h (InnerText c)); simpl.
  { eexists _, []. rewrite app_nil_r. split; [done|]. repeat constructor. }
  destruct (has_text (text_of w h c)) eqn:Htext; simpl.
  - match goal with
    | |- context [raises w ?h' ?c'] => destruct (raises w h' c')
    end; simpl.
    + eexists _, []. rewrite app_nil_r. split; [done|]. by repeat constructor.
    + eexists _, [_]. split; [done|].
      by apply (reads_entry button_text c [] (text_of w h c) _ [] []); [|constructor].
  - eexists _, []. rewrite app_nil_r. split; [done|]. by repeat constructor.
Qed.

(** A loop whose rounds read one element each reads them all, in
    order; it never raises. *)
Lemma elements_loop cleaned
    (entry : handle -> list element_entry -> M (list element_entry)) :
  (forall c acc h, exists t es,
      entry c acc h = (t, Ok (acc ++ es)) /\ reads cleaned [c] t es) ->
  forall cs acc h, exists t es,
    fold_each cs entry acc h = (t, Ok (acc ++ es)) /\ reads cleaned cs t es.
Proof.
  intros Hentry cs. induction cs as [|c cs IH]; intros acc h.
  - exists [], []. rewrite app_nil_r. split; [done|constructor].
  - cbn [fold_each]. change (bind ?m ?f) with (m ≫= f). rewrite run_bind.
    destruct (Hentry c acc h) as (t1 & es1 & -> & H1).
    destruct (IH (acc ++ es1) (h ++ t1)) as (t2 & es2 & -> & H2).
    exists (t1 ++ t2), (es1 ++ es2). rewrite <- app_assoc. split; [done|].
    by apply (reads_app cleaned [c]).
Qed.

Lemma cards_loop cs acc h t l :
  fold_each cs (card_entry w) acc h = (t, Ok l) ->
  exists es, l = acc ++ es /\ reads card_text cs t es.
Proof.
  destruct (elements_loop card_text (card_entry w) card_entry_run cs acc h)
    as (t' & es & -> & Hes).
  intros [= <- <-]. by exists es.
Qed.

Lemma buttons_loop cs acc h t l :
  fold_each cs (button_entry w) acc h = (t, Ok l) ->
  exists es, l = acc ++ es /\ reads button_text cs t es.
Proof.
  destruct (elements_loop button_text (button_entry w) button_entry_run cs acc h)
    as (t' & es & -> & Hes).
  intros [= <- <-]. by exists es.
Qed.

Lemma forms_loop inputs : forall acc h t l,
  fold_each inputs (input_entry w) acc h = (t, Ok l) ->
  exists fs, l = acc ++ fs /\ reads_forms inputs t fs.
Proof.
  induction inputs as [|inp inputs IH]; intros acc h t l H; simpl in H.
  - apply (ret_ok (C:=call) (R:=reply)) in H as [-> ->]. exists []. rewrite app_nil_r.
    split; [done|constructor].
  - change (bind ?m ?f) with (m ≫= f) in H. open_bind H.
    apply IH in H as (fs & -> & Hfs).
    unfold input_entry in Hstep. do 3 open_call Hstep. apply ret_ok in Hstep as [-> ->].
    eexists (_ :: fs). split; [by rewrite <- app_assoc|]. simpl. by constructor.
Qed.

Lemma modals_loop modals : forall acc h t l,
  fold_each modals (modal_visibility w) acc h = (t, Ok l) ->
  exists ms, l = acc ++ ms /\ reads_modals modals t ms.
Proof.
  induction modals as [|m modals IH]; intros acc h t l H; simpl in H.
  - apply (ret_ok (C:=call) (R:=reply)) in H as [-> ->]. exists []. rewrite app_nil_r.
    split; [done|constructor].
  - change (bind ?m ?f) with (m ≫= f) in H. open_bind H.
    apply IH in H as (ms & -> & Hms).
    unfold modal_visibility in Hstep. do 2 open_call Hstep. apply ret_ok in Hstep as [-> ->].
    eexists (_ :: ms). split; [by rewrite <- app_assoc|]. simpl. by constructor.
Qed.

End Loops.

(** *** One visit *)

Lemma emitted {A} (P : event -> Prop) (m : M A) h t r :
  emits P m -> m h = (t, r) -> Forall P t.
Proof. intros H Hm. specialize (H h). by rewrite Hm in H. Qed.

(** A visit that returns has dumped what it found. *)
Lemma visit_dumps w u h t pd :
  visit_page w u h = (t, Ok pd) -> pd_url pd = u /\ dumps t pd.
Proof.
  unfold visit_page. intros H.
  do 2 open_call H. called H as page_title. open_call H.
  called H as cards.
  bound H as tc card_list Hcards.
  called H as buttons.
  bound H as tb button_list Hbuttons.
  called H as inputs.
  bound H as tf form_list Hforms.
  called H as modals.
  bound H as tm modal_list Hmodals.
  bound H as t1 comps1 H1. bound H as t2 comps2 H2. bound H as t3 comps3 H3.
  apply ret_ok in H as [-> ->]. simpl. split; [done|].
  apply cards_loop in Hcards as (cs & -> & Hcards).
  apply buttons_loop in Hbuttons as (bs & -> & Hbuttons).
  apply forms_loop in Hforms as (fs & -> & Hforms).
  apply modals_loop in Hmodals as (ms & -> & Hmodals).
  exists cards, tc, buttons, tb, inputs, tf, modals, tm, (t1 ++ t2 ++ t3 ++ []).
  simpl. by rewrite <- ?app_assoc.
Qed.

Lemma navigations_app t1 t2 : navigations (t1 ++ t2) = navigations t1 ++ navigations t2.
Proof. apply omap_app. Qed.

Lemma navigations_none t :
  Forall (calls (fun c => is_goto c = false)) t -> navigations t = [].
Proof.
  induction 1 as [|ev t Hev _ IH]; [done|].
  change (ev :: t) with ([ev] ++ t). rewrite navigations_app, IH.
  unfold navigations, calls in *. simpl. by destruct (call_of ev) as [[]|].
Qed.

Lemma navigations_after_goto {A} w u wu tm (f : unit -> M A) h :
  (forall a, emits (calls (fun c => is_goto c = false)) (f a)) ->
  navigations ((goto w u wu tm ≫= f) h).1 = [u].
Proof.
  intros Hf. rewrite run_bind. unfold goto, Browser.action, perform.
  destruct (raises w h (Goto u wu tm)); [done|].
  specialize (Hf tt (h ++ [Did (Goto u wu tm) RNone])).
  destruct (f tt _) as [t2 r]. simpl in Hf. cbn [fst].
  by rewrite navigations_app, (navigations_none t2 Hf).
Qed.

(** A visit navigates once, to its URL. *)
Lemma visit_navigations w u h : navigations (visit_page w u h).1 = [u].
Proof.
  unfold visit_page. apply navigations_after_goto. intros _.
  unfold card_entry, button_entry, input_entry, modal_visibility, test_log_meal,
    test_date_selector, test_sync. emits_tac.
Qed.

(** *** The loop *)

Lemma happened_later w h t0 t v :
  happened w (h ++ t0) t v -> happened w h (t0 ++ t) v.
Proof.
  intros [Hv (mid & rest & Hb & ->)]. split; [done|].
  exists (t0 ++ mid), rest. split; [by rewrite Hb, app_assoc|by rewrite <- app_assoc].
Qed.

Lemma crawl_url_run w u seen res h :
  crawl_url w u (seen, res) h =
  if decide (u ∈ seen) then ([], Ok (seen, res))
  else match visit_page w u h with
       | (tv, Ok pd) => (tv, Ok ({[u]} ∪ seen, add_page pd res))
       | (tv, Raised e) => (tv ++ [page_error u e], Ok ({[u]} ∪ seen, add_error u e res))
       end.
Proof.
  unfold crawl_url. destruct (decide (u ∈ seen)); [done|].
  unfold try_except. rewrite run_bind.
  destruct (visit_page w u h) as [tv [pd|e]]; simpl; by rewrite ?app_nil_r.
Qed.

Lemma crawl_pages_spec w urls : forall earlier seen res h,
  seen = list_to_set earlier ->
  exists t seen' res' vs,
    crawl_pages w urls (seen, res) h = (t, Ok (seen', res')) /\
    seen' = seen ∪ list_to_set urls /\
    v_url <$> vs = first_occurrences earlier urls /\
    navigations t = first_occurrences earlier urls /\
    Forall (happened w h t) vs /\
    pages res' = pages res ++ omap page_of vs /\
    errors res' = errors res ++ omap error_of vs /\
    crawl_date res' = crawl_date res /\ base_url res' = base_url res /\
    features res' = features res /\ components res' = components res.
Proof.
  unfold crawl_pages.
  induction urls as [|u urls IH]; intros earlier seen res h Hseen.
  - exists [], seen, res, []. simpl. rewrite !app_nil_r. split_and!; try done. set_solver.
  - cbn [fold_each]. change (bind ?m ?f) with (m ≫= f). rewrite run_bind, crawl_url_run.
    simpl first_occurrences.
    destruct (decide (u ∈ seen)) as [Hin|Hout].
    + destruct (decide (u ∈ earlier)) as [_|Hn]; [|set_solver].
      destruct (IH earlier seen res (h ++ []) Hseen)
        as (t & seen' & res' & vs & Heq & -> & Hu & Hn & Hv & Hp & He & Hd & Hb & Hf & Hc).
      rewrite Heq. simpl.
      exists t, (seen ∪ list_to_set (u :: urls)), res', vs.
      split_and!; try done.
      * f_equal. f_equal. f_equal. set_solver.
      * by rewrite app_nil_r in Hv.
    + destruct (decide (u ∈ earlier)) as [Hn|_]; [set_solver|].
      assert ({[u]} ∪ seen = list_to_set (earlier ++ [u])) as Hseen' by set_solver.
      pose proof (visit_navigations w u h) as Hnav.
      destruct (visit_page w u h) as [tv [pd|e]] eqn:Hvisit; simpl in Hnav.
      * destruct (IH (earlier ++ [u]) ({[u]} ∪ seen) (add_page pd res) (h ++ tv) Hseen')
          as (t & seen' & res' & vs & Heq & -> & Hu & Hn & Hv & Hp & He & Hd & Hb & Hf & Hc).
        rewrite Heq.
        exists (tv ++ t), (seen ∪ list_to_set (u :: urls)), res', (Visit u h tv (Ok pd) :: vs).
        split_and!; try done.
        -- f_equal. f_equal. f_equal. set_solver.
        -- csimpl. by rewrite Hu.
        -- by rewrite navigations_app, Hnav, Hn.
        -- constructor.
           ++ split; [done|]. exists [], t. by rewrite app_nil_r.
           ++ eapply Forall_impl; [exact Hv|]. intros v. apply happened_later.
        -- rewrite Hp. simpl. by rewrite <- (assoc_L (++)).
      * destruct (IH (earlier ++ [u]) ({[u]} ∪ seen) (add_error u e res)
                     (h ++ tv ++ [page_error u e]) Hseen')
          as (t & seen' & res' & vs & Heq & -> & Hu & Hn & Hv & Hp & He & Hd & Hb & Hf & Hc).
        rewrite Heq.
        exists ((tv ++ [page_error u e]) ++ t), (seen ∪ list_to_set (u :: urls)), res',
          (Visit u h tv (Raised e) :: vs).
        split_and!; try done.
        -- f_equal. f_equal. f_equal. set_solver.
        -- csimpl. by rewrite Hu.
        -- by rewrite !navigations_app, Hnav, Hn.
        -- constructor.
           ++ split; [done|]. exists [], ([page_error u e] ++ t). simpl.
              split; [by rewrite app_nil_r|by rewrite <- app_assoc].
           ++ eapply Forall_impl; [exact Hv|]. intros v Hh.
              by apply happened_later.
        -- rewrite He. simpl. by rewrite <- (assoc_L (++)).
Qed.

(** *** First occurrences, counting *)

Lemma first_occurrences_elem urls : forall earlier x,
  x ∈ first_occurrences earlier urls <-> x ∈ urls /\ x ∉ earlier.
Proof.
  induction urls as [|u urls IH]; intros earlier x; simpl; [set_solver|].
  destruct (decide (u ∈ earlier)).
  - rewrite IH. set_solver.
  - rewrite elem_of_cons, IH. destruct (decide (x = u)); set_solver.
Qed.

Lemma first_occurrences_nodup urls : forall earlier, NoDup (first_occurrences earlier urls).
Proof.
  induction urls as [|u urls IH]; intros earlier; simpl; [constructor|].
  destruct (decide (u ∈ earlier)); [apply IH|].
  constructor; [|apply IH]. rewrite first_occurrences_elem. set_solver.
Qed.

Lemma first_occurrences_size (urls : list string) :
  size (list_to_set urls : gset string) = length (first_occurrences [] urls).
Proof.
  rewrite <- (size_list_to_set (C:=gset string)) by apply first_occurrences_nodup.
  f_equal. apply set_eq. intros x.
  rewrite !elem_of_list_to_set, first_occurrences_elem. set_solver.
Qed.

Lemma occurrences_cons u x l :
  occurrences u (x :: l) = ((if decide (x = u) then 1 else 0) + occurrences u l)%nat.
Proof. unfold occurrences. rewrite filter_cons. by destruct (decide (x = u)). Qed.

Lemma occurrences_none u l : u ∉ l -> occurrences u l = 0%nat.
Proof.
  induction l as [|x l IH]; [done|]. rewrite occurrences_cons, not_elem_of_cons.
  intros [Hne Hl]. rewrite IH by done. by destruct (decide (x = u)).
Qed.

Lemma occurrences_once u l : NoDup l -> u ∈ l -> occurrences u l = 1%nat.
Proof.
  induction 1 as [|x l Hx Hl IH]; [by intros ?%elem_of_nil|].
  rewrite occurrences_cons, elem_of_cons. destruct (decide (x = u)) as [->|Hne].
  - intros _. by rewrite occurrences_none.
  - intros [?|Hin]; [done|]. by rewrite IH.
Qed.

(** Each visit leaves one entry: a page under its URL, or an error
    under its URL. *)
Lemma entries_count w h t u vs :
  Forall (happened w h t) vs ->
  (occurrences u (pd_url <$> omap page_of vs) +
   occurrences u (er_url <$> omap error_of vs))%nat = occurrences u (v_url <$> vs).
Proof.
  induction 1 as [|v vs [Hv _] _ IH]; [done|].
  destruct v as [url before vlog [pd|e]]; unfold page_of, error_of in *; csimpl in *.
  - apply visit_dumps in Hv as [-> _]. rewrite !occurrences_cons. lia.
  - rewrite !occurrences_cons. simpl. lia.
Qed.

Lemma entries_length vs :
  (length (omap page_of vs) + length (omap error_of vs))%nat = length vs.
Proof.
  induction vs as [|[url before vlog [pd|e]] vs IH]; [done|..];
    unfold page_of, error_of in *; csimpl; lia.
Qed.

(** *** The whole script *)

Lemma check_features_navigates w urls fs : forall acc,
  emits (calls (navigates_within urls)) (check_features w fs acc).
Proof.
  induction fs as [|[name text] fs IH]; intros acc; simpl.
  - apply (emits_ret _ (acc, None)).
  - apply emits_bind; [emits_tac|]. intros [present|e]; [apply IH|].
    apply (emits_ret _ (acc, Some e)).
Qed.

(** The analysis leaves pages and errors as the loop built them. *)
Lemma analyze_features_keeps w res h t res' :
  analyze_features w res h = (t, Ok res') ->
  pages res' = pages res /\ errors res' = errors res.
Proof.
  unfold analyze_features, try_except.
  match goal with
  | |- (let (_, _) := ?body h in _) = _ -> _ => destruct (body h) as [tb [r|e]] eqn:Hbody
  | |- match ?body h with _ => _ end = _ -> _ => destruct (body h) as [tb [r|e]] eqn:Hbody
  end.
  - intros [= <- <-]. do 2 open_call Hbody. bound Hbody as tc r0 Hcheck.
    destruct r0 as [fs interrupted]. open_bind Hbody. by apply ret_ok in Hbody as [-> ->].
  - unfold feature_error. simpl. by intros [= <- <-].
Qed.

(** How a run of the script that returns went: the setup, the loop, the
    analysis, [browser.close()], the exit from the block, the dump of
    what is returned. *)
Lemma crawler_shape_end w o (loop : M (gset string * results))
    (analyze : results -> M results) path res :
  let m : M results :=
    r ← with_playwright (
      launch w false;; new_context w o;; new_page w;;
      '(_, r) ← loop;
      r ← analyze r;
      browser_close w;;
      mret r);
    json_dump w path r;;
    mret r in
  let setup := [Did (Launch false) RNone; Did (NewContext o) RNone; Did NewPage RNone] in
  end_of m = Ok res ->
  exists tl seen res_l ta,
    loop setup = (tl, Ok (seen, res_l)) /\
    analyze res_l (setup ++ tl) = (ta, Ok res) /\
    Did (JsonDump path res) RNone ∈ log_of m.
Proof.
  simpl. unfold end_of, log_of, run, with_playwright, try_finally.
  autounfold with api. unfold mbind, M_bind, bind, perform, mark. simpl.
  do 3 (capture_facts.ask_world; [done|]).
  destruct (loop _) as [tl [[seen res_l]|e]] eqn:Hloop; simpl; [|done].
  destruct (analyze res_l _) as [ta [r|e]] eqn:Han; simpl; [|done].
  capture_facts.ask_world; [done|]. capture_facts.ask_world; [done|].
  intros [= <-]. exists tl, seen, res_l, ta. split; [done|]. split; [done|].
  repeat first [apply list_elem_of_here | apply list_elem_of_further
               | apply elem_of_app; right].
Qed.

Lemma crawler_end w res :
  end_of (crawl_heirclark w) = Ok res ->
  exists tl seen res_l,
    crawl_loop w pages_to_visit crawler_setup = (tl, Ok (seen, res_l)) /\
    pages res = pages res_l /\ errors res = errors res_l /\
    Did (JsonDump "website_crawl_results.json" res) RNone ∈ log_of (crawl_heirclark w).
Proof.
  intros H.
  apply (crawler_shape_end w _ (crawl_pages w pages_to_visit (∅, initial_results w))
           (analyze_features w)) in H as (tl & seen & res_l & ta & Hl & Ha & Hd).
  apply analyze_features_keeps in Ha as [Hp He].
  by exists tl, seen, res_l.
Qed.

(** *** The navigations of the whole script *)

Lemma check_features_no_goto w fs acc :
  emits (calls (fun c => is_goto c = false)) (check_features w fs acc).
Proof.
  intros h. eapply Forall_impl; [apply (check_features_navigates w [] fs acc h)|].
  intros ev. unfold calls. destruct (call_of ev) as [[]|]; try done.
  simpl. by intros ?%elem_of_nil.
Qed.

(** The analysis navigates once, to the calorie counter. *)
Lemma analyze_navigations w res h :
  navigations (analyze_features w res h).1 = [calorie_counter].
Proof.
  unfold analyze_features, try_except.
  match goal with
  | |- context [(goto w ?u ?wu ?tm ≫= ?f) h] =>
      assert (navigations ((goto w u wu tm ≫= f) h).1 = [u]) as Hnav;
      [|destruct ((goto w u wu tm ≫= f) h) as [tb [r|e]]]
  end.
  - apply navigations_after_goto. intros _. apply emits_bind; [emits_tac|intros _].
    apply emits_bind; [apply check_features_no_goto|intros [fs [e|]]];
      unfold feature_error; emits_tac.
  - exact Hnav.
  - cbn [fst] in Hnav. unfold feature_error, print, mbind, M_bind, bind, mret, M_ret, ret.
    cbn [fst]. by rewrite navigations_app, Hnav.
Qed.

Lemma crawler_shape_navigations w o (loop : M (gset string * results))
    (analyze : results -> M results) path L A :
  total loop -> (forall r, total (analyze r)) ->
  (forall h, navigations (loop h).1 = L) ->
  (forall r h, navigations (analyze r h).1 = A) ->
  let m : M results :=
    res ← with_playwright (
      launch w false;; new_context w o;; new_page w;;
      '(_, res) ← loop;
      res ← analyze res;
      browser_close w;;
      mret res);
    json_dump w path res;;
    mret res in
  navigations (log_of m) = if page_created (log_of m) then L ++ A else [].
Proof.
  intros Hloop Han HL HA. simpl.
  unfold log_of, run, with_playwright, try_finally.
  autounfold with api. unfold mbind, M_bind, bind, perform, mark. simpl.
  do 3 (capture_facts.ask_world; [done|]).
  match goal with
  | |- context [loop ?h] =>
      destruct (Hloop h) as [[v res] Hl]; specialize (HL h); destruct (loop h) as [tl rl]
  end.
  simpl in Hl, HL. subst rl. simpl.
  match goal with
  | |- context [analyze res ?h] =>
      destruct (Han res h) as [res' Ha]; specialize (HA res h);
      destruct (analyze res h) as [ta ra]
  end.
  simpl in Ha, HA. subst ra. simpl.
  repeat capture_facts.ask_world; unfold page_created; simpl;
    rewrite ?navigations_app, HL, HA; simpl; by rewrite ?app_nil_r.
Qed.

(** *** The loop, from the empty set of visited pages *)

Lemma loop_run w urls h :
  exists t res vs,
    crawl_loop w urls h = (t, Ok (list_to_set urls, res)) /\
    navigations t = first_occurrences [] urls /\
    v_url <$> vs = first_occurrences [] urls /\
    Forall (happened w h t) vs /\
    pages res = omap page_of vs /\
    errors res = omap error_of vs.
Proof.
  unfold crawl_loop.
  destruct (crawl_pages_spec w urls [] ∅ (initial_results w) h)
    as (t & seen' & res & vs & Heq & -> & Hu & Hn & Hv & Hp & He & _); [done|].
  exists t, res, vs. rewrite Heq. split_and!; try done.
  f_equal. f_equal. f_equal. set_solver.
Qed.

Lemma loop_entries w urls h :
  exists seen res vs,
    (crawl_loop w urls h).2 = Ok (seen, res) /\
    v_url <$> vs = first_occurrences [] urls /\
    Forall (happened w h (crawl_loop w urls h).1) vs /\
    pages res = omap page_of vs /\
    errors res = omap error_of vs /\
    Forall (fun u => (occurrences u (pd_url <$> pages res) +
                      occurrences u (er_url <$> errors res))%nat = 1%nat) urls /\
    (length (pages res) + length (errors res))%nat = size (list_to_set urls : gset string).
Proof.
  destruct (loop_run w urls h) as (t & res & vs & -> & Hn & Hu & Hv & Hp & He).
  exists (list_to_set urls), res, vs. simpl. split_and!; try done.
  - apply Forall_forall. intros u Hin. rewrite Hp, He, (entries_count w h t u vs Hv), Hu.
    apply occurrences_once; [apply first_occurrences_nodup|].
    apply first_occurrences_elem. set_solver.
  - rewrite Hp, He, entries_length, first_occurrences_size, <- Hu. by rewrite length_fmap.
Qed.

(** Once the page is created the script navigates to the URLs of its
    list and then, for the analysis, to the calorie counter again. *)
Lemma crawler_navigations w :
  navigations (log_of (crawl_heirclark w)) =
  if page_created (log_of (crawl_heirclark w))
  then pages_to_visit ++ [calorie_counter] else [].
Proof.
  apply (crawler_shape_navigations w _ (crawl_pages w pages_to_visit (∅, initial_results w))
           (analyze_features w)).
  - apply browser_facts.crawl_pages_total.
  - apply browser_facts.analyze_features_total.
  - intros h. destruct (loop_run w pages_to_visit h) as (t & res & vs & Heq & Hn & _).
    unfold crawl_loop in Heq. by rewrite Heq.
  - apply analyze_navigations.
Qed.

End crawl_facts.

(** ** The icon scripts *)

Module icon_facts.
Import Img IconLog IconInv.


Lemma written_app t1 t2 : written (t1 ++ t2) = written t1 ++ written t2.
Proof. apply omap_app. Qed.

Lemma files_after_app t1 t2 fs :
  files_after (t1 ++ t2) fs = files_after t2 (files_after t1 fs).
Proof. apply foldl_app. Qed.

Lemma insert_icon (m : gmap string file) paths p f :
  Forall (fun q => exists g, m !! q = Some g /\ is_icon g) paths -> is_icon f ->
  Forall (fun q => exists g, <[p := f]> m !! q = Some g /\ is_icon g) (paths ++ [p]).
Proof.
  intros Hm Hf. apply Forall_app. split.
  - eapply Forall_impl; [exact Hm|]. intros q (g & Hq & Hg).
    destruct (decide (p = q)) as [->|Hne].
    + exists f. by rewrite lookup_insert_eq.
    + exists g. by rewrite lookup_insert_ne.
  - repeat constructor. exists f. by rewrite lookup_insert_eq.
Qed.

Lemma icons_nil : icons [].
Proof. intros fs. constructor. Qed.

Lemma icons_step h ev : icons h -> good_write h ev -> icons (h ++ [ev]).
Proof.
  intros Hh Hev fs. specialize (Hh fs). unfold icon_at in *.
  assert (Hkeep : step (files_after h fs) ev = files_after h fs -> written [ev] = [] ->
                  Forall (fun path => exists f, files_after (h ++ [ev]) fs !! path = Some f
                                                /\ is_icon f) (written (h ++ [ev]))).
  { intros Hs Hw. rewrite written_app, Hw, app_nil_r, files_after_app. simpl. by rewrite Hs. }
  destruct ev as [c r|c e|s|e]; try by apply Hkeep.
  rewrite written_app, files_after_app.
  destruct c; try (by rewrite <- written_app, <- files_after_app; apply Hkeep); simpl in *.
  - destruct Hev as [-> Hsize]. by apply insert_icon.
  - destruct Hev as [-> ->]. by apply insert_icon.
  - destruct (inkscape_export argv) as [[p f]|]; simpl.
    + by apply insert_icon.
    + by rewrite app_nil_r.
  - apply (proj1 (Forall_forall _ _) Hh) in Hev as (f & Hf & Hicon).
    rewrite Hf. by apply insert_icon.
Qed.

Lemma icons_log t : forall h, icons h -> good_log h t -> icons (h ++ t).
Proof.
  induction t as [|ev t IH]; intros h Hh Ht.
  - by rewrite app_nil_r.
  - inversion Ht as [|? ? ? Hev Hrest]; subst.
    rewrite (cons_middle ev), app_assoc. apply IH; [by apply icons_step|done].
Qed.

Lemma good_log_app h t1 t2 :
  good_log h t1 -> good_log (h ++ t1) t2 -> good_log h (t1 ++ t2).
Proof.
  intros H1. revert t2. induction H1 as [h|h ev t Hev Ht IH]; intros t2 H2; simpl.
  - by rewrite app_nil_r in H2.
  - constructor; [done|]. apply IH. by rewrite <- app_assoc.
Qed.

Lemma writes_icons_bind {A B} (m : M A) (f : A -> M B) :
  writes_icons m -> (forall a, writes_icons (f a)) -> writes_icons (m ≫= f).
Proof.
  intros Hm Hf h. rewrite Rules.run_bind. specialize (Hm h).
  destruct (m h) as [t1 [a|e]]; simpl in *; [|done].
  specialize (Hf a (h ++ t1)). destruct (f a (h ++ t1)) as [t2 r]; simpl in *.
  by apply good_log_app.
Qed.

Lemma writes_icons_ret {A} (a : A) : writes_icons (mret a : M A).
Proof. intros h. constructor. Qed.

(** The log of a whole run writes icons only. *)
Lemma writes_icons_run {A} (m : M A) : writes_icons m -> icons (log_of m).
Proof. intros H. apply (icons_log _ []); [apply icons_nil|apply H]. Qed.


(** *** Command lines *)

Lemma strip_prefix_Some p : forall s r, strip_prefix p s = Some r -> s = p +:+ r.
Proof.
  induction p as [|a p IH]; intros s r; simpl.
  - by intros [= ->].
  - destruct s as [|b s]; [done|]. destruct (Ascii.eqb a b) eqn:E; [|done].
    apply Ascii.eqb_eq in E as ->. intros H. by rewrite (IH _ _ H).
Qed.

Lemma option_value_cons name a rest :
  option_value name (a :: rest) =
  match strip_prefix name a with
  | Some r => Some r
  | None => option_value name rest
  end.
Proof.
  unfold option_value. cbn [list_find].
  destruct (strip_prefix name a) as [r|] eqn:E.
  - rewrite decide_True by eauto. simpl. by rewrite E.
  - rewrite decide_False by (by intros [? [=]]).
    by destruct (list_find _ rest) as [[i b]|].
Qed.

(** [pip install] exports nothing, whatever the interpreter is called. *)
Lemma pip_no_export (py : string) :
  inkscape_export [py; "-m"; "pip"; "install"; "cairosvg"] = None.
Proof.
  unfold inkscape_export. rewrite !(option_value_cons _ py).
  destruct (strip_prefix "--export-filename=" py) as [r|] eqn:E.
  - apply strip_prefix_Some in E as ->. by vm_compute.
  - by vm_compute.
Qed.

Ltac ask w :=
  repeat match goal with
         | |- context [raises w ?h ?c] => destruct (raises w h c); simpl
         | |- context [exists_at w ?h ?p] => destruct (exists_at w h p); simpl
         end.

Ltac good_log_tac :=
  repeat lazymatch goal with
         | |- good_log _ [] => constructor
         | |- good_log _ (_ :: _) => constructor; [simpl; try done|]
         end.

Ltac open_script :=
  autounfold with api; unfold try_except, mbind, M_bind, bind, perform, item, print, mret, M_ret, ret;
  simpl.

Lemma app_writes_icons w : writes_icons (process_app_icon.main w).
Proof.
  intros h. unfold process_app_icon.main, process_app_icon.to_rgb. open_script.
  destruct (raises w h _); simpl; [good_log_tac|].
  destruct (im_size _) as [width height].
  unfold split_image, band_names.
  destruct (String.eqb _ "RGBA") eqn:Hrgba; simpl;
    [|destruct (String.eqb _ "RGB") eqn:Hrgb; simpl]; ask w; good_log_tac.
Qed.

Lemma method1_writes_icons w : writes_icons (process_svg_icon.method1 w).
Proof.
  intros h. unfold process_svg_icon.method1. open_script. ask w;
  try match goal with |- context [exn_kind ?e] => destruct (exn_kind e); simpl end;
  good_log_tac.
Qed.


Lemma method2_writes_icons w : writes_icons (process_svg_icon.method2 w).
Proof.
  intros h. unfold process_svg_icon.method2. open_script. ask w; good_log_tac.
Qed.

Lemma method3_writes_icons w : writes_icons (process_svg_icon.method3 w).
Proof.
  intros h. unfold process_svg_icon.method3, process_svg_icon.inkscape_paths.
  cbn [process_svg_icon.find_inkscape]. open_script. ask w; good_log_tac.
  all: rewrite !written_app, !elem_of_app; simpl.
  all: set_solver.
Qed.


Lemma method4_writes_icons w : writes_icons (process_svg_icon.method4 w).
Proof.
  intros h. unfold process_svg_icon.method4. open_script.
  ask w; good_log_tac; by rewrite pip_no_export.
Qed.

Lemma convert_svg_writes_icons w : writes_icons (process_svg_icon.convert_svg w).
Proof.
  unfold process_svg_icon.convert_svg.
  apply writes_icons_bind; [apply method1_writes_icons|intros [|]].
  all: apply writes_icons_bind;
    [first [apply writes_icons_ret|apply method2_writes_icons]|intros [|]].
  all: apply writes_icons_bind;
    [first [apply writes_icons_ret|apply method3_writes_icons]|intros [|]].
  all: first [apply writes_icons_ret|apply method4_writes_icons].
Qed.

(** *** The outputs of a stage that answers [True] *)

Ltac delivers_tac := simpl; try done; unfold svg_outputs; set_solver.

Lemma method1_delivers w : delivers svg_outputs (process_svg_icon.method1 w).
Proof.
  intros h. unfold process_svg_icon.method1. open_script. ask w;
  try match goal with |- context [exn_kind ?e] => destruct (exn_kind e); simpl end;
  delivers_tac.
Qed.

Lemma method2_delivers w : delivers svg_outputs (process_svg_icon.method2 w).
Proof.
  intros h. unfold process_svg_icon.method2. open_script. ask w; delivers_tac.
Qed.

Lemma method3_delivers w : delivers svg_outputs (process_svg_icon.method3 w).
Proof.
  intros h. unfold process_svg_icon.method3, process_svg_icon.inkscape_paths.
  cbn [process_svg_icon.find_inkscape]. open_script. ask w; delivers_tac.
Qed.

Lemma method4_delivers w : delivers svg_outputs (process_svg_icon.method4 w).
Proof.
  intros h. unfold process_svg_icon.method4. open_script. ask w; try done.
  simpl. rewrite pip_no_export. delivers_tac.
Qed.

(** [if not conversion_success: next stage]: a stage that succeeded
    is final, a stage that failed hands over to the rest. *)
Lemma delivers_bind outputs (m : M bool) (rest : bool -> M bool) :
  delivers outputs m -> delivers outputs (rest false) ->
  (forall h, rest true h = ([], Ok true)) ->
  delivers outputs (m ≫= rest).
Proof.
  intros Hm Hrest Hdone h. rewrite Rules.run_bind. specialize (Hm h).
  destruct (m h) as [t1 [[|]|e]]; simpl in *; [|clear Hdone|done].
  - rewrite Hdone. by rewrite app_nil_r.
  - specialize (Hrest (h ++ t1)). destruct (rest false (h ++ t1)) as [t2 [[|]|e]]; [|done..].
    rewrite written_app. set_solver.
Qed.

Lemma convert_svg_delivers w : delivers svg_outputs (process_svg_icon.convert_svg w).
Proof.
  unfold process_svg_icon.convert_svg.
  apply delivers_bind; [apply method1_delivers| |done].
  apply delivers_bind; [apply method2_delivers| |done].
  apply delivers_bind; [apply method3_delivers| |done].
  apply method4_delivers.
Qed.


(** *** process_app_icon.py *)


Lemma app_saves (w : world) :
  Forall (fun x => x.1.1 ∈ app_outputs /\ x.1.2 = "PNG" /\
                   im_size x.2 = (1024, 1024) /\ im_mode x.2 = "RGB" /\
                   exists box, im_pixels x.2 =
                     Resized (1024, 1024) "LANCZOS"
                       (Cropped box (without_alpha (opened w [] process_app_icon.input_path))))
         (saved (log_of (process_app_icon.main w))).
Proof.
  unfold log_of, run, process_app_icon.main, process_app_icon.to_rgb.
  autounfold with api. unfold mbind, M_bind, bind, perform, item.
  simpl.
  destruct (raises w [] _); simpl; [constructor|].
  set (src := opened w [] process_app_icon.input_path).
  destruct (im_size src) as [width height] eqn:Hsize.
  unfold without_alpha, split_image, band_names.
  destruct (String.eqb (im_mode src) "RGBA") eqn:Hrgba; simpl;
    [|destruct (String.eqb (im_mode src) "RGB") eqn:Hrgb; simpl;
      [apply String.eqb_eq in Hrgb|]];
    ask w;
    repeat constructor; simpl; try done; try (unfold app_outputs; set_solver); eauto.
Qed.

(** On a machine where no call raises, the script ends normally with
    the icon of its input saved under the three names. *)
Lemma app_run (w : world) :
  (forall h c, raises w h c = None) ->
  end_of (process_app_icon.main w) = Ok tt /\
  saved (log_of (process_app_icon.main w)) =
    (fun path => (path, "PNG", icon_of (opened w [] process_app_icon.input_path)))
      <$> app_outputs /\
  written (log_of (process_app_icon.main w)) = app_outputs.
Proof.
  intros Hcalm.
  unfold end_of, log_of, run, process_app_icon.main, process_app_icon.to_rgb.
  autounfold with api. unfold mbind, M_bind, bind, perform, item.
  simpl. rewrite Hcalm.
  set (src := opened w [] process_app_icon.input_path).
  unfold icon_of, centre_box, without_alpha, split_image, band_names, white.
  destruct (im_size src) as [width height] eqn:Hsize.
  destruct (String.eqb (im_mode src) "RGBA") eqn:Hrgba; simpl;
    [|destruct (String.eqb (im_mode src) "RGB") eqn:Hrgb; simpl;
      [apply String.eqb_eq in Hrgb|]].
  all: repeat (rewrite Hcalm; simpl).
  all: split; [done|].
  all: try rewrite Hrgb.
  all: done.
Qed.

(** A list that ends with the call that raised. *)
Ltac last_failed :=
  lazymatch goal with
  | |- exists t1 c, ?l = t1 ++ [Failed c ?e] /\ _ =>
      let n := eval lazy in (Nat.pred (length l)) in
      exists (take n l); eexists; split; [reflexivity|]
  end.

(** How a run of the script ends, in every world.  It has no handler:
    either no call raises, and the icon of the input is saved under the
    three names; or the first call that raises ends it, with the
    outputs saved before that call and no other (all three when it is
    the read-back at the end that raises). *)
Lemma app_outcome (w : world) :
  match run (process_app_icon.main w) with
  | (t, Ok _) =>
      clean t = true /\
      saved t = (fun path => (path, "PNG", icon_of (opened w [] process_app_icon.input_path)))
                  <$> app_outputs /\
      written t = app_outputs
  | (t, Raised e) =>
      exists t1 c, t = t1 ++ [Failed c e] /\ clean t1 = true /\
                   exists k, written t = take k app_outputs
  end.
Proof.
  unfold run, process_app_icon.main, process_app_icon.to_rgb.
  autounfold with api. unfold mbind, M_bind, bind, perform, item.
  simpl.
  destruct (raises w [] _); simpl.
  { last_failed. split; [done|]. by exists 0%nat. }
  set (src := opened w [] process_app_icon.input_path).
  unfold icon_of, centre_box, without_alpha, split_image, band_names, white.
  destruct (im_size src) as [width height] eqn:Hsize.
  destruct (String.eqb (im_mode src) "RGBA") eqn:Hrgba; simpl;
    [|destruct (String.eqb (im_mode src) "RGB") eqn:Hrgb; simpl;
      [apply String.eqb_eq in Hrgb|]].
  all: ask w.
  all: try (last_failed; split; [done|];
            first [by exists 0%nat | by exists 1%nat | by exists 2%nat | by exists 3%nat]).
  all: split; [done|]; split; [|done].
  all: try rewrite Hrgb.
  all: done.
Qed.

(** Method 1 on a machine where cairosvg is installed and works: the
    conversion is the three calls of cairosvg and nothing else. *)
Lemma cairosvg_converts (w : world) :
  (forall h c, c ∈ cairosvg_calls -> raises w h c = None) ->
  run (process_svg_icon.convert_svg w) = (cairosvg_log, Ok true).
Proof.
  intros Hc.
  assert (forall h, raises w h (ImportModule "cairosvg") = None) as H0
    by (intros; apply Hc; unfold cairosvg_calls; set_solver).
  assert (forall h out, out ∈ svg_outputs ->
            raises w h (Svg2png process_svg_icon.input_svg out 1024 1024) = None) as H1.
  { intros h out Hout. apply Hc. unfold cairosvg_calls.
    apply list_elem_of_further, list_elem_of_fmap. by exists out. }
  unfold run, process_svg_icon.convert_svg, process_svg_icon.method1. open_script.
  rewrite H0. simpl.
  rewrite !H1 by (unfold svg_outputs; set_solver). simpl.
  repeat (rewrite !H1 by (unfold svg_outputs; set_solver); simpl).
  reflexivity.
Qed.

Lemma disk_input src : opened (disk src) [] process_app_icon.input_path = src.
Proof. reflexivity. Qed.

Lemma app_run_disk src :
  end_of (process_app_icon.main (disk src)) = Ok tt /\
  saved (log_of (process_app_icon.main (disk src))) =
    (fun path => (path, "PNG", icon_of src)) <$> app_outputs /\
  written (log_of (process_app_icon.main (disk src))) = app_outputs.
Proof. by apply (app_run (disk src)). Qed.

Lemma centre_box_inside (size : Z * Z) :
  0 < size.1 -> 0 < size.2 -> square_inside size (centre_box size).
Proof.
  destruct size as [width height]. unfold square_inside, centre_box. simpl.
  intros Hw Hh.
  assert (0 <= (width - width `min` height) `div` 2) by (apply Z.div_pos; lia).
  assert (0 <= (height - width `min` height) `div` 2) by (apply Z.div_pos; lia).
  assert ((width - width `min` height) `div` 2 <= width - width `min` height)
    by (apply Z.div_le_upper_bound; lia).
  assert ((height - width `min` height) `div` 2 <= height - width `min` height)
    by (apply Z.div_le_upper_bound; lia).
  lia.
Qed.

End icon_facts.

(** ** The four stages of process_svg_icon.py *)

Module icon_stages.
Import Img IconLog IconInv IconObs icon_facts.

Lemma stages_app t1 t2 : stages (t1 ++ t2) = stages_or (stages t1) (stages t2).
Proof.
  unfold stages, stages_or, printed_with, pip_attempted. simpl. rewrite !existsb_app.
  repeat match goal with |- context [existsb ?f ?l] => destruct (existsb f l) end;
    reflexivity.
Qed.

Lemma method1_staged w : staged (true, false, false, false) (process_svg_icon.method1 w).
Proof.
  intros h. unfold process_svg_icon.method1. open_script. ask w;
  try match goal with |- context [exn_kind ?e] => destruct (exn_kind e); simpl end;
  reflexivity.
Qed.

Lemma method2_staged w : staged (false, true, false, false) (process_svg_icon.method2 w).
Proof. intros h. unfold process_svg_icon.method2. open_script. ask w; reflexivity. Qed.

Lemma method3_staged w : staged (false, false, true, false) (process_svg_icon.method3 w).
Proof.
  intros h. unfold process_svg_icon.method3, process_svg_icon.inkscape_paths.
  cbn [process_svg_icon.find_inkscape]. open_script. ask w; reflexivity.
Qed.

Lemma method4_pip w h :
  match process_svg_icon.method4 w h with
  | (t, Ok _) => stages t = (false, false, false, true)
  | (_, Raised _) => False
  end.
Proof. unfold process_svg_icon.method4. open_script. ask w; reflexivity. Qed.


Lemma balanced t s :
  stages t = s -> s.2 = s.1.1.1 && s.1.1.2 && s.1.2 -> pip_attempted t = gave_up t.
Proof.
  intros <-. unfold gave_up. change (pip_attempted t) with (stages t).2.
  by destruct (stages t) as [[[? ?] ?] ?].
Qed.

Lemma convert_stages w h :
  match process_svg_icon.convert_svg w h with
  | (t, Ok _) => pip_attempted t = gave_up t
  | (_, Raised _) => False
  end.
Proof.
  unfold process_svg_icon.convert_svg. rewrite run_bind.
  pose proof (method1_staged w h) as H1.
  destruct (process_svg_icon.method1 w h) as [t1 [[|]|e]]; [| |done].
  { simpl. rewrite app_nil_r. by apply (balanced _ _ H1). }
  rewrite run_bind.
  pose proof (method2_staged w (h ++ t1)) as H2.
  destruct (process_svg_icon.method2 w (h ++ t1)) as [t2 [[|]|e]]; [| |done].
  { simpl. rewrite app_nil_r.
    apply (balanced _ (true, false, false, false)); [|done]. by rewrite stages_app, H1, H2. }
  rewrite run_bind.
  pose proof (method3_staged w ((h ++ t1) ++ t2)) as H3.
  destruct (process_svg_icon.method3 w ((h ++ t1) ++ t2)) as [t3 [[|]|e]]; [| |done].
  { simpl. rewrite app_nil_r.
    apply (balanced _ (true, true, false, false)); [|done].
    by rewrite !stages_app, H1, H2, H3. }
  pose proof (method4_pip w (((h ++ t1) ++ t2) ++ t3)) as H4.
  destruct (process_svg_icon.method4 w (((h ++ t1) ++ t2) ++ t3)) as [t4 [b|e]]; [|done].
  apply (balanced _ (true, true, true, true)); [|done].
  by rewrite !stages_app, H1, H2, H3, H4.
Qed.

(** The conversion answers [False] only when all four methods have
    failed: cairosvg, Pillow and Inkscape were each given up and pip was
    run. *)
Lemma convert_failed w h :
  match process_svg_icon.convert_svg w h with
  | (t, Ok false) => stages t = (true, true, true, true)
  | _ => True
  end.
Proof.
  unfold process_svg_icon.convert_svg. rewrite run_bind.
  pose proof (method1_staged w h) as H1.
  destruct (process_svg_icon.method1 w h) as [t1 [[|]|e]]; [| |done].
  { done. }
  rewrite run_bind.
  pose proof (method2_staged w (h ++ t1)) as H2.
  destruct (process_svg_icon.method2 w (h ++ t1)) as [t2 [[|]|e]]; [| |done].
  { done. }
  rewrite run_bind.
  pose proof (method3_staged w ((h ++ t1) ++ t2)) as H3.
  destruct (process_svg_icon.method3 w ((h ++ t1) ++ t2)) as [t3 [[|]|e]]; [| |done].
  { done. }
  pose proof (method4_pip w (((h ++ t1) ++ t2) ++ t3)) as H4.
  destruct (process_svg_icon.method4 w (((h ++ t1) ++ t2) ++ t3)) as [t4 [[|]|e]]; [done| |done].
  by rewrite !stages_app, H1, H2, H3, H4.
Qed.

Lemma svg_stages w :
  pip_attempted (log_of (process_svg_icon.main w))
    = gave_up (log_of (process_svg_icon.main w)).
Proof.
  unfold log_of, run, process_svg_icon.main. rewrite run_bind.
  pose proof (convert_stages w []) as Hc.
  destruct (process_svg_icon.convert_svg w []) as [t [b|e]]; [|done].
  assert (forall tail, stages tail = (false, false, false, false) ->
            pip_attempted (t ++ tail) = gave_up (t ++ tail)) as Htail.
  { intros tail Htail. unfold gave_up in *. change (pip_attempted ?x) with (stages x).2 in *.
    rewrite stages_app, Htail. destruct (stages t) as [[[? ?] ?] ?]. simpl in *.
    by rewrite !orb_false_r. }
  destruct b; open_script; ask w; apply Htail; reflexivity.
Qed.

End icon_stages.

(** ** The database scripts *)

Module db_facts.
Import Db.

Lemma has_column_app n cols1 cols2 :
  has_column n (cols1 ++ cols2) = has_column n cols1 || has_column n cols2.
Proof. apply existsb_app. Qed.

Lemma add_column_keeps n cols x :
  has_column n cols = true -> has_column n (add_column cols x) = true.
Proof.
  intros H. unfold add_column. destruct (has_column x.1 cols); [done|].
  by rewrite has_column_app, H.
Qed.

Lemma add_column_has cols x : has_column x.1 (add_column cols x) = true.
Proof.
  unfold add_column. destruct (has_column x.1 cols) eqn:E; [done|].
  rewrite has_column_app. simpl. by rewrite String.eqb_refl, orb_true_r.
Qed.

Lemma add_columns_keeps n new : forall cols,
  has_column n cols = true -> has_column n (add_columns new cols) = true.
Proof.
  unfold add_columns. induction new as [|x new IH]; intros cols H; simpl; [done|].
  by apply IH, add_column_keeps.
Qed.

Lemma add_columns_has new : forall cols,
  Forall (fun x => has_column x.1 (add_columns new cols) = true) new.
Proof.
  induction new as [|x new IH]; intros cols; constructor.
  - apply (add_columns_keeps x.1 new), add_column_has.
  - apply IH.
Qed.

Lemma add_columns_noop new : forall cols,
  Forall (fun x => has_column x.1 cols = true) new -> add_columns new cols = cols.
Proof.
  unfold add_columns. induction new as [|x new IH]; intros cols H; simpl; [done|].
  inversion H as [|? ? Hx Hnew]; subst. unfold add_column at 2. rewrite Hx. by apply IH.
Qed.

Lemma add_columns_idempotent new cols :
  add_columns new (add_columns new cols) = add_columns new cols.
Proof. apply add_columns_noop, add_columns_has. Qed.

Lemma exec_idempotent q (s : schema) : exec q (exec q s) = exec q s.
Proof.
  destruct q as [table new| | |]; simpl; try done.
  destruct (s !! table) as [cols|] eqn:E; [|by rewrite E].
  rewrite lookup_insert_eq, insert_insert_eq. by rewrite add_columns_idempotent.
Qed.

Lemma exec_keeps_tables q (s : schema) table :
  is_Some (exec q s !! table) <-> is_Some (s !! table).
Proof.
  destruct q as [t new| | |]; simpl; try done.
  destruct (s !! t) as [cols|] eqn:E; [|done].
  destruct (decide (t = table)) as [->|Hne].
  - rewrite lookup_insert_eq, E. split; eauto.
  - by rewrite lookup_insert_ne.
Qed.

(** *** The rows of a query *)

Lemma insert_sorted_Forall (P : list string -> Prop) x rows :
  P x -> Forall P rows -> Forall P (insert_sorted x rows).
Proof.
  intros Hx. induction 1 as [|y rows Hy Hrows IH]; simpl.
  - by repeat constructor.
  - destruct (String.leb _ _); repeat constructor; auto.
Qed.

Lemma order_rows_Forall (P : list string -> Prop) rows :
  Forall P rows -> Forall P (order_rows rows).
Proof.
  induction 1; simpl; [constructor|]. by apply insert_sorted_Forall.
Qed.

Lemma verification_rows (s : schema) :
  Forall (fun row => length row = 2%nat) (rows_of run_migration.verification s).
Proof.
  apply order_rows_Forall, Forall_fmap, Forall_forall. by intros.
Qed.

(** *** Reports leave the session as it is *)

Lemma reports_keep_session t : forall ss,
  Forall (fun ev => is_report ev = true) t -> foldl db_step ss t = ss.
Proof.
  induction t as [|ev t IH]; intros ss H; simpl; [done|].
  inversion H as [|? ? Hev Ht]; subst. destruct ev; try done; by apply IH.
Qed.

Lemma print_columns_run rows h :
  Forall (fun row => length row = 2%nat) rows ->
  exists t, run_migration.print_columns rows h = (t, Ok tt) /\
            Forall (fun ev => is_report ev = true) t.
Proof.
  intros H. revert h. induction H as [|row rows Hrow Hrows IH]; intros h.
  - exists []. by split.
  - destruct row as [|name [|type [|]]]; try done.
    destruct (IH (h ++ [Printed ("  - " +:+ name +:+ ": " +:+ type)])) as (t & Ht & Hrep).
    exists (Printed ("  - " +:+ name +:+ ": " +:+ type) :: t). split; [|by constructor].
    change (run_migration.print_columns ([name; type] :: rows) h)
      with ((print ("  - " +:+ name +:+ ": " +:+ type) ≫=
             fun _ => run_migration.print_columns rows) h).
    rewrite Rules.run_bind. simpl. by rewrite Ht.
Qed.

Lemma foldl_db_step_app ss t1 t2 :
  foldl db_step ss (t1 ++ t2) = foldl db_step (foldl db_step ss t1) t2.
Proof. apply foldl_app. Qed.

#[local] Arguments rows_of : simpl never.
#[local] Arguments exec : simpl never.
#[local] Arguments run_migration.print_columns : simpl never.

(** The run of the migration on a server that has the table: it
    returns [True] and leaves the schema the ALTER produces. *)
Lemma migration_applied (s : schema) :
  is_Some (s !! "workout_plans") ->
  exists t, run (run_migration.run_migration (postgres s true)) = (t, Ok true) /\
            schema_after t s = exec run_migration.migration s /\
            DbLog.reports_success t = true.
Proof.
  intros Htable.
  pose proof (verification_rows (exec run_migration.migration s)) as Hrows.
  unfold run, run_migration.run_migration, try_except. autounfold with api.
  unfold mbind, M_bind, bind, perform, print.
  simpl. rewrite bool_decide_true by done. simpl.
  change (exec run_migration.verification (exec run_migration.migration s))
    with (exec run_migration.migration s).
  destruct (rows_of run_migration.verification (exec run_migration.migration s))
    as [|row rows] eqn:E.
  - eexists. split; [done|]. split; reflexivity.
  - match goal with |- context [run_migration.print_columns ?r ?h] =>
      destruct (print_columns_run r h Hrows) as (t & -> & Hrep) end.
    eexists. split; [done|]. split; [|reflexivity].
    unfold schema_after, session_after. simpl.
    rewrite foldl_db_step_app, (reports_keep_session t) by done. reflexivity.
Qed.

(** On a server without the table the ALTER is refused: the handler
    reports it, the function returns [False] and nothing is changed. *)
Lemma migration_refused (s : schema) :
  s !! "workout_plans" = None ->
  exists t, run (run_migration.run_migration (postgres s true)) = (t, Ok false) /\
            schema_after t s = s /\
            DbLog.reports_success t = false.
Proof.
  intros Htable.
  unfold run, run_migration.run_migration, try_except. autounfold with api.
  unfold mbind, M_bind, bind, perform, print.
  simpl. rewrite bool_decide_false by (rewrite Htable; by intros [? [=]]). simpl.
  eexists. split; [done|]. split; reflexivity.
Qed.

End db_facts.

(** ** How the scripts take a failure *)

Module recovery_facts.
Import repository.

Section Generic.
Context {C R : Type}.
Implicit Types (t : list (Py.event C R)).

Lemma winds_down_clean (cleanup : C -> bool) t :
  clean t = true -> winds_down cleanup t = true.
Proof. intros H. unfold winds_down. by rewrite first_failure_none. Qed.

Lemma reports_clean guarded report same t :
  clean t = true -> @reports C R guarded report same t = true.
Proof. intros H. unfold reports. by rewrite first_failure_none. Qed.

(** Handler-free code: nothing follows the call that raised, and its
    exception ends the run. *)
Lemma fail_fast_conduct {A} (m : Py.M C R A) cleanup :
  fail_fast m ->
  carries_on cleanup (log_of m) = false /\
  implb (negb (clean (log_of m))) (uncaught (end_of m)) = true.
Proof.
  intros Hm. unfold carries_on, log_of, end_of, run. specialize (Hm []).
  destruct (m []) as [t [a|e]]; simpl.
  - by rewrite winds_down_clean, Hm.
  - destruct Hm as [Hm|(t1 & c & -> & Hm)].
    + by rewrite winds_down_clean, Hm.
    + unfold winds_down. rewrite first_failure_at by done. simpl.
      by rewrite implb_true_r.
Qed.

(** One handler around handler-free code, printing one line: the
    exception is reported at once, nothing else follows, and the run
    does not end in an exception. *)
Lemma handled_conduct {A B} (body : Py.M C R A) (line : exn -> string) (a : A)
    (f : A -> B) cleanup guarded same :
  (forall s, same (Printed s) (Printed s) = true) ->
  fail_fast body ->
  let m : Py.M C R B :=
    x ← try_except body (fun e => print (line e);; mret a); mret (f x) in
  carries_on cleanup (log_of m) = false /\
  uncaught (end_of m) = false /\
  reports guarded (fun e => [Printed (line e)]) same (log_of m) = true.
Proof.
  intros Hsame Hbody. simpl. unfold carries_on, log_of, end_of, run.
  rewrite run_bind. unfold try_except. specialize (Hbody []).
  destruct (body []) as [t [x|e]]; simpl.
  - rewrite app_nil_r. by rewrite winds_down_clean, reports_clean.
  - rewrite !app_nil_r. destruct Hbody as [Hc|(t1 & c & -> & Hc)].
    + assert (clean (t ++ [Printed (line e)]) = true) as Hc'
        by (by rewrite clean_app, Hc).
      by rewrite winds_down_clean, reports_clean.
    + rewrite <- app_assoc. simpl. unfold winds_down, reports.
      rewrite !first_failure_at by done. simpl. rewrite Hsame.
      by destruct (guarded c).
Qed.

End Generic.

(** The [with] block around handler-free code: only its exit follows
    the call that raised. *)
Lemma with_playwright_conduct {A} (body : Browser.M A) :
  fail_fast body ->
  carries_on is_teardown (log_of (with_playwright body)) = false /\
  implb (negb (clean (log_of (with_playwright body))))
        (uncaught (end_of (with_playwright body))) = true.
Proof.
  intros Hm. unfold carries_on, log_of, end_of, run.
  rewrite browser_facts.with_playwright_log, browser_facts.with_playwright_end.
  specialize (Hm []). destruct (body []) as [t [a|e]]; simpl.
  - assert (clean (t ++ [Did PlaywrightStop Browser.RNone]) = true) as Hc
      by (by rewrite clean_app, Hm).
    by rewrite winds_down_clean, Hc.
  - rewrite implb_true_r. split; [|done].
    destruct Hm as [Hm|(t1 & c & -> & Hm)].
    + rewrite winds_down_clean; [done|]. by rewrite clean_app, Hm.
    + rewrite <- app_assoc. simpl. unfold winds_down. by rewrite first_failure_at.
Qed.

Lemma diagnostic_conduct w :
  went_on (on_browser browser_scripts.Diagnostic w) = false /\
  implb (failed (on_browser browser_scripts.Diagnostic w))
        (ended_in_exception (on_browser browser_scripts.Diagnostic w)) = true.
Proof.
  apply with_playwright_conduct. fail_fast_tac.
Qed.

Lemma app_icon_conduct w :
  carries_on no_cleanup (log_of (process_app_icon.main w)) = false /\
  implb (negb (clean (log_of (process_app_icon.main w))))
        (uncaught (end_of (process_app_icon.main w))) = true.
Proof.
  apply fail_fast_conduct. unfold process_app_icon.main, process_app_icon.to_rgb.
  fail_fast_tac.
Qed.


Lemma same_line_refl s : same_line (Printed s) (Printed s) = true.
Proof. apply String.eqb_refl. Qed.

Lemma database_conduct s env :
  s ∈ database_scripts ->
  went_on (behaviour s env) = false /\
  ended_in_exception (behaviour s env) = false /\
  reported s env = true.
Proof.
  unfold database_scripts. rewrite !elem_of_cons, elem_of_nil.
  intros [->|[->|[->|[]]]]; simpl; unfold reported.
  - unfold run_migration.main, run_migration.run_migration.
    apply handled_conduct; [apply same_line_refl|].
    unfold run_migration.print_columns. fail_fast_tac.
  - unfold check_tables.main, check_tables.check_tables.
    apply (handled_conduct _ (fun e => "[ERROR] Failed: " +:+ exn_msg e) false (fun _ => tt));
      [apply same_line_refl|].
    fail_fast_tac.
  - unfold check_user_profiles.main, check_user_profiles.check_user_profiles.
    apply (handled_conduct _ (fun e => "[ERROR] Failed: " +:+ exn_msg e) false (fun _ => tt));
      [apply same_line_refl|].
    unfold check_user_profiles.show_columns. fail_fast_tac.
Qed.

Lemma capture_conduct c env :
  went_on (behaviour (OnBrowser (browser_scripts.Capture c)) env) = false /\
  reported (OnBrowser (browser_scripts.Capture c)) env = true.
Proof.
  simpl. unfold carries_on. rewrite capture_facts.programs_follow_pattern. split.
  - rewrite capture_facts.pattern_winds_down; [done|apply capture_facts.rest_fail_fast].
  - apply capture_facts.pattern_reports, capture_facts.rest_fail_fast.
Qed.

End recovery_facts.

(** * The claims *)

Import capture capture_facts browser_scripts browser_facts.

(** C5.  Every browser script keeps its whole session inside a
    [with ..playwright()] block, and that block is what closes the
    browser on every path: whatever the calls do, and whether the body
    returns or one of its steps raises, the block is left, and the exit
    comes after the last call made on the browser or on a page (what may
    follow it is the crawler's dump).
    The explicit [browser.close()] is a second matter.  It is called on
    every path once the page has been created in the five capture
    scripts (it is their [finally]) and in the crawler (every later step
    sits inside a handler); in check_fonts.py, test_fonts.py and
    comprehensive_diagnostic.py it is a plain last statement, called
    whenever the run does not end in an exception. *)
Theorem C5_scope_left_and_browser_closed (s : browser_scripts.script) (w : world) :
  leaves_scope (session s w).1 = true /\
  scope_closes (session s w).1 /\
  match s with
  | Capture _ | Crawler =>
      page_created (session s w).1 = true -> closes (session s w).1 = true
  | CheckFonts | TestFonts | Diagnostic =>
      (session s w).2 = false -> closes (session s w).1 = true
  end.
Proof.
  destruct s as [c| | | |]; simpl.
  - rewrite programs_follow_pattern. split_and!.
    + apply pattern_leaves_scope, rest_fail_fast.
    + apply with_playwright_scope.
    + apply pattern_closes, rest_fail_fast.
  - split_and!; [apply with_playwright_leaves|apply with_playwright_scope|].
    apply returned_closed, check_fonts_returns.
  - split_and!; [apply with_playwright_leaves|apply with_playwright_scope|].
    apply returned_closed, test_fonts_returns.
  - split_and!; [apply with_playwright_leaves|apply with_playwright_scope|].
    apply returned_closed, diagnostic_returns.
  - split_and!; [apply crawler_leaves|apply crawler_scope|apply crawler_closes].
Qed.

(** A run that returns, and a run in which the screenshot raises: in
    the capture script [browser.close()] is still called, and the exit
    from the block is the last event. *)
Lemma C5_witness :
  closes (session TestFonts (quiet_world (fun _ => true))).1 = true /\
  closes (session (Capture Element) no_screenshot).1 = true /\
  last (session (Capture Element) no_screenshot).1 = Some (Did PlaywrightStop RNone) /\
  Failed (Screenshot "C:\Users\derri\HeirclarkHealthAppNew\full_page_tall.png" (Some false))
         (Exn Error "boom") ∈ (session (Capture Element) no_screenshot).1.
Proof.
  split_and!.
  - apply (C5_scope_left_and_browser_closed TestFonts (quiet_world (fun _ => true))).
    reflexivity.
  - apply (C5_scope_left_and_browser_closed (Capture Element) no_screenshot).
    reflexivity.
  - reflexivity.
  - vm_compute. repeat first [apply list_elem_of_here | apply list_elem_of_further].
Defined.

(** C6, as the specification words it, fails: on a page where every
    element looked for is present, capture_element.py and
    capture_gauges.py differ in viewport (390x1200 against 390x844), in
    the elements they click (Skip against Skip and Log In) and in their
    waits. *)
Lemma C6_profiles_differ : ~ same_up_to_paths_and_scrolls.
Proof.
  intros H. specialize (H Element Gauges (quiet_world (fun _ => true))).
  vm_compute in H. discriminate.
Qed.

(** C6, amended: each of the five capture scripts is the shared pattern
    (headed launch, mobile context 390 pixels wide with scale factor 3
    and touch, navigation to http://localhost:8081 until network idle
    with a 60000 ms timeout, a wait of 8000 ms, the Skip step, one
    handler, [browser.close()] in [finally]) instantiated with its own
    viewport height and its own steps after Skip; on every path its only
    context is that one and its only navigation is the one to the local
    app. *)
Theorem C6_capture_scripts_share_pattern (s : capture.script) (w : world) :
  program s w = capture_pattern w (height_of s) (rest_of s w) /\
  Forall (fun o => o = capture_options (height_of s)) (contexts (log_of (program s w))) /\
  Forall (fun g => g = local_app) (gotos (log_of (program s w))).
Proof.
  split; [apply programs_follow_pattern|]. split.
  - apply contexts_are, emits_log, programs_context.
  - apply gotos_local, emits_log, programs_navigate_locally.
Qed.

(** C7, as worded, fails: in capture_element.py with no Skip button on
    the page and no failing call, the lookup is followed by the
    screenshot at once; no wait comes after it. *)
Lemma C7_no_wait_when_absent : ~ skip_absent_still_waits.
Proof.
  intros H.
  destruct (H Element (quiet_world (fun _ => false))) as (post & Hpost & Hwaits & _);
    [done..|].
  vm_compute in Hpost. injection Hpost as <-. by apply Hwaits.
Qed.

(** C7, amended: in each capture script the Skip button is clicked if
    and only if the lookup finds it: a found element is clicked right
    after the lookup and the 3000 ms wait follows the click; when the
    lookup finds nothing the next step is neither a click nor a wait.
    On a page without Skip button and with no failing call the lookup is
    reached and every screenshot the script takes unconditionally is
    captured to its hardcoded path. *)
Theorem C7_skip_clicked_iff_found (s : capture.script) (w : world) :
  skip_step_ok (log_of (program s w)) = true /\
  ((forall h c, raises w h c = None) ->
   (forall h, found w h "text=Skip" = None) ->
   exists post,
     skip_lookup (log_of (program s w)) = Some (None, post) /\
     moves_on post = true /\
     Forall (fun p => p ∈ shots post) (unconditional_shots s)).
Proof.
  rewrite programs_follow_pattern.
  assert (skip_step_ok (log_of (capture_pattern w (height_of s) (rest_of s w))) = true)
    as Hok by (apply pattern_skip; intros h; apply rest_moves_on).
  split; [done|]. intros Hr Hskip.
  destruct (pattern_skip_absent w (height_of s) (rest_of s w) Hr Hskip) as (h & tail & Hl).
  eexists. split; [exact Hl|]. split.
  - unfold skip_step_ok in Hok. by rewrite Hl in Hok.
  - eapply Forall_impl; [apply (rest_shots s w h Hr)|].
    intros p Hp. rewrite shots_app. set_solver.
Qed.

Lemma C7_witness :
  exists post,
    skip_lookup (log_of (program Element (quiet_world (fun _ => false)))) = Some (None, post) /\
    moves_on post = true /\
    Forall (fun p => p ∈ shots post) (unconditional_shots Element).
Proof.
  apply (C7_skip_clicked_iff_found Element (quiet_world (fun _ => false))); reflexivity.
Defined.

Import crawl_heirclark_website crawl crawl_facts.

(** C3, as worded, fails: the crawler keeps the set [visited_pages] and
    skips an entry whose URL it holds; with the same URL twice in the
    list the page is navigated to once. *)
Lemma C3_duplicates_skipped : ~ no_dedup.
Proof.
  intros H.
  destruct (H (quiet_world (fun _ => false))
              ["https://heirclark.com"; "https://heirclark.com"]) as [Hnav _].
  vm_compute in Hnav. discriminate.
Qed.

(** C3, amended: for every list of URLs the crawl loop navigates, in
    order, to the entries that did not occur earlier in the list, and
    it ends with the set of all the list's URLs as visited; nothing is
    ever added to the list.  The six URLs of the script are distinct, so
    each is navigated to. *)
Theorem C3_first_occurrences_visited (w : world) (urls : list string) (h : trace) :
  navigations (crawl_loop w urls h).1 = first_occurrences [] urls /\
  (exists res, (crawl_loop w urls h).2 = Ok (list_to_set urls, res)) /\
  first_occurrences [] pages_to_visit = pages_to_visit.
Proof.
  destruct (loop_run w urls h) as (t & res & vs & -> & Hn & _).
  split; [done|]. split; [by exists res|]. reflexivity.
Qed.

(** C4, as worded, fails in each of its parts.
    The script does not navigate to the six URLs and nothing else: on a
    page where every call succeeds it navigates seven times, the last
    time to the calorie counter again for its feature analysis.
    A page that loaded is not always dumped: when the screenshot raises
    (line 72), the page has loaded, the per-URL handler records an error
    and the results written hold no page at all.
    What is dumped is not what was discovered: of 21 cards returned by
    the query only the first 20 are read (line 79), so the page entry
    holds 20 cards (and a blank card is skipped, line 82). *)
Lemma C4_not_all_dumped :
  ~ visits_exactly_the_list /\ ~ loaded_pages_dumped /\ ~ discovered_elements_dumped.
Proof.
  split_and!.
  - intros H. specialize (H (quiet_world (fun _ => false)) eq_refl).
    vm_compute in H. discriminate.
  - intros H. specialize (H no_screenshot). vm_compute in H.
    inversion H as [|? ? Hin _]. by apply elem_of_nil in Hin.
  - intros H.
    destruct (visit_page long_page "https://heirclark.com" []) as [t [pd|e]] eqn:E;
      [|by vm_compute in E].
    destruct (H _ _ _ _ _ E) as [Hcards _].
    vm_compute in E. injection E as <- <-. vm_compute in Hcards. discriminate.
Qed.

(** C4, amended.  The crawl loop navigates to the six URLs of the list,
    in list order, one visit each; the script as a whole, once its page
    is created, navigates to them and then a seventh time, to the
    calorie counter again.
    A visit that returns leaves its page in [results['pages']], and the
    page holds exactly what the log of the visit shows: the title; for
    cards and buttons, read in the order the query returned them, the
    first 20 and the first 30 only, one entry for each element whose
    text was read and is not blank and whose class was read, with the
    text reduced to ASCII and stripped (a card's cut to 200
    characters), and none for the others; one entry for every input and
    for every modal.  A visit that raises, also after the page loaded,
    leaves an error entry instead and no page.
    When the script returns, the results it returns, with the pages and
    errors of the loop, are what it has written to
    website_crawl_results.json. *)
Theorem C4_six_pages_visited_and_dumped (w : world) (h : trace) :
  navigations (crawl_loop w pages_to_visit h).1 = pages_to_visit /\
  (exists seen res vs,
     (crawl_loop w pages_to_visit h).2 = Ok (seen, res) /\
     v_url <$> vs = pages_to_visit /\
     pages res = omap page_of vs /\
     errors res = omap error_of vs /\
     Forall (fun v =>
               happened w h (crawl_loop w pages_to_visit h).1 v /\
               match v_end v with
               | Ok pd => pd ∈ pages res /\ pd_url pd = v_url v /\ dumps (v_log v) pd
               | Raised e => ErrorEntry (v_url v) (exn_msg e) ∈ errors res
               end) vs) /\
  navigations (log_of (crawl_heirclark w)) =
    (if page_created (log_of (crawl_heirclark w))
     then pages_to_visit ++ [calorie_counter] else []) /\
  (forall res,
     end_of (crawl_heirclark w) = Ok res ->
     Did (JsonDump "website_crawl_results.json" res) RNone ∈ log_of (crawl_heirclark w) /\
     exists seen res_l,
       (crawl_loop w pages_to_visit crawler_setup).2 = Ok (seen, res_l) /\
       pages res = pages res_l /\ errors res = errors res_l).
Proof.
  destruct (loop_run w pages_to_visit h) as (t & res & vs & Heq & Hn & Hu & Hv & Hp & He).
  rewrite Heq. simpl. split_and!.
  - done.
  - exists (list_to_set pages_to_visit), res, vs. split_and!; [done..|].
    apply Forall_forall. intros v Hin. pose proof Hv as Hall.
    rewrite Forall_forall in Hall. specialize (Hall v Hin). split; [done|].
    destruct Hall as [Hvisit _]. destruct (v_end v) as [pd|e] eqn:Hend.
    + apply visit_dumps in Hvisit as [Hurl Hdumps]. split_and!; [|done..].
      rewrite Hp. apply list_elem_of_omap. exists v. split; [done|].
      unfold page_of. by rewrite Hend.
    + rewrite He. apply list_elem_of_omap. exists v. split; [done|].
      unfold error_of. by rewrite Hend.
  - apply crawler_navigations.
  - intros r Hr. apply crawler_end in Hr as (tl & seen & res_l & Hl & Hpages & Herrors & Hdump).
    split; [done|]. exists seen, res_l. by rewrite Hl.
Qed.

(** On a page with two cards, the second one blank, a button, an input
    without attributes and a visible modal, the script returns and has
    written six pages, each with the card that has text, the button,
    the input as of type text and the modal. *)
Lemma C4_witness :
  exists res,
    end_of (crawl_heirclark small_page) = Ok res /\
    Did (JsonDump "website_crawl_results.json" res) RNone
      ∈ log_of (crawl_heirclark small_page) /\
    pd_url <$> pages res = pages_to_visit /\
    Forall (fun pd =>
              pd_cards pd = [ElementEntry (lit "Daily Balance") (Some (lit "card"))] /\
              pd_buttons pd = [ElementEntry (lit "Log Meal") (Some (lit "card"))] /\
              pd_forms pd = [FormEntry (lit "text") [] []] /\
              pd_modals pd = [ModalEntry true (Some (lit "card"))])
           (pages res).
Proof.
  eexists. split; [vm_compute; reflexivity|]. split_and!.
  - apply (C4_six_pages_visited_and_dumped small_page []).
    vm_compute. reflexivity.
  - vm_compute. reflexivity.
  - vm_compute. by repeat constructor.
Defined.

(** C9: whatever the pages do, the crawl loop ends, and every URL of the
    list has then left exactly one entry: one visit per distinct URL,
    whose page is in [results['pages']] when the visit returned and
    whose error is in [results['errors']] when it raised; no URL is in
    both, and the two lists together have as many entries as the list
    has distinct URLs.  The results the script returns still hold these
    entries: six of them for its own list. *)
Theorem C9_one_entry_per_url (w : world) (urls : list string) (h : trace) :
  (exists seen res vs,
     (crawl_loop w urls h).2 = Ok (seen, res) /\
     v_url <$> vs = first_occurrences [] urls /\
     Forall (happened w h (crawl_loop w urls h).1) vs /\
     pages res = omap page_of vs /\
     errors res = omap error_of vs /\
     Forall (fun u => (occurrences u (pd_url <$> pages res) +
                       occurrences u (er_url <$> errors res))%nat = 1%nat) urls /\
     (length (pages res) + length (errors res))%nat = size (list_to_set urls : gset string)) /\
  (forall res,
     end_of (crawl_heirclark w) = Ok res ->
     (length (pages res) + length (errors res))%nat = 6%nat).
Proof.
  split; [apply loop_entries|].
  intros r Hr. apply crawler_end in Hr as (tl & seen & res_l & Hl & -> & -> & _).
  destruct (loop_entries w pages_to_visit crawler_setup)
    as (seen' & res' & vs & Hend & _ & _ & _ & _ & _ & Hlen).
  rewrite Hl in Hend. injection Hend as <- <-. rewrite Hlen. reflexivity.
Qed.

Lemma C9_witness :
  exists res,
    end_of (crawl_heirclark (quiet_world (fun _ => false))) = Ok res /\
    (length (pages res) + length (errors res))%nat = 6%nat.
Proof.
  eexists. split; [vm_compute; reflexivity|].
  apply (C9_one_entry_per_url (quiet_world (fun _ => false)) [] []).
  vm_compute. reflexivity.
Defined.

(** ** The migration *)

(** C8.  The migration of run_migration.py is idempotent on the schema.
    For every schema [s]: running the ALTER statement twice leaves the
    schema that running it once leaves; a run of the script against a
    reachable server leaves exactly the schema the ALTER produces; a
    second run of the script leaves that schema unchanged, ends as the
    first one did and prints the success line exactly when the first
    one did.  The script returns [True] exactly when the table
    [workout_plans] exists, so a second run after a successful one
    reports success again. *)
Theorem C8_migration_idempotent (s : Db.schema) :
  Db.exec run_migration.migration (Db.exec run_migration.migration s)
    = Db.exec run_migration.migration s /\
  DbLog.schema_after_first s = Db.exec run_migration.migration s /\
  DbLog.schema_after_second s = DbLog.schema_after_first s /\
  (DbLog.first_run s).2 = Ok (bool_decide (is_Some (s !! "workout_plans"))) /\
  (DbLog.second_run s).2 = (DbLog.first_run s).2 /\
  DbLog.reports_success (DbLog.first_run s).1
    = bool_decide (is_Some (s !! "workout_plans")) /\
  DbLog.reports_success (DbLog.second_run s).1
    = DbLog.reports_success (DbLog.first_run s).1.
Proof.
  split; [apply db_facts.exec_idempotent|].
  unfold DbLog.schema_after_second, DbLog.second_run, DbLog.schema_after_first,
    DbLog.first_run.
  destruct (s !! "workout_plans") as [cols|] eqn:Htable.
  - destruct (db_facts.migration_applied s) as (t1 & -> & Hs1 & Hp1); [by rewrite Htable|].
    cbn [fst snd]. rewrite Hs1.
    destruct (db_facts.migration_applied (Db.exec run_migration.migration s))
      as (t2 & -> & Hs2 & Hp2).
    { apply db_facts.exec_keeps_tables. by rewrite Htable. }
    cbn [fst snd]. rewrite Hs2, db_facts.exec_idempotent, Hp1, Hp2.
    rewrite bool_decide_true by eauto. done.
  - destruct (db_facts.migration_refused s Htable) as (t1 & -> & Hs1 & Hp1).
    cbn [fst snd]. rewrite Hs1.
    destruct (db_facts.migration_refused s Htable) as (t2 & -> & Hs2 & Hp2).
    cbn [fst snd]. rewrite Hs2, Hp1, Hp2.
    assert (Db.exec run_migration.migration s = s) as ->.
    { unfold Db.exec, run_migration.migration. by rewrite Htable. }
    rewrite bool_decide_false by (by intros [? [=]]). done.
Qed.

(** ** The icon scripts *)

Import Img IconLog IconInv.

(** C2, as worded, fails: a scan of 14000 x 14000 pixels is an image
    of positive width and height, and [Image.open] refuses it as a
    decompression bomb.  process_app_icon.py has no handler: the
    exception of line 30 ends it and no output is written.  (The same
    holds of any call that raises, and of process_svg_icon.py on a
    machine where none of its four methods works.) *)
Lemma C2_large_image_not_converted : ~ always_converts.
Proof.
  intros H. destruct (H (pillow_disk poster)) as [(f & Hf & _) _]; [done..|].
  by vm_compute in Hf.
Qed.

(** C2, amended.  Both icon scripts write 1024 x 1024 PNG files only,
    and they write them unless a call raises.
    process_app_icon.py, whatever the calls do: every image it saves is
    saved as PNG under one of its three output names and measures
    1024 x 1024, and every file it has written is a 1024 x 1024 PNG.  A
    run ends in one of two ways: no call raised, and then the icon of
    the input is saved under the three names, which hold 1024 x 1024
    PNGs; or the first call that raised ended it with that exception,
    with the outputs written before that call and no other.  On a
    machine where no call raises the run ends normally; on an input of
    positive width and height the crop is a square with pixels in it
    that lies inside the image.
    process_svg_icon.py, whatever the calls do: the conversion never
    raises, every file it has written is a 1024 x 1024 PNG (what pip
    installs in method 4 is no output), and when it reports success the
    three outputs have been written and are such files; it reports
    failure only after cairosvg, Pillow and Inkscape were each given up
    and pip was run.  When cairosvg is installed and its calls go
    through, the conversion is the three calls of cairosvg, at
    1024 x 1024, and succeeds. *)
Theorem C2_outputs_are_1024_png (w : world) (fs : gmap string file) :
  Forall (fun x => x.1.1 ∈ app_outputs /\ x.1.2 = "PNG" /\ im_size x.2 = (1024, 1024))
         (saved (log_of (process_app_icon.main w))) /\
  Forall (icon_at (log_of (process_app_icon.main w)) fs)
         (written (log_of (process_app_icon.main w))) /\
  match run (process_app_icon.main w) with
  | (t, Ok _) =>
      clean t = true /\
      saved t = (fun path => (path, "PNG", icon_of (opened w [] process_app_icon.input_path)))
                  <$> app_outputs /\
      Forall (icon_at t fs) app_outputs
  | (t, Raised e) =>
      exists t1 c, t = t1 ++ [Failed c e] /\ clean t1 = true /\
                   exists k, written t = take k app_outputs
  end /\
  ((forall h c, raises w h c = None) -> end_of (process_app_icon.main w) = Ok tt) /\
  (0 < (im_size (opened w [] process_app_icon.input_path)).1 ->
   0 < (im_size (opened w [] process_app_icon.input_path)).2 ->
   square_inside (im_size (opened w [] process_app_icon.input_path))
                 (centre_box (im_size (opened w [] process_app_icon.input_path)))) /\
  Forall (icon_at (log_of (process_svg_icon.convert_svg w)) fs)
         (written (log_of (process_svg_icon.convert_svg w))) /\
  match run (process_svg_icon.convert_svg w) with
  | (t, Ok true) => svg_outputs ⊆ written t /\ Forall (icon_at t fs) svg_outputs
  | (t, Ok false) => IconObs.gave_up t = true /\ IconObs.pip_attempted t = true
  | (_, Raised _) => False
  end /\
  ((forall h c, c ∈ cairosvg_calls -> raises w h c = None) ->
   run (process_svg_icon.convert_svg w) = (cairosvg_log, Ok true)).
Proof.
  assert (Forall (icon_at (log_of (process_app_icon.main w)) fs)
                 (written (log_of (process_app_icon.main w)))) as Happ
    by apply icon_facts.writes_icons_run, icon_facts.app_writes_icons.
  assert (Forall (icon_at (log_of (process_svg_icon.convert_svg w)) fs)
                 (written (log_of (process_svg_icon.convert_svg w)))) as Hsvg
    by apply icon_facts.writes_icons_run, icon_facts.convert_svg_writes_icons.
  split_and!.
  - eapply Forall_impl; [apply icon_facts.app_saves|]. naive_solver.
  - done.
  - pose proof (icon_facts.app_outcome w) as H. unfold log_of in Happ.
    destruct (run (process_app_icon.main w)) as [t [[]|e]]; [|done].
    destruct H as (Hclean & Hsaved & Hwritten). simpl in Happ.
    by rewrite Hwritten in Happ.
  - intros Hcalm. by apply icon_facts.app_run.
  - apply icon_facts.centre_box_inside.
  - done.
  - pose proof (icon_facts.convert_svg_delivers w []) as Hd.
    pose proof (icon_stages.convert_failed w []) as Hf.
    unfold log_of, run in *.
    destruct (process_svg_icon.convert_svg w []) as [t [[|]|e]]; [| |done].
    + split; [done|]. simpl in Hsvg. rewrite Forall_forall in Hsvg.
      apply Forall_forall. intros p Hp. apply Hsvg. set_solver.
    + unfold IconObs.gave_up. change (IconObs.pip_attempted t) with (IconObs.stages t).2.
      by rewrite Hf.
  - apply icon_facts.cairosvg_converts.
Qed.

(** On a machine where no call raises, with a photograph as input:
    process_app_icon.py ends normally and leaves the three icons, and
    process_svg_icon.py converts with cairosvg.  On a machine without
    cairosvg, where Pillow cannot read the SVG and Inkscape is
    installed, process_svg_icon.py falls back to Inkscape and leaves
    the three icons. *)
Lemma C2_witness :
  end_of (process_app_icon.main (disk photo)) = Ok tt /\
  Forall (icon_at (log_of (process_app_icon.main (disk photo))) ∅) app_outputs /\
  square_inside (3024, 4032) (centre_box (3024, 4032)) /\
  run (process_svg_icon.convert_svg (disk photo)) = (cairosvg_log, Ok true) /\
  end_of (process_svg_icon.convert_svg inkscape_machine) = Ok true /\
  Forall (icon_at (log_of (process_svg_icon.convert_svg inkscape_machine)) ∅) svg_outputs.
Proof.
  pose proof (C2_outputs_are_1024_png (disk photo) ∅) as H.
  destruct H as (_ & _ & Hrun & Hend & Hbox & _ & _ & Hcairo).
  specialize (Hend (fun _ _ => eq_refl)).
  pose proof (C2_outputs_are_1024_png inkscape_machine ∅) as (_ & _ & _ & _ & _ & _ & Hsvg & _).
  split_and!.
  - exact Hend.
  - unfold end_of in Hend. unfold log_of.
    destruct (run (process_app_icon.main (disk photo))) as [t [[]|e]]; [|done].
    by destruct Hrun as (_ & _ & Hicons).
  - apply Hbox; vm_compute; reflexivity.
  - apply Hcairo. intros h c _. reflexivity.
  - reflexivity.
  - unfold log_of.
    destruct (run (process_svg_icon.convert_svg inkscape_machine)) as [t [[|]|e]] eqn:E.
    + by destruct Hsvg.
    + by vm_compute in E.
    + done.
Defined.

(** C10.  The icon process_app_icon.py saves has mode RGB, without an
    alpha band.  Whatever the calls do, every image the script saves has
    mode RGB, whose bands are R, G and B, and its pixels are a LANCZOS
    resize to 1024 x 1024 of a crop of the input without its alpha: an
    RGBA input pasted onto a white background with its alpha band as
    mask, an RGB input as it is, an input of any other mode converted to
    RGB.  On a machine where no call raises the three files are saved
    with exactly that image, cropped to the centred square. *)
Theorem C10_saved_icon_is_rgb (w : world) (src : image) :
  Forall (fun x =>
            im_mode x.2 = "RGB" /\
            band_names (im_mode x.2) = ["R"; "G"; "B"] /\
            exists box,
              im_pixels x.2 =
              Resized (1024, 1024) "LANCZOS"
                (Cropped box (without_alpha (opened w [] process_app_icon.input_path))))
         (saved (log_of (process_app_icon.main w))) /\
  saved (log_of (process_app_icon.main (disk src)))
    = (fun path => (path, "PNG", icon_of src)) <$> app_outputs.
Proof.
  split.
  - eapply Forall_impl; [apply icon_facts.app_saves|].
    intros [[path format] im] (_ & _ & _ & Hmode & Hpixels). simpl in *.
    by rewrite Hmode.
  - apply icon_facts.app_run_disk.
Qed.

(** ** Failure recovery across the repository *)

Import repository.

Ltac each_script :=
  unfold one_handler, capture_scripts, database_scripts, no_handler, handler_per_step;
  cbn [app]; repeat (apply Forall_cons_2; [by vm_compute|]); apply Forall_nil_2.

(** C1, as worded, fails: the crawler wraps each page visit in its own
    handler; when every navigation raises it records the error and goes
    on to the next page, to the feature checks and to the dump. *)
Lemma C1_crawler_carries_on : ~ single_top_level_handler.
Proof.
  intros H. destruct (H (OnBrowser Crawler)) as [Hstops _].
  specialize (Hstops broken). vm_compute in Hstops. done.
Qed.

(** C1, amended: the fourteen scripts fall into three groups.
    The five capture scripts and the three database scripts have one
    [try]/[except]: in every environment nothing but leaving follows the
    first call that raises, and the handler reports it at once (in a
    capture script the launch, the new context and the new page come
    before the [try]); a database script never ends in an exception.
    comprehensive_diagnostic.py and process_app_icon.py have no handler:
    in every environment the first call that raises is the last and
    ends the script in an exception.
    check_fonts.py, test_fonts.py, the crawler and process_svg_icon.py
    have handlers around single steps: when pages are not served,
    respectively cairosvg is missing, they go on working after the
    exception and do not end in one.
    The groups are the whole repository, and in the environment where
    everything is broken every script has a call that raises. *)
Theorem C1_handlers_by_script (env : environment) :
  Forall (fun s => went_on (behaviour s env) = false /\ reported s env = true)
         one_handler /\
  Forall (fun s => ended_in_exception (behaviour s env) = false) database_scripts /\
  Forall (fun s => failed (behaviour s broken) = true /\
                   ended_in_exception (behaviour s broken) = false) one_handler /\
  Forall (fun s => went_on (behaviour s env) = false /\
                   implb (failed (behaviour s env))
                         (ended_in_exception (behaviour s env)) = true) no_handler /\
  Forall (fun s => failed (behaviour s broken) = true /\
                   ended_in_exception (behaviour s broken) = true) no_handler /\
  Forall (fun s => went_on (behaviour s broken) = true /\
                   ended_in_exception (behaviour s broken) = false) handler_per_step /\
  length all_scripts = 14%nat /\ NoDup all_scripts.
Proof.
  split.
  { unfold one_handler. apply Forall_app. split.
    - unfold capture_scripts. repeat constructor; apply recovery_facts.capture_conduct.
    - apply Forall_forall. intros s Hs.
      destruct (recovery_facts.database_conduct s env Hs) as (? & ? & ?). done. }
  split.
  { apply Forall_forall. intros s Hs.
    destruct (recovery_facts.database_conduct s env Hs) as (? & ? & ?). done. }
  split; [each_script|].
  split.
  { unfold no_handler. repeat constructor.
    - apply recovery_facts.diagnostic_conduct.
    - apply recovery_facts.diagnostic_conduct.
    - apply recovery_facts.app_icon_conduct.
    - apply recovery_facts.app_icon_conduct. }
  split; [each_script|].
  split; [each_script|].
  split; [done|].
  unfold all_scripts, one_handler, capture_scripts, database_scripts, no_handler,
    handler_per_step. simpl.
  repeat (apply NoDup_cons; split; [rewrite ?elem_of_cons, elem_of_nil; naive_solver|]).
  apply NoDup_nil_2.
Qed.

(** * Further properties of the scripts *)

(** ** The database scripts *)

Module db_more.
Import Db DbObs.

Lemma no_commit_keeps_durable t : forall ss,
  Forall (fun ev => is_commit ev = false) t -> durable (foldl db_step ss t) = durable ss.
Proof.
  induction t as [|ev t IH]; intros ss H; simpl; [done|].
  inversion H as [|? ? Hev Ht]; subst. rewrite IH by done.
  destruct ev as [[]|[]| |]; try done.
Qed.

Lemma existsb_none {A} (P : A -> bool) (l : list A) :
  Forall (fun x => P x = false) l -> existsb P l = false.
Proof. induction 1 as [|x l Hx _ IH]; simpl; [done|]. by rewrite Hx, IH. Qed.

Lemma unmodified_no_commit t :
  Forall (fun ev => modifies ev = false) t -> Forall (fun ev => is_commit ev = false) t.
Proof. intros H. eapply Forall_impl; [exact H|]. by intros [[]|[]| |]. Qed.

Lemma check_tables_reads w :
  emits (fun ev => modifies ev = false) (check_tables.check_tables w).
Proof. unfold check_tables.check_tables. emits_tac. Qed.

Lemma check_user_profiles_reads w :
  emits (fun ev => modifies ev = false) (check_user_profiles.check_user_profiles w).
Proof.
  unfold check_user_profiles.check_user_profiles, check_user_profiles.show_columns. emits_tac.
Qed.

(** *** [conn.close()] and the result *)









(** *** What is committed *)

(** The part of the [try] that follows [conn.commit()]. *)
Lemma after_commit_no_commit w :
  emits (fun ev => is_commit ev = false)
    (print "[SUCCESS] Migration completed successfully!";;
     print (nl +:+ "Verifying columns...");;
     execute w run_migration.verification;;
     results ← fetchall w;
     match results with
     | _ :: _ =>
         print (nl +:+ "[SUCCESS] Columns verified:");;
         run_migration.print_columns results
     | [] => print "[WARNING] Could not verify columns"
     end;;
     cursor_close w;;
     connection_close w;;
     mret true).
Proof. unfold run_migration.print_columns. emits_tac. Qed.

Lemma committed_app t1 t2 : committed (t1 ++ t2) = committed t1 || committed t2.
Proof. apply existsb_app. Qed.

Lemma committed_none t : Forall (fun ev => is_commit ev = false) t -> committed t = false.
Proof. apply existsb_none. Qed.

Ltac ask_server w :=
  repeat match goal with
         | |- context [raises w ?h ?c] => destruct (raises w h c); simpl
         end.

(** Connect, run [q], commit, then a tail that does not commit: the
    schema is the one [q] leaves when the commit went through, and the
    old one otherwise. *)
Lemma commit_then w (q : statement) (tail : M bool) (a b : string) (line : exn -> string)
    (s : schema) :
  emits (fun ev => is_commit ev = false) tail ->
  let m := try_except
             (print a;; connect w;; cursor w;; print b;; execute w q;; commit w;; tail)
             (fun e => print (line e);; mret false) in
  schema_after (log_of m) s = if committed (log_of m) then exec q s else s.
Proof.
  intros Htail. simpl. unfold log_of, run, try_except. autounfold with api.
  unfold mbind, M_bind, bind, perform, print. simpl.
  ask_server w; try reflexivity.
  match goal with |- context [tail ?h] => specialize (Htail h); destruct (tail h) as [t [r|e]] end;
    simpl in *; unfold schema_after, session_after, committed; simpl.
  - exact (no_commit_keeps_durable t _ Htail).
  - rewrite foldl_app. simpl. exact (no_commit_keeps_durable t _ Htail).
Qed.

Lemma migration_commit w (s : schema) :
  schema_after (log_of (run_migration.run_migration w)) s =
  if committed (log_of (run_migration.run_migration w))
  then exec run_migration.migration s else s.
Proof. apply commit_then, after_commit_no_commit. Qed.


(** *** What the migration adds *)

Lemma add_columns_appends new : forall cols,
  exists added,
    add_columns new cols = cols ++ added /\
    Forall (fun c => is_nullable c = true /\ (col_name c, data_type c) ∈ new /\
                     has_column (col_name c) cols = false) added.
Proof.
  unfold add_columns. induction new as [|x new IH]; intros cols; simpl.
  - exists []. by rewrite app_nil_r.
  - destruct (IH (add_column cols x)) as (added & -> & Hadded). unfold add_column in *.
    destruct (has_column x.1 cols) eqn:Hx.
    + exists added. split; [done|]. eapply Forall_impl; [exact Hadded|].
      intros c (? & ? & ?). split_and!; [done|by right|done].
    + exists (Column x.1 x.2 true :: added). split; [by rewrite <- app_assoc|].
      constructor.
      * simpl. split_and!; [done| |done]. destruct x. by left.
      * eapply Forall_impl; [exact Hadded|]. intros c (? & ? & Hc).
        rewrite db_facts.has_column_app in Hc. apply orb_false_elim in Hc as [? _].
        split_and!; [done|by right|done].
Qed.

(** *** What the verification prints *)

Lemma print_columns_log rows : forall h,
  Forall (fun row => length row = 2%nat) rows ->
  run_migration.print_columns rows h = (column_line <$> rows, Ok tt).
Proof.
  induction rows as [|row rows IH]; intros h H; [done|].
  inversion H as [|? ? Hrow Hrows]; subst.
  destruct row as [|name [|type [|]]]; try done.
  change (run_migration.print_columns ([name; type] :: rows) h)
    with ((print ("  - " +:+ name +:+ ": " +:+ type) ≫=
           fun _ => run_migration.print_columns rows) h).
  rewrite run_bind. simpl. by rewrite IH.
Qed.

Lemma insert_sorted_elem x y rows : x ∈ insert_sorted y rows <-> x = y \/ x ∈ rows.
Proof.
  induction rows as [|z rows IH]; simpl; [set_solver|].
  destruct (String.leb _ _); set_solver.
Qed.

Lemma order_rows_elem x rows : x ∈ order_rows rows <-> x ∈ rows.
Proof.
  induction rows as [|y rows IH]; simpl; [done|].
  rewrite insert_sorted_elem, IH. set_solver.
Qed.

Lemma verification_row (s : schema) cols c :
  s !! "workout_plans" = Some cols -> c ∈ cols -> col_name c ∈ new_columns ->
  [col_name c; data_type c] ∈ rows_of run_migration.verification s.
Proof.
  intros Hs Hc Hname. simpl. rewrite order_rows_elem, Hs. simpl.
  apply list_elem_of_fmap. exists c. split; [done|]. by apply list_elem_of_filter.
Qed.

Lemma has_column_elem name cols :
  has_column name cols = true <-> exists c, c ∈ cols /\ col_name c = name.
Proof.
  unfold has_column. rewrite existsb_exists. split.
  - intros (c & Hc & Heq). exists c. split; [by apply list_elem_of_In|by apply String.eqb_eq].
  - intros (c & Hc & Heq). exists c. split; [by apply list_elem_of_In|by apply String.eqb_eq].
Qed.

#[local] Arguments rows_of : simpl never.
#[local] Arguments exec : simpl never.
#[local] Arguments run_migration.print_columns : simpl never.

Lemma migration_log (s : schema) :
  is_Some (s !! "workout_plans") ->
  run (run_migration.run_migration (postgres s true)) =
  (migrated_log (rows_of run_migration.verification (exec run_migration.migration s)),
   Ok true).
Proof.
  intros Htable.
  pose proof (db_facts.verification_rows (exec run_migration.migration s)) as Hrows.
  unfold run, run_migration.run_migration, try_except. autounfold with api.
  unfold mbind, M_bind, bind, perform, print.
  simpl. rewrite bool_decide_true by done. simpl.
  change (exec run_migration.verification (exec run_migration.migration s))
    with (exec run_migration.migration s).
  unfold migrated_log.
  destruct (rows_of run_migration.verification (exec run_migration.migration s))
    as [|row rows] eqn:E; [done|].
  rewrite print_columns_log by done. done.
Qed.


Lemma migrated_rows (s : schema) cols :
  s !! "workout_plans" = Some cols ->
  let rows := rows_of run_migration.verification (exec run_migration.migration s) in
  Forall (fun n => exists ty, [n; ty] ∈ rows) new_columns /\
  Forall (fun c => [col_name c; data_type c] ∈ rows)
         (filter (fun c => col_name c ∈ new_columns) cols).
Proof.
  intros Hs. simpl.
  set (new := [("cardio_recommendations", "jsonb"); ("nutrition_guidance", "jsonb")]).
  assert (exec run_migration.migration s !! "workout_plans" = Some (add_columns new cols))
    as Hs'.
  { unfold exec, run_migration.migration. rewrite Hs. apply lookup_insert_eq. }
  split.
  - pose proof (db_facts.add_columns_has new cols) as Hhas.
    assert (forall n, has_column n (add_columns new cols) = true ->
              n ∈ new_columns -> exists ty,
                [n; ty] ∈ rows_of run_migration.verification (exec run_migration.migration s))
      as Hrow.
    { intros n (c & Hc & <-)%has_column_elem Hn. exists (data_type c).
      by apply (verification_row _ (add_columns new cols)). }
    inversion Hhas as [|? ? H1 Hrest]; subst. inversion Hrest as [|? ? H2 _]; subst.
    unfold new_columns.
    apply Forall_cons_2; [apply Hrow; [exact H1|unfold new_columns; rewrite !elem_of_cons; auto]|].
    apply Forall_cons_2; [apply Hrow; [exact H2|unfold new_columns; rewrite !elem_of_cons; auto]|].
    apply Forall_nil_2.
  - apply Forall_forall. intros c [Hname Hc]%list_elem_of_filter.
    apply (verification_row _ (add_columns new cols)); [done| |done].
    destruct (add_columns_appends new cols) as (added & -> & _).
    apply elem_of_app. by left.
Qed.

Lemma migrated_log_lines rows row :
  row ∈ rows -> column_line row ∈ migrated_log rows.
Proof.
  intros Hrow. unfold migrated_log. destruct rows as [|r rows]; [by apply elem_of_nil in Hrow|].
  apply elem_of_app. right. apply elem_of_app. left. apply list_elem_of_further.
  by apply list_elem_of_fmap_2.
Qed.

Lemma migrated_log_verified rows :
  rows <> [] -> Printed (nl +:+ "[SUCCESS] Columns verified:") ∈ migrated_log rows.
Proof.
  intros Hne. unfold migrated_log. destruct rows as [|r rows]; [done|].
  apply elem_of_app. right. apply elem_of_app. left. apply list_elem_of_here.
Qed.

Lemma migrated_log_no_warning rows :
  rows <> [] -> Printed "[WARNING] Could not verify columns" ∉ migrated_log rows.
Proof.
  intros Hne. unfold migrated_log. destruct rows as [|r rows]; [done|].
  rewrite !not_elem_of_app. split_and!.
  - rewrite !not_elem_of_cons. split_and!; try done. apply not_elem_of_nil.
  - rewrite not_elem_of_cons. split; [done|].
    intros (row & Heq & _)%list_elem_of_fmap. unfold column_line in Heq. done.
  - rewrite !not_elem_of_cons. split_and!; try done. apply not_elem_of_nil.
Qed.

End db_more.

(** ** The icon scripts *)

Module icon_more.
Import Img IconLog IconInv IconObs icon_facts.

Lemma effects_app t1 t2 : effects (t1 ++ t2) = effects t1 ++ effects t2.
Proof. apply omap_app. Qed.

Lemma effects_within w outputs t :
  Forall (touches_within w outputs) t -> Forall (effect_within w outputs) (effects t).
Proof.
  induction 1 as [|ev t Hev _ IH]; [constructor|].
  change (ev :: t) with ([ev] ++ t). rewrite effects_app. by apply Forall_app.
Qed.

Ltac within_tac :=
  repeat lazymatch goal with
         | |- Forall _ [] => apply Forall_nil_2
         | |- Forall _ (_ :: _) =>
             apply Forall_cons_2;
             [unfold touches_within, svg_outputs, effects; simpl;
              rewrite ?pip_no_export; simpl;
              repeat (apply Forall_cons_2;
                      [first [reflexivity | simpl; rewrite !elem_of_cons; auto]|]);
              apply Forall_nil_2|]
         end.

Lemma method1_within w : emits (touches_within w svg_outputs) (process_svg_icon.method1 w).
Proof.
  intros h. unfold process_svg_icon.method1. open_script. ask w;
  try match goal with |- context [exn_kind ?e] => destruct (exn_kind e); simpl end;
  within_tac.
Qed.

Lemma method2_within w : emits (touches_within w svg_outputs) (process_svg_icon.method2 w).
Proof. intros h. unfold process_svg_icon.method2. open_script. ask w; within_tac. Qed.

Lemma method3_within w : emits (touches_within w svg_outputs) (process_svg_icon.method3 w).
Proof.
  intros h. unfold process_svg_icon.method3, process_svg_icon.inkscape_paths.
  cbn [process_svg_icon.find_inkscape]. open_script. ask w; within_tac.
Qed.

Lemma method4_within w : emits (touches_within w svg_outputs) (process_svg_icon.method4 w).
Proof.
  intros h. unfold process_svg_icon.method4. open_script.
  ask w; within_tac.
Qed.

Lemma svg_main_within w : emits (touches_within w svg_outputs) (process_svg_icon.main w).
Proof.
  unfold process_svg_icon.main, process_svg_icon.convert_svg.
  assert (forall s, touches_within w svg_outputs (Printed s : event)) as Hp
    by (intros; constructor).
  assert (forall e, touches_within w svg_outputs (Traceback e : event)) as Ht
    by (intros; constructor).
  repeat first
    [ apply method1_within | apply method2_within | apply method3_within
    | apply method4_within
    | apply emits_bind; [|intros ?]
    | apply (emits_ret _ true)
    | match goal with |- emits _ (if ?c then _ else _) => destruct c end
    | progress emits_tac ].
  all: try (unfold touches_within; simpl; constructor).
Qed.


(** *** The search for Inkscape *)

Lemma find_inkscape_cons w path rest h :
  process_svg_icon.find_inkscape w (path :: rest) h =
  match raises w h (PathExists path) with
  | Some e => ([Failed (PathExists path) e], Raised e)
  | None =>
      if exists_at w h path
      then ([Did (PathExists path) (RBool true)], Ok (Some path))
      else let '(t, r) := process_svg_icon.find_inkscape w rest
                            (h ++ [Did (PathExists path) (RBool false)]) in
           (Did (PathExists path) (RBool false) :: t, r)
  end.
Proof.
  cbn [process_svg_icon.find_inkscape]. rewrite run_bind.
  unfold path_exists, perform. destruct (raises w h (PathExists path)); [done|].
  destruct (exists_at w h path); simpl; [done|].
  by destruct (process_svg_icon.find_inkscape w rest _).
Qed.

Lemma find_inkscape_first w paths : forall h,
  match process_svg_icon.find_inkscape w paths h with
  | (t, Ok (Some p)) =>
      exists before after,
        paths = before ++ p :: after /\
        t = not_there before ++ [Did (PathExists p) (RBool true)]
  | (t, Ok None) => t = not_there paths
  | (t, Raised e) =>
      exists before q after,
        paths = before ++ q :: after /\
        t = not_there before ++ [Failed (PathExists q) e]
  end.
Proof.
  induction paths as [|path rest IH]; intros h; [done|].
  rewrite find_inkscape_cons.
  destruct (raises w h (PathExists path)) as [e|].
  { by exists [], path, rest. }
  destruct (exists_at w h path).
  { by exists [], rest. }
  specialize (IH (h ++ [Did (PathExists path) (RBool false)])).
  destruct (process_svg_icon.find_inkscape w rest _) as [t [[p|]|e]].
  - destruct IH as (before & after & -> & ->). by exists (path :: before), after.
  - by rewrite IH.
  - destruct IH as (before & q & after & -> & ->). by exists (path :: before), q, after.
Qed.

(** *** The exit status of process_svg_icon.py *)

Lemma svg_main_end w :
  match end_of (process_svg_icon.main w) with
  | Ok status =>
      status = 0 /\ svg_outputs ⊆ written (log_of (process_svg_icon.main w)) /\
        Did (PathExists process_svg_icon.output_icon) (RBool true)
          ∈ log_of (process_svg_icon.main w)
      \/ status = 1 /\
         (Printed "CONVERSION FAILED - Manual Steps Required"
            ∈ log_of (process_svg_icon.main w) \/
          Printed (nl +:+ "[ERROR] Output file not created")
            ∈ log_of (process_svg_icon.main w))
  | Raised e =>
      exists t c, log_of (process_svg_icon.main w) = t ++ [Failed c e] /\
                  c ∈ verification_calls
  end.
Proof.
  unfold end_of, log_of, run, process_svg_icon.main. rewrite run_bind.
  pose proof (convert_svg_delivers w []) as Hc.
  destruct (process_svg_icon.convert_svg w []) as [t1 [[|]|e]]; [| |done].
  - open_script. unfold verification_calls.
    ask w; rewrite ?app_nil_r.
    all: try (match goal with |- ex _ => idtac end;
              eexists _, _; split;
              [first [reflexivity | exact (app_assoc _ [_] [_])
                     | exact (app_assoc _ [_; _] [_]) | exact (app_assoc _ [_; _; _] [_])]|];
              rewrite !elem_of_cons; auto).
    + left. split; [done|]. rewrite written_app. split; [set_solver|].
      rewrite elem_of_app. right. apply list_elem_of_here.
    + right. split; [done|]. right. rewrite elem_of_app. right. set_solver.
  - simpl. right. split; [done|]. left. rewrite elem_of_app. right. set_solver.
Qed.


(** *** The crop of process_app_icon.py *)

Lemma app_crops (w : world) :
  Forall (fun x => x.2 = centre_box (im_size (opened w [] process_app_icon.input_path)) /\
                   im_size x.1 = im_size (opened w [] process_app_icon.input_path))
         (crops (log_of (process_app_icon.main w))).
Proof.
  unfold log_of, run, process_app_icon.main, process_app_icon.to_rgb.
  autounfold with api. unfold mbind, M_bind, bind, perform, item.
  simpl.
  destruct (raises w [] _); simpl; [constructor|].
  set (src := opened w [] process_app_icon.input_path).
  destruct (im_size src) as [width height] eqn:Hsize.
  unfold centre_box, split_image, band_names.
  destruct (String.eqb (im_mode src) "RGBA") eqn:Hrgba; simpl;
    [|destruct (String.eqb (im_mode src) "RGB") eqn:Hrgb; simpl];
    ask w; repeat constructor; simpl; done.
Qed.

Lemma centre_box_centred (size : Z * Z) :
  let '(x0, y0, x1, y1) := centre_box size in
  x1 - x0 = Z.min size.1 size.2 /\ y1 - y0 = Z.min size.1 size.2 /\
  0 <= (size.1 - x1) - x0 <= 1 /\ 0 <= (size.2 - y1) - y0 <= 1 /\
  (x0 = 0 /\ x1 = size.1 \/ y0 = 0 /\ y1 = size.2).
Proof.
  destruct size as [width height]. unfold centre_box. simpl.
  pose proof (Z.div_mod (width - width `min` height) 2 ltac:(done)) as Hw.
  pose proof (Z.mod_pos_bound (width - width `min` height) 2 ltac:(done)) as Hw'.
  pose proof (Z.div_mod (height - width `min` height) 2 ltac:(done)) as Hh.
  pose proof (Z.mod_pos_bound (height - width `min` height) 2 ltac:(done)) as Hh'.
  destruct (Z.min_spec width height) as [[Hlt Hmin]|[Hle Hmin]]; rewrite Hmin in *.
  - rewrite Z.sub_diag in *. change (0 `div` 2) with 0 in *. lia.
  - rewrite (Z.sub_diag height) in *. change (0 `div` 2) with 0 in *. lia.
Qed.


Lemma app_crops_once (w : world) :
  (forall h c, raises w h c = None) ->
  length (crops (log_of (process_app_icon.main w))) = 1%nat.
Proof.
  intros Hcalm.
  unfold log_of, run, process_app_icon.main, process_app_icon.to_rgb.
  autounfold with api. unfold mbind, M_bind, bind, perform, item.
  simpl. rewrite Hcalm.
  set (src := opened w [] process_app_icon.input_path).
  unfold split_image, band_names.
  destruct (im_size src) as [width height] eqn:Hsize.
  destruct (String.eqb (im_mode src) "RGBA") eqn:Hrgba; simpl;
    [|destruct (String.eqb (im_mode src) "RGB") eqn:Hrgb; simpl].
  all: repeat (rewrite Hcalm; simpl).
  all: done.
Qed.

End icon_more.


(** ** The font checks *)

Module font_more.
Import Browser BrowserLog FontObs.

Lemma check_ports_cons w port rest h :
  check_fonts.try_ports w (port :: rest) h =
  match raises w h (Goto (port_url port) None (Some 10000)) with
  | None => ([Did (Goto (port_url port) None (Some 10000)) RNone], Ok true)
  | Some e =>
      let '(t, r) := check_fonts.try_ports w rest (h ++ refused (port, e)) in
      (refused (port, e) ++ t, r)
  end.
Proof.
  cbn [check_fonts.try_ports]. rewrite run_bind. unfold try_except.
  autounfold with api. unfold mbind, M_bind, bind, perform, print. simpl.
  fold (port_url port).
  destruct (raises w h (Goto (port_url port) None (Some 10000))) as [e|]; simpl; [|done].
  unfold refused. simpl.
  by destruct (check_fonts.try_ports w rest _).
Qed.

Lemma check_ports_run w ports : forall h,
  exists failures rest,
    ports = (fst <$> failures) ++ rest /\
    (check_fonts.try_ports w ports h = (concat (refused <$> failures), Ok false) /\ rest = []
     \/ exists p rest',
          rest = p :: rest' /\
          check_fonts.try_ports w ports h =
          (concat (refused <$> failures) ++ [Did (Goto (port_url p) None (Some 10000)) RNone],
           Ok true)).
Proof.
  induction ports as [|port ports IH]; intros h.
  { exists [], []. split; [done|]. by left. }
  rewrite check_ports_cons.
  destruct (raises w h (Goto (port_url port) None (Some 10000))) as [e|].
  - destruct (IH (h ++ refused (port, e))) as (failures & rest & -> & Hrun).
    exists ((port, e) :: failures), rest. split; [done|].
    destruct Hrun as [[-> ->]|(p & rest' & -> & ->)].
    + left. done.
    + right. exists p, rest'. split; [done|]. done.
  - exists [], (port :: ports). split; [done|]. right. by exists port, ports.
Qed.


Lemma connected_app t1 t2 : connected (t1 ++ t2) = connected t1 || connected t2.
Proof. apply existsb_app. Qed.

Lemma shot_attempts_app t1 t2 : shot_attempts (t1 ++ t2) = shot_attempts t1 ++ shot_attempts t2.
Proof. apply omap_app. Qed.

Lemma refused_quiet failures :
  connected (concat (refused <$> failures)) = false /\
  shot_attempts (concat (refused <$> failures)) = [] /\
  page_created (concat (refused <$> failures)) = false /\
  closes (concat (refused <$> failures)) = false.
Proof. induction failures as [|[p e] failures IH]; [done|]. csimpl. done. Qed.

#[local] Arguments check_fonts.try_ports : simpl never.

Ltac ask_page w :=
  repeat match goal with
         | |- context [Browser.raises w ?h ?c] => destruct (Browser.raises w h c); simpl
         end.

Lemma check_fonts_log w :
  let t := log_of (check_fonts.check_app_fonts w) in
  match connected t, page_created t with
  | true, _ => True
  | false, true =>
      shot_attempts t = [] /\
      Printed (nl +:+ "Could not connect to Expo app.") ∈ t /\
      closes t = true
  | false, false => shot_attempts t = []
  end.
Proof.
  unfold log_of, run, check_fonts.check_app_fonts.
  rewrite browser_facts.with_playwright_log.
  autounfold with api. unfold mbind, M_bind, bind, perform, print. simpl.
  ask_page w; try done.
  match goal with
  | |- context [check_fonts.try_ports w ?ports ?h] =>
      destruct (check_ports_run w ports h) as (failures & rest & _ & Hrun)
  end.
  destruct (refused_quiet failures) as (Hc & Hs & Hp & Hcl).
  destruct Hrun as [[-> _]|(p & rest' & _ & ->)]; simpl.
  - ask_page w; unfold page_created, closes in *; simpl;
      rewrite ?connected_app, ?shot_attempts_app, ?existsb_app, ?Hc, ?Hs, ?Hp, ?Hcl; simpl.
    all: split_and?; try done.
    all: do 3 apply list_elem_of_further; rewrite !elem_of_app; left; right;
      apply list_elem_of_here.
  - ask_page w; rewrite <- ?app_assoc, ?connected_app; simpl;
      rewrite ?connected_app, ?Hc; simpl; by rewrite ?orb_true_r.
Qed.


(** *** test_fonts.py *)

Lemma test_ports_cons w port rest h :
  test_fonts.try_ports w (port :: rest) h =
  match Browser.raises w h (Goto (port_url port) None (Some 5000)) with
  | None => ([Did (Goto (port_url port) None (Some 5000)) RNone], Ok tt)
  | Some e =>
      let '(t, r) := test_fonts.try_ports w rest (h ++ refused_silently (port, e)) in
      (refused_silently (port, e) ++ t, r)
  end.
Proof.
  cbn [test_fonts.try_ports]. rewrite run_bind. unfold try_except.
  autounfold with api. unfold mbind, M_bind, bind, perform, print. simpl.
  fold (port_url port).
  destruct (Browser.raises w h (Goto (port_url port) None (Some 5000))) as [e|]; simpl; [|done].
  unfold refused_silently. simpl. rewrite ?app_nil_r.
  by destruct (test_fonts.try_ports w rest _).
Qed.

Lemma test_ports_run w ports : forall h,
  exists failures rest,
    ports = (fst <$> failures) ++ rest /\
    (test_fonts.try_ports w ports h = (concat (refused_silently <$> failures), Ok tt)
     /\ rest = []
     \/ exists p rest',
          rest = p :: rest' /\
          test_fonts.try_ports w ports h =
          (concat (refused_silently <$> failures)
             ++ [Did (Goto (port_url p) None (Some 5000)) RNone], Ok tt)).
Proof.
  induction ports as [|port ports IH]; intros h.
  { exists [], []. split; [done|]. by left. }
  rewrite test_ports_cons.
  destruct (Browser.raises w h (Goto (port_url port) None (Some 5000))) as [e|].
  - destruct (IH (h ++ refused_silently (port, e))) as (failures & rest & -> & Hrun).
    exists ((port, e) :: failures), rest. split; [done|].
    destruct Hrun as [[-> ->]|(p & rest' & -> & ->)].
    + left. done.
    + right. exists p, rest'. split; [done|]. done.
  - exists [], (port :: ports). split; [done|]. right. by exists port, ports.
Qed.

Lemma refused_silently_quiet failures :
  connected (concat (refused_silently <$> failures)) = false /\
  shots (concat (refused_silently <$> failures)) = [] /\
  closes (concat (refused_silently <$> failures)) = false.
Proof. induction failures as [|[p e] failures IH]; [done|]. csimpl. done. Qed.

#[local] Arguments test_fonts.try_ports : simpl never.

Lemma test_fonts_log w :
  only_navigation_fails w ->
  end_of (test_fonts.test_fonts w) = Ok tt /\
  shots (log_of (test_fonts.test_fonts w))
    = ["C:\Users\derri\HeirclarkHealthAppNew\font_test_result.png"] /\
  closes (log_of (test_fonts.test_fonts w)) = true.
Proof.
  intros Hw. unfold end_of, log_of, run, test_fonts.test_fonts.
  rewrite browser_facts.with_playwright_log, browser_facts.with_playwright_end.
  autounfold with api. unfold mbind, M_bind, bind, perform, print. simpl.
  repeat (rewrite Hw by done; simpl).
  match goal with
  | |- context [test_fonts.try_ports w ?ports ?h] =>
      destruct (test_ports_run w ports h) as (failures & rest & Hports & Hrun)
  end.
  destruct (refused_silently_quiet failures) as (Hc & Hs & Hcl).
  destruct Hrun as [[-> ->]|(p & rest' & -> & ->)]; simpl.
  - repeat (rewrite Hw by done; simpl).
    unfold closes. rewrite <- !app_assoc, !capture_facts.shots_app, !existsb_app, Hs. simpl.
    split_and!; try done. by rewrite !orb_true_r.
  - repeat (rewrite Hw by done; simpl).
    unfold closes. rewrite <- !app_assoc, !capture_facts.shots_app, !existsb_app, Hs. simpl.
    split_and!; try done. by rewrite !orb_true_r.
Qed.

End font_more.

(** ** The crawler *)

Module crawl_more.
Import Browser BrowserLog crawl_heirclark_website crawl crawl_facts CrawlObs.

(** *** The text operations *)

Lemma lstrip_drop s : exists k, lstrip s = drop k s.
Proof.
  induction s as [|c s [k IH]]; [by exists 0%nat|]. simpl.
  destruct (py_isspace c); [by exists (S k)|by exists 0%nat].
Qed.

Lemma lstrip_starts_clean s : starts_clean (lstrip s).
Proof.
  unfold starts_clean. induction s as [|c s IH]; [done|]. simpl.
  destruct (py_isspace c) eqn:E; [done|]. simpl. done.
Qed.

Lemma last_drop {A} (l : list A) k x :
  last (drop k l) = Some x -> last l = Some x.
Proof.
  revert k. induction l as [|y l IH]; intros k; [by rewrite drop_nil|].
  destruct k as [|k]; [done|]. simpl. intros H. apply IH in H.
  destruct l; [done|]. done.
Qed.

Lemma lstrip_ends_clean s : ends_clean s -> ends_clean (lstrip s).
Proof.
  unfold ends_clean. intros H. destruct (lstrip_drop s) as [k ->].
  destruct (last (drop k s)) as [x|] eqn:E; [|done].
  apply last_drop in E. by rewrite E in H.
Qed.

Lemma starts_clean_reverse s : ends_clean s -> starts_clean (reverse s).
Proof. unfold starts_clean, ends_clean. by rewrite head_reverse. Qed.

Lemma ends_clean_reverse s : starts_clean s -> ends_clean (reverse s).
Proof. unfold starts_clean, ends_clean. by rewrite last_reverse. Qed.

Lemma strip_clean s : starts_clean (strip s) /\ ends_clean (strip s).
Proof.
  unfold strip. split.
  - apply starts_clean_reverse, lstrip_ends_clean, ends_clean_reverse, lstrip_starts_clean.
  - apply ends_clean_reverse, lstrip_starts_clean.
Qed.

Lemma lstrip_ascii s : ascii_only s -> ascii_only (lstrip s).
Proof. intros H. destruct (lstrip_drop s) as [k ->]. by apply Forall_drop. Qed.

Lemma strip_ascii s : ascii_only s -> ascii_only (strip s).
Proof.
  intros H. unfold strip.
  by apply Forall_reverse, lstrip_ascii, Forall_reverse, lstrip_ascii.
Qed.

Lemma ascii_ignore_ascii s : ascii_only (ascii_ignore s).
Proof.
  unfold ascii_only, ascii_ignore. apply Forall_forall. by intros c [? _]%list_elem_of_filter.
Qed.

Lemma card_text_ok txt cls :
  card_ok (ElementEntry (take 200%nat (strip (ascii_ignore txt))) cls).
Proof.
  unfold card_ok. simpl. split_and!.
  - rewrite length_take. lia.
  - apply Forall_take, strip_ascii, ascii_ignore_ascii.
  - destruct (strip_clean (ascii_ignore txt)) as [Hs _]. unfold starts_clean in *.
    by destruct (strip (ascii_ignore txt)).
Qed.

Lemma button_text_ok txt cls :
  button_ok (ElementEntry (strip (ascii_ignore txt)) cls).
Proof.
  unfold button_ok. simpl. destruct (strip_clean (ascii_ignore txt)).
  split_and!; [apply strip_ascii, ascii_ignore_ascii|done..].
Qed.


(** *** The entries of a page *)

Lemma cards_loop_ok w cs : forall acc h t l,
  fold_each cs (card_entry w) acc h = (t, Ok l) ->
  exists new, l = acc ++ new /\ (length new <= length cs)%nat /\ Forall card_ok new.
Proof.
  induction cs as [|c cs IH]; intros acc h t l H; simpl in H.
  - apply (ret_ok (C:=call) (R:=reply)) in H as [-> ->]. exists []. by rewrite app_nil_r.
  - change (bind ?m ?f) with (m ≫= f) in H. open_bind H.
    apply IH in H as (new & -> & Hlen & Hnew).
    apply card_entry_inv in Hstep as [->|(txt & cls & -> & _)].
    + exists new. split_and!; [done|simpl; lia|done].
    + exists (ElementEntry (take 200%nat (strip (ascii_ignore txt))) cls :: new).
      split_and!; [by rewrite <- app_assoc|simpl; lia|].
      constructor; [apply card_text_ok|done].
Qed.

Lemma buttons_loop_ok w cs : forall acc h t l,
  fold_each cs (button_entry w) acc h = (t, Ok l) ->
  exists new, l = acc ++ new /\ (length new <= length cs)%nat /\ Forall button_ok new.
Proof.
  induction cs as [|c cs IH]; intros acc h t l H; simpl in H.
  - apply (ret_ok (C:=call) (R:=reply)) in H as [-> ->]. exists []. by rewrite app_nil_r.
  - change (bind ?m ?f) with (m ≫= f) in H. open_bind H.
    apply IH in H as (new & -> & Hlen & Hnew).
    apply button_entry_inv in Hstep as [->|(txt & cls & -> & _)].
    + exists new. split_and!; [done|simpl; lia|done].
    + exists (ElementEntry (strip (ascii_ignore txt)) cls :: new).
      split_and!; [by rewrite <- app_assoc|simpl; lia|].
      constructor; [apply button_text_ok|done].
Qed.

Ltac ask_page w :=
  repeat match goal with
         | |- context [Browser.raises w ?h ?c] => destruct (Browser.raises w h c); simpl
         | |- context [found w ?h ?s] => destruct (found w h s); simpl
         end.

Lemma test_log_meal_adds w comps h :
  (test_log_meal w comps h).2 = Ok comps \/
  exists b,
    (test_log_meal w comps h).2 = Ok (comps ++ [ComponentEntry "Log Meal Modal" b "modal"]).
Proof.
  unfold test_log_meal, try_except. autounfold with api.
  unfold mbind, M_bind, bind, perform, print. simpl.
  ask_page w; first [by left | right; by eexists].
Qed.

Lemma test_date_selector_adds w comps h :
  (test_date_selector w comps h).2 = Ok comps \/
  (test_date_selector w comps h).2 = Ok (comps ++ [ComponentEntry "Date Selector" true "calendar"]).
Proof.
  unfold test_date_selector, try_except. autounfold with api.
  unfold mbind, M_bind, bind, perform, print. simpl.
  ask_page w; try (by left).
  destruct (found_all w h dates_selector) as [|? [|? [|? ?]]]; simpl; try (by left).
  ask_page w; first [by left | by right].
Qed.

Lemma test_sync_adds w comps h :
  (test_sync w comps h).2 = Ok comps \/
  (test_sync w comps h).2 = Ok (comps ++ [ComponentEntry "Sync Button" true "button"]).
Proof.
  unfold test_sync, try_except. autounfold with api.
  unfold mbind, M_bind, bind, perform, print. simpl.
  ask_page w; first [by left | by right].
Qed.


Lemma visit_page_ok w u h t pd : visit_page w u h = (t, Ok pd) -> page_ok pd.
Proof.
  unfold visit_page. intros H.
  do 2 open_call H. called H as page_title. open_call H.
  called H as cards.
  bound H as tc card_list Hcards.
  called H as buttons.
  bound H as tb button_list Hbuttons.
  called H as inputs.
  bound H as tf form_list Hforms.
  called H as modals.
  bound H as tm modal_list Hmodals.
  bound H as t1 comps1 Hmeal. bound H as t2 comps2 Hdate. bound H as t3 comps3 Hsync.
  apply ret_ok in H as [-> ->].
  apply cards_loop_ok in Hcards as (cs & -> & Hclen & Hcards).
  apply buttons_loop_ok in Hbuttons as (bs & -> & Hblen & Hbuttons).
  rewrite length_take in Hclen, Hblen.
  match type of Hmeal with
  | test_log_meal _ _ ?h0 = _ =>
      pose proof (test_log_meal_adds w [] h0) as Hm; rewrite Hmeal in Hm
  end.
  match type of Hdate with
  | test_date_selector _ _ ?h0 = _ =>
      pose proof (test_date_selector_adds w comps1 h0) as Hd; rewrite Hdate in Hd
  end.
  match type of Hsync with
  | test_sync _ _ ?h0 = _ =>
      pose proof (test_sync_adds w comps2 h0) as Hs; rewrite Hsync in Hs
  end.
  simpl in Hm, Hd, Hs. unfold page_ok, texts_ok, interactions_ok. simpl.
  split_and!; [lia|lia|done|done| | |done].
  - destruct Hm as [[= ->]|[b [= ->]]], Hd as [[= ->]|[= ->]], Hs as [[= ->]|[= ->]];
      unfold component_names; simpl;
      repeat first [apply sublist_nil_l | apply sublist_skip | apply sublist_cons].
  - destruct Hm as [[= ->]|[b [= ->]]], Hd as [[= ->]|[= ->]], Hs as [[= ->]|[= ->]];
      simpl; repeat (apply Forall_cons_2; [unfold component_ok; simpl; naive_solver|]);
      apply Forall_nil_2.
Qed.

(** Every page the loop records is well-formed. *)
Lemma loop_pages_ok w urls h :
  exists seen res, (crawl_loop w urls h).2 = Ok (seen, res) /\ Forall page_ok (pages res).
Proof.
  destruct (loop_run w urls h) as (t & res & vs & Heq & _ & _ & Hv & Hp & _).
  exists (list_to_set urls), res. rewrite Heq. split; [done|].
  rewrite Hp. apply Forall_forall. intros pd (v & Hin & Hpage)%list_elem_of_omap.
  rewrite Forall_forall in Hv. destruct (Hv v Hin) as [Hvisit _].
  unfold page_of in Hpage. destruct (v_end v) as [pd'|] eqn:Hend; [|done].
  injection Hpage as ->. rewrite ?Hend in Hvisit. by apply visit_page_ok in Hvisit.
Qed.

Lemma crawler_pages_ok w :
  match end_of (crawl_heirclark w) with
  | Ok res => Forall page_ok (pages res)
  | Raised _ => True
  end.
Proof.
  destruct (end_of (crawl_heirclark w)) as [res|e] eqn:Hend; [|done].
  apply crawler_end in Hend as (tl & seen & res_l & Hl & -> & _).
  destruct (loop_pages_ok w pages_to_visit crawler_setup) as (seen' & res' & Heq & Hok).
  rewrite Hl in Heq. by injection Heq as <- <-.
Qed.


(** *** A text without ASCII characters *)

Lemma lstrip_id s : Forall (fun c => py_isspace c = false) s -> lstrip s = s.
Proof. destruct 1 as [|c s Hc _]; [done|]. simpl. by rewrite Hc. Qed.

Lemma strip_id s : Forall (fun c => py_isspace c = false) s -> strip s = s.
Proof.
  intros H. unfold strip. rewrite (lstrip_id s) by done.
  rewrite lstrip_id by (by apply Forall_reverse). apply reverse_involutive.
Qed.

Lemma ascii_ignore_none s : Forall (fun c => (128 <= c)%N) s -> ascii_ignore s = [].
Proof.
  unfold ascii_ignore. induction 1 as [|c s Hc _ IH]; [done|].
  unfold pystr in *. rewrite filter_cons_False by lia. done.
Qed.

Lemma card_entry_non_ascii w card acc h :
  (forall h c, Browser.raises w h c = None) ->
  text_of w h card <> [] ->
  Forall (fun c => (128 <= c)%N /\ py_isspace c = false) (text_of w h card) ->
  exists cls, (card_entry w card acc h).2 = Ok (acc ++ [ElementEntry [] cls]).
Proof.
  intros Hr Hne Htext.
  assert (Forall (fun c => py_isspace c = false) (text_of w h card)) as Hs
    by (eapply Forall_impl; [exact Htext|]; by intros c [_ ?]).
  assert (Forall (fun c => (128 <= c)%N) (text_of w h card)) as Ha
    by (eapply Forall_impl; [exact Htext|]; by intros c [? _]).
  unfold card_entry, try_except. autounfold with api.
  unfold mbind, M_bind, bind, perform. simpl. rewrite Hr. simpl.
  unfold has_text. rewrite strip_id, ascii_ignore_none by done.
  destruct (text_of w h card) as [|c txt] eqn:E; [done|]. simpl.
  rewrite Hr. simpl. by eexists.
Qed.

(** *** The feature checks *)

Lemma feature_from_mono t t' spec f : t ⊆ t' -> feature_from t spec f -> feature_from t' spec f.
Proof. intros Ht [? ?]. split; auto. Qed.

Lemma check_features_run w fs : forall acc h,
  exists t new interrupted k,
    check_features w fs acc h = (t, Ok (acc ++ new, interrupted)) /\
    Forall2 (feature_from t) (take k fs) new /\
    match interrupted with None => take k fs = fs | Some _ => True end.
Proof.
  induction fs as [|[name text] fs IH]; intros acc h.
  - exists [], [], None, 0%nat. simpl. by rewrite app_nil_r.
  - cbn [check_features]. rewrite run_bind. unfold try_except. autounfold with api.
    unfold mbind, M_bind, bind, perform. simpl.
    destruct (Browser.raises w h (IsVisible ("text=" +:+ quoted text))) as [e|]; simpl.
    + exists [Failed (IsVisible ("text=" +:+ quoted text)) e], [], (Some e), 0%nat.
      simpl. by rewrite !app_nil_r.
    + rewrite ?app_nil_r.
      set (ev := Did (IsVisible ("text=" +:+ quoted text))
                     (RBool (selector_visible w h ("text=" +:+ quoted text)))).
      destruct (IH (acc ++ [FeatureEntry name (selector_visible w h ("text=" +:+ quoted text))])
                   (h ++ [ev]))
        as (t & new & interrupted & k & -> & Hnew & Hk).
      exists (ev :: t),
        (FeatureEntry name (selector_visible w h ("text=" +:+ quoted text)) :: new),
        interrupted, (S k).
      split; [by rewrite <- app_assoc|]. split.
      * simpl. constructor.
        -- split; [done|]. apply list_elem_of_here.
        -- eapply Forall2_impl; [exact Hnew|]. intros spec f.
           apply feature_from_mono. set_solver.
      * destruct interrupted; [done|]. simpl. by rewrite Hk.
Qed.

#[local] Arguments check_features : simpl never.

Lemma analyze_features_run w res h :
  exists t new k,
    analyze_features w res h = (t, Ok (set_features (features res ++ new) res)) /\
    Forall2 (feature_from t) (take k features_to_check) new.
Proof.
  assert (res = set_features (features res ++ []) res) as Hres
    by (rewrite app_nil_r; by destruct res).
  unfold analyze_features, try_except, feature_error.
  autounfold with api. unfold mbind, M_bind, bind, perform, print. simpl.
  destruct (Browser.raises w h _) as [e|]; simpl.
  { eexists _, [], 0%nat. split; [by rewrite <- Hres|constructor]. }
  destruct (Browser.raises w _ (WaitForTimeout 2000)) as [e|]; simpl.
  { eexists _, [], 0%nat. split; [by rewrite <- Hres|constructor]. }
  match goal with
  | |- context [check_features w ?fs ?acc ?h'] =>
      destruct (check_features_run w fs acc h') as (t & new & interrupted & k & -> & Hnew & _)
  end.
  simpl. destruct interrupted as [e|]; simpl.
  - eexists _, new, k. split; [done|]. eapply Forall2_impl; [exact Hnew|].
    intros spec f. apply feature_from_mono. set_solver.
  - eexists _, new, k. split; [done|]. eapply Forall2_impl; [exact Hnew|].
    intros spec f. apply feature_from_mono. set_solver.
Qed.


(** *** The whole run *)

Lemma dumped_app t1 t2 : dumped (t1 ++ t2) = dumped t1 || dumped t2.
Proof. apply existsb_app. Qed.

Lemma not_dumped t : Forall (fun ev => dump_attempted ev = false) t -> dumped t = false.
Proof.
  induction 1 as [|ev t Hev _ IH]; [done|]. unfold dumped in *. simpl. rewrite IH.
  by destruct ev as [[]| | |].
Qed.

(** How a run of the script can go: the setup raises; or the loop and
    the analysis run, and then [browser.close()] raises, or the dump
    raises, or the results are dumped and returned. *)
Lemma crawler_shape_run w o (loop : M (gset string * results))
    (analyze : results -> M results) path :
  total loop -> (forall r, total (analyze r)) ->
  let m : M results :=
    r ← with_playwright (
      launch w false;; new_context w o;; new_page w;;
      '(_, r) ← loop;
      r ← analyze r;
      browser_close w;;
      mret r);
    json_dump w path r;;
    mret r in
  let setup := [Did (Launch false) RNone; Did (NewContext o) RNone; Did NewPage RNone] in
  (exists t e, run m = (t, Raised e) /\ Forall (fun ev => dump_attempted ev = false) t /\
               page_created t = false)
  \/ exists tl seen res_l ta res,
       loop setup = (tl, Ok (seen, res_l)) /\
       analyze res_l (setup ++ tl) = (ta, Ok res) /\
       ((exists e, run m = (setup ++ tl ++ ta ++
                              [Failed BrowserClose e; Did PlaywrightStop RNone], Raised e))
        \/ (exists e, run m = (setup ++ tl ++ ta ++
                                 [Did BrowserClose RNone; Did PlaywrightStop RNone;
                                  Failed (JsonDump path res) e], Raised e))
        \/ run m = (setup ++ tl ++ ta ++
                      [Did BrowserClose RNone; Did PlaywrightStop RNone;
                       Did (JsonDump path res) RNone], Ok res)).
Proof.
  intros Hloop Han. simpl.
  unfold run, with_playwright, try_finally.
  autounfold with api. unfold mbind, M_bind, bind, perform, mark. simpl.
  do 3 (capture_facts.ask_world;
        [left; eexists _, _; split; [reflexivity|]; split; [by repeat constructor|done]|]).
  right.
  match goal with
  | |- context [loop ?h] =>
      destruct (Hloop h) as [[seen res_l] Hl];
      destruct (loop h) as [tl rl] eqn:Hrun
  end.
  simpl in Hl. subst rl. simpl.
  match goal with
  | |- context [analyze res_l ?h] =>
      destruct (Han res_l h) as [res Ha];
      destruct (analyze res_l h) as [ta ra] eqn:Hrun'
  end.
  simpl in Ha. subst ra. simpl.
  exists tl, seen, res_l, ta, res. split; [done|]. split; [done|].
  capture_facts.ask_world.
  { left. eexists. by rewrite <- !app_assoc. }
  capture_facts.ask_world.
  { right. left. eexists. by rewrite <- !app_assoc. }
  right. right. by rewrite <- !app_assoc.
Qed.

Lemma loop_no_dump w urls st :
  emits (fun ev => dump_attempted ev = false) (crawl_pages w urls st).
Proof.
  unfold crawl_pages, crawl_url, visit_page, card_entry, button_entry, input_entry,
    modal_visibility, test_log_meal, test_date_selector, test_sync.
  emits_tac.
Qed.

Lemma analyze_no_dump w res :
  emits (fun ev => dump_attempted ev = false) (analyze_features w res).
Proof.
  unfold analyze_features, feature_error. apply emits_try_except; [|intros e; emits_tac].
  apply emits_bind; [emits_tac|intros _]. apply emits_bind; [emits_tac|intros _].
  apply emits_bind; [|intros [fs [e|]]; emits_tac].
  generalize (features res). generalize features_to_check.
  intros fs. induction fs as [|[name text] fs IH]; intros acc.
  - apply (emits_ret _ (acc, None)).
  - cbn [check_features]. apply emits_bind; [emits_tac|].
    intros [present|e]; [apply IH|apply (emits_ret _ (acc, Some e))].
Qed.


(** *** Screenshot files *)








End crawl_more.

(** ** diagnose_cards.py *)

Module capture_more.
Import Browser BrowserLog CaptureObs.

Lemma diagnose_shots present :
  end_of (diagnose_cards.capture_all_cards (quiet_world present)) = Ok tt /\
  shots (log_of (diagnose_cards.capture_all_cards (quiet_world present)))
    = overview_shots ++ shots_of_present present.
Proof.
  unfold end_of, log_of, run, diagnose_cards.capture_all_cards, diagnose_cards.expand_card,
    with_playwright, try_finally, try_except.
  autounfold with api. unfold mbind, M_bind, bind, perform, mark, print.
  unfold shots_of_present, card_steps. rewrite !filter_cons, filter_nil. simpl.
  destruct (present "text=Skip"), (present "text=DAILY FAT LOSS"),
    (present "text=WEEKLY PROGRESS"), (present "text=DINING OUT"),
    (present "text=WEARABLE SYNC"), (present "text=TODAY'S MEALS"); vm_compute; done.
Qed.

End capture_more.

(** ** comprehensive_diagnostic.py *)

Module diag_more.
Import Browser BrowserLog DiagObs.

Lemma seen_after_grows t : forall seen, seen ⊆ seen_after seen t.
Proof.
  induction t as [|ev t IH]; intros seen; simpl; [done|].
  destruct ev as [c r| | |]; try apply IH.
  destruct c; try apply IH. destruct r; try apply IH.
  destruct b; [|apply IH]. etrans; [|apply IH]. set_solver.
Qed.

Lemma unseen_clicks_app t1 : forall seen t2,
  unseen_clicks_from seen (t1 ++ t2) =
  unseen_clicks_from seen t1 ++ unseen_clicks_from (seen_after seen t1) t2.
Proof.
  induction t1 as [|ev t1 IH]; intros seen t2; simpl; [done|].
  destruct ev as [c r|c e| |]; try apply IH.
  - destruct c; try apply IH; try (by rewrite IH, app_assoc).
    destruct r; try apply IH. destruct b; apply IH.
  - destruct c; try apply IH; try (by rewrite IH, app_assoc).
Qed.

Lemma careful_weaken {A} known known' (m : M A) :
  known ⊆ known' -> careful known m -> careful known' m.
Proof. intros Hk Hm h seen Hs. apply Hm. set_solver. Qed.

Lemma careful_ret {A} known (a : A) : careful known (mret a : M A).
Proof. intros h seen _. constructor. Qed.

Lemma careful_bind {A B} known (m : M A) (f : A -> M B) :
  careful known m -> (forall a, careful known (f a)) -> careful known (m ≫= f).
Proof.
  intros Hm Hf h seen Hs. rewrite run_bind. specialize (Hm h seen Hs).
  destruct (m h) as [t1 [a|e]]; simpl in *; [|done].
  specialize (Hf a (h ++ t1) (seen_after seen t1)).
  destruct (f a (h ++ t1)) as [t2 r]; simpl in *.
  rewrite unseen_clicks_app. apply Forall_app. split; [done|].
  apply Hf. etrans; [exact Hs|apply seen_after_grows].
Qed.

Lemma careful_perform {A} known w c (value : trace -> A) shown :
  match c with LocatorClick _ => False | _ => True end ->
  careful known (perform (Browser.raises w) c value shown).
Proof.
  intros Hc h seen _. unfold perform.
  destruct (Browser.raises w h c); destruct c; simpl; try done; try constructor.
  destruct (shown (value h)); try constructor. destruct b; constructor.
Qed.


Lemma careful_click known w l :
  l ∈ known \/ l = close_button -> careful known (locator_click w l).
Proof.
  intros Hl h seen Hs. unfold locator_click, Browser.action, perform.
  destruct (Browser.raises w h (LocatorClick l)); simpl; rewrite app_nil_r;
    (case_bool_decide as Hin; [constructor|]);
    (destruct Hl as [Hl| ->]; [set_solver|by repeat constructor]).
Qed.

(** [if loc.is_visible(): ..clicks..] *)
Lemma careful_guard {B} known w l (body : M unit) (g : unit -> M B) :
  careful (l :: known) body -> (forall a, careful known (g a)) ->
  careful known (locator_is_visible w l ≫= fun b => when b body ≫= g).
Proof.
  intros Hbody Hg h seen Hs. rewrite run_bind. unfold locator_is_visible, perform.
  destruct (Browser.raises w h (LocatorIsVisible l)); [by constructor|].
  destruct (locator_visible w h l); simpl.
  - match goal with |- context [(?m ≫= ?f) ?h'] =>
      pose proof (careful_bind (l :: known) m f Hbody
                    (fun a => careful_weaken known (l :: known) (g a) ltac:(set_solver) (Hg a))
                    h' (l :: seen) ltac:(set_solver)) as H;
      destruct ((m ≫= f) h') as [t2 r]
    end.
    exact H.
  - match goal with |- context [(?m ≫= ?f) ?h'] =>
      pose proof (careful_bind known m f (careful_ret known tt) Hg h' seen Hs) as H;
      destruct ((m ≫= f) h') as [t2 r]
    end.
    exact H.
Qed.

Lemma careful_when known (c : bool) (body : M unit) :
  careful known body -> careful known (when c body).
Proof. intros H. destruct c; [done|apply (careful_ret known tt)]. Qed.

Lemma careful_with_playwright {A} known (body : M A) :
  careful known body -> careful known (with_playwright body).
Proof.
  intros Hb h seen Hs. rewrite browser_facts.with_playwright_log, unseen_clicks_app.
  apply Forall_app. split; [by apply Hb|]. simpl. constructor.
Qed.

Ltac careful_step :=
  lazymatch goal with
  | |- careful _ (locator_is_visible _ _ ≫= fun b => when b _ ≫= _) =>
      apply careful_guard; [|intros ?]
  | |- careful _ (mbind _ _) => apply careful_bind; [|intros ?]
  | |- careful _ (mret _) => apply careful_ret
  | |- careful _ (when _ _) => apply careful_when
  | |- careful _ (locator_click _ _) =>
      apply careful_click; first [by right | left; rewrite !elem_of_cons; by auto]
  | |- careful _ (if ?c then _ else _) => destruct c
  | |- careful _ _ => autounfold with api; apply careful_perform; exact I
  end.

Lemma diagnostic_careful w : careful [] (comprehensive_diagnostic.run_diagnostics w).
Proof.
  unfold comprehensive_diagnostic.run_diagnostics. apply careful_with_playwright.
  repeat careful_step.
Qed.


(** *** The directory of the screenshots *)

Lemma no_shots t :
  Forall (calls (fun c => match c with Screenshot _ _ => False | _ => True end)) t ->
  FontObs.shot_attempts t = [].
Proof.
  induction 1 as [|ev t Hev _ IH]; [done|].
  change (ev :: t) with ([ev] ++ t). rewrite font_more.shot_attempts_app, IH, app_nil_r.
  unfold FontObs.shot_attempts, calls in *. simpl. by destruct (call_of ev) as [[]|].
Qed.

Lemma prepares_bind {A B} path (m : M A) (f : A -> M B) :
  emits (calls (fun c => match c with Screenshot _ _ => False | _ => True end)) m ->
  (forall a, prepares path (f a)) -> prepares path (m ≫= f).
Proof.
  intros Hm Hf h. rewrite run_bind. specialize (Hm h). apply no_shots in Hm.
  destruct (m h) as [t1 [a|e]]; simpl in *; [|by left].
  specialize (Hf a (h ++ t1)). destruct (f a (h ++ t1)) as [t2 r]; simpl in *.
  destruct Hf as [Hf|Hf].
  - left. by rewrite font_more.shot_attempts_app, Hm, Hf.
  - right. unfold made_dir in *. by rewrite existsb_app, Hf, orb_true_r.
Qed.

Lemma prepares_makedirs {B} w path (f : unit -> M B) :
  prepares path (makedirs w path ≫= f).
Proof.
  intros h. rewrite run_bind. unfold makedirs, Browser.action, perform.
  destruct (Browser.raises w h (Makedirs path)); [by left|].
  destruct (f _ _) as [t2 r]. right. simpl. by rewrite String.eqb_refl.
Qed.

Lemma diagnostic_prepares w :
  FontObs.shot_attempts (log_of (comprehensive_diagnostic.run_diagnostics w)) = [] \/
  made_dir "diagnostics" (log_of (comprehensive_diagnostic.run_diagnostics w)) = true.
Proof.
  unfold log_of, run, comprehensive_diagnostic.run_diagnostics.
  rewrite browser_facts.with_playwright_log.
  match goal with |- context [?body []] =>
    assert (prepares "diagnostics" body) as H
  end.
  { do 5 (apply prepares_bind; [solve [emits_tac]|intros ?]). apply prepares_makedirs. }
  destruct (H []) as [Hs|Hd].
  - left. by rewrite font_more.shot_attempts_app, Hs.
  - right. unfold made_dir in *. by rewrite existsb_app, Hd.
Qed.

Lemma diagnostic_shots_into w :
  emits (shot_into "diagnostics/") (comprehensive_diagnostic.run_diagnostics w).
Proof.
  unfold comprehensive_diagnostic.run_diagnostics, with_playwright. emits_tac.
Qed.

End diag_more.

Module crawl_forms.
Import Browser BrowserLog crawl_heirclark_website crawl crawl_facts CrawlObs.

Lemma or_default_nonempty x d : d <> [] -> or_default x d <> [].
Proof. intros Hd. by destruct x as [[|c s]|]. Qed.

Lemma visit_forms_ok w u h t pd : visit_page w u h = (t, Ok pd) -> forms_ok pd.
Proof.
  intros [_ (? & ? & ? & ? & inputs & ti & ? & ? & ? & _ & _ & _ & Hforms & _)]%visit_dumps.
  unfold forms_ok.
  induction Hforms as [|inp inps ty ph nm t' fs _ IH]; constructor; [|done].
  simpl. by apply or_default_nonempty.
Qed.

(** Whatever holds of the result of every visit holds of every page of
    the results. *)
Lemma loop_pages_all w (P : page_data -> Prop) urls h :
  (forall u h t pd, visit_page w u h = (t, Ok pd) -> P pd) ->
  exists seen res, (crawl_loop w urls h).2 = Ok (seen, res) /\ Forall P (pages res).
Proof.
  intros HP.
  destruct (loop_run w urls h) as (t & res & vs & Heq & _ & _ & Hv & Hp & _).
  exists (list_to_set urls), res. rewrite Heq. split; [done|].
  rewrite Hp. apply Forall_forall. intros pd (v & Hin & Hpage)%list_elem_of_omap.
  rewrite Forall_forall in Hv. destruct (Hv v Hin) as [Hvisit _].
  unfold page_of in Hpage. destruct (v_end v) as [pd'|] eqn:Hend; [|done].
  injection Hpage as ->. rewrite ?Hend in Hvisit. by apply HP in Hvisit.
Qed.

Lemma crawler_pages_all w (P : page_data -> Prop) :
  (forall u h t pd, visit_page w u h = (t, Ok pd) -> P pd) ->
  match end_of (crawl_heirclark w) with
  | Ok res => Forall P (pages res)
  | Raised _ => True
  end.
Proof.
  intros HP. destruct (end_of (crawl_heirclark w)) as [res|e] eqn:Hend; [|done].
  apply crawler_end in Hend as (tl & seen & res_l & Hl & -> & _).
  destruct (loop_pages_all w P pages_to_visit crawler_setup HP) as (seen' & res' & Heq & Hok).
  rewrite Hl in Heq. by injection Heq as <- <-.
Qed.

End crawl_forms.


(** * Further properties *)

(** ** The database scripts *)

Import Db DbObs.

(** X1.  check_tables.py and check_user_profiles.py only read: whatever
    the server answers, neither ever sends an ALTER or a COMMIT, so the
    committed schema after the run is the schema before it. *)
Theorem X1_inspections_never_write (w : Db.world) (s : Db.schema) :
  Forall (fun m => existsb modifies (log_of m) = false /\ schema_after (log_of m) s = s)
         (inspections w).
Proof.
  assert (forall m : Db.M bool, emits (fun ev => modifies ev = false) m ->
            existsb modifies (log_of m) = false /\ schema_after (log_of m) s = s) as Hread.
  { intros m Hm. specialize (Hm []). split; [by apply db_more.existsb_none|].
    apply (db_more.no_commit_keeps_durable _ (Session s s None)).
    by apply db_more.unmodified_no_commit. }
  unfold inspections. apply Forall_cons_2; [|apply Forall_cons_2; [|apply Forall_nil_2]];
    apply Hread.
  - apply db_more.check_tables_reads.
  - apply db_more.check_user_profiles_reads.
Qed.


(** X3.  What run_migration.py leaves in the database depends on the
    commit alone, not on what the function returns: the committed schema
    after the run is the one the ALTER produces when [conn.commit()]
    went through and the old one otherwise.  When the connection is lost
    right after the commit the function returns [False] although the
    migration is committed. *)
Theorem X3_schema_follows_commit (w : Db.world) (s : Db.schema) :
  schema_after (log_of (run_migration.run_migration w)) s =
    (if committed (log_of (run_migration.run_migration w))
     then exec run_migration.migration s else s) /\
  end_of (run_migration.run_migration lost_after_commit) = Ok false /\
  committed (log_of (run_migration.run_migration lost_after_commit)) = true.
Proof. split; [apply db_more.migration_commit|]. split; reflexivity. Qed.

(** X5.  Against a reachable server that has the table, the migration
    script never prints its verification warning: it lists a line for
    cardio_recommendations and one for nutrition_guidance.  A column of
    either name that existed before the run is listed with the type it
    had, whatever that is. *)
Theorem X5_verification_lists_both (s : Db.schema) (cols : list column)
    (Htable : s !! "workout_plans" = Some cols) :
  let t := (run (run_migration.run_migration (postgres s true))).1 in
  (Printed "[WARNING] Could not verify columns" ∉ t) /\
  Printed (nl +:+ "[SUCCESS] Columns verified:") ∈ t /\
  Forall (fun n => exists ty, Printed ("  - " +:+ n +:+ ": " +:+ ty) ∈ t) new_columns /\
  Forall (fun c => Printed ("  - " +:+ col_name c +:+ ": " +:+ data_type c) ∈ t)
         (filter (fun c => col_name c ∈ new_columns) cols).
Proof.
  cbv zeta. rewrite db_more.migration_log by eauto. cbn [fst].
  destruct (db_more.migrated_rows s cols Htable) as [Hnew Hold]. cbv zeta in Hnew, Hold.
  set (rows := rows_of run_migration.verification (exec run_migration.migration s)) in *.
  assert (rows <> []) as Hne.
  { inversion Hnew as [|? ? [ty Hty] _]; subst. intros Heq. rewrite Heq in Hty.
    by apply elem_of_nil in Hty. }
  split_and!.
  - by apply db_more.migrated_log_no_warning.
  - by apply db_more.migrated_log_verified.
  - eapply Forall_impl; [exact Hnew|]. intros n [ty Hty]. exists ty.
    by apply db_more.migrated_log_lines in Hty.
  - eapply Forall_impl; [exact Hold|]. intros c Hc.
    by apply db_more.migrated_log_lines in Hc.
Qed.

Lemma X5_witness :
  Printed ("  - " +:+ "nutrition_guidance" +:+ ": " +:+ "text")
    ∈ (run (run_migration.run_migration (postgres legacy_schema true))).1.
Proof.
  pose proof (X5_verification_lists_both legacy_schema
    [Column "id" "integer" false; Column "nutrition_guidance" "text" true] eq_refl)
    as (_ & _ & _ & Hold).
  vm_compute filter in Hold. inversion Hold as [|? ? Hline _]; subst. exact Hline.
Defined.


(** ** The icon scripts *)

Import Img IconLog IconObs.

(** X6.  process_svg_icon.py changes the disk in two ways only, whatever
    the conversion tools do and whichever of the four methods run.  It
    writes to icon.png, adaptive-icon.png and splash-icon.png: every
    file that cairosvg, Pillow, the Inkscape export or a copy is asked
    to write, also by a call that then raises, is one of the three.  And
    in method 4 it runs [pip install cairosvg], which installs packages
    into the Python in use; no other command without an export file is
    run.  The SVG it reads is never a file it writes to. *)
Theorem X6_svg_writes_only_outputs (w : Img.world) :
  Forall (effect_within w svg_outputs) (effects (log_of (process_svg_icon.main w))) /\
  (Writes process_svg_icon.input_svg ∉ effects (log_of (process_svg_icon.main w))) /\
  effects (log_of (process_svg_icon.main nothing_works))
    = [Runs (pip_install nothing_works)].
Proof.
  assert (Forall (effect_within w svg_outputs) (effects (log_of (process_svg_icon.main w))))
    as Hw by apply icon_more.effects_within, icon_more.svg_main_within.
  split; [done|]. split; [|reflexivity].
  intros Hin. rewrite Forall_forall in Hw. apply Hw in Hin.
  unfold effect_within, svg_outputs in Hin. rewrite !elem_of_cons, elem_of_nil in Hin.
  by destruct Hin as [|[|[|]]].
Qed.

(** X7.  The search for Inkscape takes the first path of the list that
    exists and looks no further: the paths before it were each found
    absent, in list order, and the paths after it are not looked at.
    When none exists every path has been checked, and an exception of a
    check ends the search at that path. *)
Theorem X7_inkscape_first_existing (w : Img.world) (paths : list string) (h : Img.trace) :
  match process_svg_icon.find_inkscape w paths h with
  | (t, Ok (Some p)) =>
      exists before after,
        paths = before ++ p :: after /\
        t = not_there before ++ [Did (PathExists p) (RBool true)]
  | (t, Ok None) => t = not_there paths
  | (t, Raised e) =>
      exists before q after,
        paths = before ++ q :: after /\
        t = not_there before ++ [Failed (PathExists q) e]
  end.
Proof. apply icon_more.find_inkscape_first. Qed.

(** X8.  process_svg_icon.py ends in one of three ways.  With status 0:
    then all three outputs were written in this run and
    [os.path.exists(output_icon)] answered true.  With status 1: after
    it printed that the conversion failed, or that the output file was
    not created.  Or with an exception, and then of one of the four
    calls of the final verification, which is outside every handler: no
    exception of a conversion method escapes. *)
Theorem X8_svg_exit_status (w : Img.world) :
  match end_of (process_svg_icon.main w) with
  | Ok status =>
      status = 0 /\ svg_outputs ⊆ written (log_of (process_svg_icon.main w)) /\
        Did (PathExists process_svg_icon.output_icon) (RBool true)
          ∈ log_of (process_svg_icon.main w)
      \/ status = 1 /\
         (Printed "CONVERSION FAILED - Manual Steps Required"
            ∈ log_of (process_svg_icon.main w) \/
          Printed (nl +:+ "[ERROR] Output file not created")
            ∈ log_of (process_svg_icon.main w))
  | Raised e =>
      exists t c, log_of (process_svg_icon.main w) = t ++ [Failed c e] /\
                  c ∈ verification_calls
  end.
Proof. apply icon_more.svg_main_end. Qed.

(** X9.  The crop of process_app_icon.py is the centred square on the
    shorter side.  Whenever the script crops, the image has the size of
    the input, the box is a square whose side is the smaller of width
    and height, the margins left and right of it (and above and below)
    differ by at most one pixel, and the shorter dimension is kept
    whole.  When no call raises the script crops exactly once. *)
Theorem X9_crop_is_centred_square (w : Img.world) (src : image) :
  Forall (fun x =>
            let '(x0, y0, x1, y1) := x.2 in
            im_size x.1 = im_size (opened w [] process_app_icon.input_path) /\
            x1 - x0 = Z.min (im_size x.1).1 (im_size x.1).2 /\
            y1 - y0 = Z.min (im_size x.1).1 (im_size x.1).2 /\
            0 <= ((im_size x.1).1 - x1) - x0 <= 1 /\
            0 <= ((im_size x.1).2 - y1) - y0 <= 1 /\
            (x0 = 0 /\ x1 = (im_size x.1).1 \/ y0 = 0 /\ y1 = (im_size x.1).2))
         (crops (log_of (process_app_icon.main w))) /\
  length (crops (log_of (process_app_icon.main (disk src)))) = 1%nat.
Proof.
  split; [|by apply icon_more.app_crops_once].
  eapply Forall_impl; [apply icon_more.app_crops|].
  intros [im box] [Hbox Hsize]. simpl in *. rewrite Hbox, Hsize.
  pose proof (icon_more.centre_box_centred
                (im_size (opened w [] process_app_icon.input_path))) as H.
  destruct (centre_box _) as [[[x0 y0] x1] y1]. by split.
Qed.

(** X10.  process_svg_icon.py runs [pip install] exactly when cairosvg,
    Pillow and Inkscape have each been given up: in every run, pip is
    tried if and only if the log shows the failure line of each of the
    three earlier methods.  A method that succeeded ends the search, and
    no software is installed while an installed tool works.  When every
    call raises, pip is tried and the script exits with status 1. *)
Theorem X10_pip_is_the_last_resort (w : Img.world) :
  pip_attempted (log_of (process_svg_icon.main w))
    = gave_up (log_of (process_svg_icon.main w)) /\
  pip_attempted (log_of (process_svg_icon.main nothing_works)) = true /\
  end_of (process_svg_icon.main nothing_works) = Ok 1.
Proof. split; [apply icon_stages.svg_stages|]. split; reflexivity. Qed.

(** ** The font checks *)

Import Browser BrowserLog FontObs.

(** X11.  The port loop of check_fonts.py tries the ports in list
    order and stops at the first that answers.  For every list of ports
    the loop returns, never raising: its log is, for each port of an
    initial part of the list, the navigation that raised followed by the
    line that reports it, and then either nothing more - the list is
    exhausted and the result is [False] - or one navigation that went
    through, to the next port of the list, with result [True]; no later
    port is tried. *)
Theorem X11_ports_tried_in_order (w : Browser.world) (ports : list Z) (h : Browser.trace) :
  exists failures rest,
    ports = (fst <$> failures) ++ rest /\
    (check_fonts.try_ports w ports h = (concat (refused <$> failures), Ok false) /\ rest = []
     \/ exists p rest',
          rest = p :: rest' /\
          check_fonts.try_ports w ports h =
          (concat (refused <$> failures) ++ [Did (Goto (port_url p) None (Some 10000)) RNone],
           Ok true)).
Proof. apply font_more.check_ports_run. Qed.

(** X12.  check_fonts.py never takes a screenshot of a page it did not
    reach.  In every run in which no navigation went through, no
    screenshot is attempted; if the page had been created, the script
    then prints that it could not connect and calls [browser.close()]. *)
Theorem X12_no_screenshot_unless_connected (w : Browser.world) :
  let t := log_of (check_fonts.check_app_fonts w) in
  match connected t, page_created t with
  | true, _ => True
  | false, true =>
      shot_attempts t = [] /\
      Printed (nl +:+ "Could not connect to Expo app.") ∈ t /\
      closes t = true
  | false, false => shot_attempts t = []
  end.
Proof. apply font_more.check_fonts_log. Qed.

(** X13.  test_fonts.py, unlike check_fonts.py, does not look at whether
    a port answered: its handler swallows the exception and the loop
    leaves no flag.  When nothing but navigations can raise, the script
    always ends normally with the screenshot font_test_result.png taken
    and the browser closed - also when all four navigations raised and
    the page shows nothing. *)
Theorem X13_test_fonts_screenshots_regardless (w : Browser.world)
    (Hw : only_navigation_fails w) :
  end_of (test_fonts.test_fonts w) = Ok tt /\
  shots (log_of (test_fonts.test_fonts w))
    = ["C:\Users\derri\HeirclarkHealthAppNew\font_test_result.png"] /\
  closes (log_of (test_fonts.test_fonts w)) = true.
Proof. by apply font_more.test_fonts_log. Qed.

Lemma X13_witness :
  connected (log_of (test_fonts.test_fonts repository.nothing_served)) = false /\
  shots (log_of (test_fonts.test_fonts repository.nothing_served))
    = ["C:\Users\derri\HeirclarkHealthAppNew\font_test_result.png"].
Proof.
  split; [reflexivity|].
  apply (X13_test_fonts_screenshots_regardless repository.nothing_served).
  intros h c Hc. destruct c; simpl in *; done.
Defined.

(** ** The crawler *)

Import Browser BrowserLog crawl_heirclark_website crawl CrawlObs.

(** X14.  What the crawler stores of a page is bounded and cleaned.  In
    every page entry, for every list of URLs and whatever the pages
    hold: at most 20 cards and 30 buttons; a card text of at most 200
    code points, all ASCII, without whitespace in front (the cut to 200
    comes after the strip, so whitespace may remain at the end); a
    button text all ASCII and without whitespace at either end.  The
    entries of the results the script returns are of that kind. *)
Theorem X14_page_texts_bounded (w : Browser.world) (urls : list string) (h : Browser.trace) :
  (exists seen res,
     (crawl_loop w urls h).2 = Ok (seen, res) /\ Forall texts_ok (pages res)) /\
  match end_of (crawl_heirclark w) with
  | Ok res => Forall texts_ok (pages res)
  | Raised _ => True
  end.
Proof.
  split.
  - destruct (crawl_more.loop_pages_ok w urls h) as (seen & res & Heq & Hok).
    exists seen, res. split; [done|]. eapply Forall_impl; [exact Hok|]. by intros pd [? _].
  - pose proof (crawl_more.crawler_pages_ok w) as Hok.
    destruct (end_of (crawl_heirclark w)); [|done].
    eapply Forall_impl; [exact Hok|]. by intros pd [? _].
Qed.

(** X15.  The components of a page entry are some of Log Meal Modal,
    Date Selector and Sync Button, each at most once and in this order.
    A Date Selector or Sync Button entry always says [working: True]:
    the value is a constant, recorded whenever the click did not raise.
    Only the Log Meal Modal entry carries an observed value. *)
Theorem X15_components_in_order (w : Browser.world) (urls : list string) (h : Browser.trace) :
  (exists seen res,
     (crawl_loop w urls h).2 = Ok (seen, res) /\ Forall interactions_ok (pages res)) /\
  match end_of (crawl_heirclark w) with
  | Ok res => Forall interactions_ok (pages res)
  | Raised _ => True
  end.
Proof.
  split.
  - destruct (crawl_more.loop_pages_ok w urls h) as (seen & res & Heq & Hok).
    exists seen, res. split; [done|]. eapply Forall_impl; [exact Hok|].
    by intros pd (_ & ? & _).
  - pose proof (crawl_more.crawler_pages_ok w) as Hok.
    destruct (end_of (crawl_heirclark w)); [|done].
    eapply Forall_impl; [exact Hok|]. by intros pd (_ & ? & _).
Qed.

(** X16.  The crawler tests a card for text before it drops the
    non-ASCII characters, not after.  A card whose text is not blank but
    has no ASCII character in it (emoji, say) passes the test and is
    recorded with the empty text. *)
Theorem X16_non_ascii_card_recorded_empty (w : Browser.world) (card : handle)
    (acc : list element_entry) (h : Browser.trace)
    (Hquiet : forall h c, Browser.raises w h c = None)
    (Htext : text_of w h card <> [])
    (Hchars : Forall (fun c => (128 <= c)%N /\ py_isspace c = false) (text_of w h card)) :
  exists cls, (card_entry w card acc h).2 = Ok (acc ++ [ElementEntry [] cls]).
Proof. by apply crawl_more.card_entry_non_ascii. Qed.

Lemma X16_witness :
  exists cls, (card_entry emoji_page 1%N [] []).2 = Ok ([] ++ [ElementEntry [] cls]).
Proof.
  apply (X16_non_ascii_card_recorded_empty emoji_page 1%N [] []).
  - reflexivity.
  - simpl. discriminate.
  - simpl. repeat constructor. vm_compute. discriminate.
Defined.

(** X17.  The feature list of the results is an initial part of the
    eight features the script checks, in their order: entry by entry the
    feature's name with the answer the visibility check of its search
    text gave.  A check that raises ends the list there; the entries made
    before it are kept. *)
Theorem X17_features_are_a_prefix (w : Browser.world) :
  match run (crawl_heirclark w) with
  | (t, Ok res) =>
      exists k, Forall2 (feature_from t) (take k features_to_check) (features res)
  | (_, Raised _) => True
  end.
Proof.
  destruct (crawl_more.crawler_shape_run w
              {| viewport := (390, 844); device_scale_factor := None;
                 is_mobile := None; has_touch := None;
                 user_agent := Some "Mozilla/5.0 (iPhone; CPU iPhone OS 16_0 like Mac OS X)" |}
              (crawl_pages w pages_to_visit (∅, initial_results w))
              (analyze_features w) "website_crawl_results.json"
              (browser_facts.crawl_pages_total w _ _)
              (browser_facts.analyze_features_total w))
    as [(t & e & Hrun & _)|(tl & seen & res_l & ta & res & Hl & Ha & Hrun)].
  { unfold crawl_heirclark. by rewrite Hrun. }
  destruct Hrun as [[e Hrun]|[[e Hrun]|Hrun]]; unfold crawl_heirclark; rewrite Hrun; [done..|].
  destruct (crawl_more.analyze_features_run w res_l
    ([Did (Launch false) RNone;
      Did (NewContext
             {| viewport := (390, 844); device_scale_factor := None;
                is_mobile := None; has_touch := None;
                user_agent := Some "Mozilla/5.0 (iPhone; CPU iPhone OS 16_0 like Mac OS X)" |})
          RNone;
      Did NewPage RNone] ++ tl)) as (t' & new & k & Ha' & Hnew).
  rewrite Ha in Ha'. injection Ha' as -> ->.
  destruct (crawl_facts.crawl_pages_spec w pages_to_visit [] ∅ (initial_results w)
    [Did (Launch false) RNone;
     Did (NewContext
            {| viewport := (390, 844); device_scale_factor := None;
               is_mobile := None; has_touch := None;
               user_agent := Some "Mozilla/5.0 (iPhone; CPU iPhone OS 16_0 like Mac OS X)" |})
         RNone;
     Did NewPage RNone] eq_refl)
    as (t0 & seen' & res' & vs & Heq & _ & _ & _ & _ & _ & _ & _ & _ & Hf & _).
  rewrite Hl in Heq. injection Heq as <- <- <-.
  exists k. simpl. rewrite Hf. simpl.
  eapply Forall2_impl; [exact Hnew|]. intros spec f.
  apply crawl_more.feature_from_mono. set_solver.
Qed.


(** X19.  The results are dumped exactly when the function returns.
    The dump comes after [browser.close()] and after the [with] block is
    left, as the last thing the run does.  When the run ends in an
    exception, either the dump was never attempted - launching, creating
    the page or closing the browser raised, and all results of the crawl
    are lost - or the dump itself raised. *)
Theorem X19_dumped_iff_returned (w : Browser.world) :
  dumped (log_of (crawl_heirclark w)) = negb (uncaught (end_of (crawl_heirclark w))) /\
  match end_of (crawl_heirclark w) with
  | Ok res =>
      exists t, log_of (crawl_heirclark w) =
                t ++ [Did BrowserClose RNone; Did PlaywrightStop RNone;
                      Did (JsonDump "website_crawl_results.json" res) RNone]
  | Raised e =>
      Forall (fun ev => dump_attempted ev = false) (log_of (crawl_heirclark w))
      \/ exists t res, log_of (crawl_heirclark w) =
                       t ++ [Did BrowserClose RNone; Did PlaywrightStop RNone;
                             Failed (JsonDump "website_crawl_results.json" res) e]
  end.
Proof.
  unfold end_of, log_of.
  destruct (crawl_more.crawler_shape_run w
              {| viewport := (390, 844); device_scale_factor := None;
                 is_mobile := None; has_touch := None;
                 user_agent := Some "Mozilla/5.0 (iPhone; CPU iPhone OS 16_0 like Mac OS X)" |}
              (crawl_pages w pages_to_visit (∅, initial_results w))
              (analyze_features w) "website_crawl_results.json"
              (browser_facts.crawl_pages_total w _ _)
              (browser_facts.analyze_features_total w))
    as [(t & e & Hrun & Hnone & _)|(tl & seen & res_l & ta & res & Hl & Ha & Hrun)].
  { unfold crawl_heirclark. rewrite Hrun. simpl. split; [|by left].
    by apply crawl_more.not_dumped. }
  pose proof (crawl_facts.emitted _ _ _ _ _ (crawl_more.loop_no_dump w _ _) Hl) as Hnl.
  pose proof (crawl_facts.emitted _ _ _ _ _ (crawl_more.analyze_no_dump w _) Ha) as Hna.
  pose proof (crawl_more.not_dumped _ Hnl) as Hdl.
  pose proof (crawl_more.not_dumped _ Hna) as Hda.
  destruct Hrun as [[e Hrun]|[[e Hrun]|Hrun]]; unfold crawl_heirclark; rewrite Hrun; simpl.
  - split.
    + change (dumped (?a :: ?b :: ?c :: ?l)) with (dumped l).
      by rewrite !crawl_more.dumped_app, Hdl, Hda.
    + left. do 3 (apply Forall_cons_2; [done|]).
      rewrite !Forall_app. split_and!; [done|done|by repeat constructor].
  - split.
    + change (dumped (?a :: ?b :: ?c :: ?l)) with (dumped l).
      by rewrite !crawl_more.dumped_app, Hdl, Hda.
    + right. eexists (_ :: _ :: _ :: tl ++ ta), res. simpl. by rewrite <- !app_assoc.
  - split.
    + change (dumped (?a :: ?b :: ?c :: ?l)) with (dumped l).
      by rewrite !crawl_more.dumped_app, Hdl, Hda.
    + eexists (_ :: _ :: _ :: tl ++ ta). simpl. by rewrite <- !app_assoc.
Qed.

(** X20.  A form entry always has a type.  For every input the crawler
    records, on every page and whatever the attributes are, the type is
    not empty: a [type] attribute that is missing, or present but
    empty, is recorded as text. *)
Theorem X20_form_type_never_empty (w : Browser.world) (urls : list string) (h : Browser.trace) :
  (exists seen res,
     (crawl_loop w urls h).2 = Ok (seen, res) /\ Forall forms_ok (pages res)) /\
  match end_of (crawl_heirclark w) with
  | Ok res => Forall forms_ok (pages res)
  | Raised _ => True
  end /\
  or_default (Some []) (lit "text") = lit "text".
Proof.
  split; [apply crawl_forms.loop_pages_all, crawl_forms.visit_forms_ok|].
  split; [apply crawl_forms.crawler_pages_all, crawl_forms.visit_forms_ok|done].
Qed.

(** ** diagnose_cards.py and comprehensive_diagnostic.py *)

Import Browser BrowserLog CaptureObs DiagObs.

(** X21.  diagnose_cards.py saves the picture of a card only when it
    found the card.  On a page on which no call raises, whichever of the
    Skip button and the five cards are there, the script ends normally
    and its screenshots are the two overviews followed by the files of
    the cards that are on the page, in the order of the script; with no
    card on the page, the two overviews alone. *)
Theorem X21_card_shots_follow_cards (present : string -> bool) :
  end_of (diagnose_cards.capture_all_cards (quiet_world present)) = Ok tt /\
  shots (log_of (diagnose_cards.capture_all_cards (quiet_world present)))
    = overview_shots ++ shots_of_present present.
Proof. apply capture_more.diagnose_shots. Qed.

(** X22.  comprehensive_diagnostic.py clicks a locator only after that
    locator's [is_visible()] has answered true - with one exception, the
    close button of the meal logger, which it clicks without looking.
    In every run, the locators clicked (or tried) without having been
    seen visible before are all that close button; on a page where
    everything is visible it is clicked once that way. *)
Theorem X22_clicks_only_what_it_saw (w : Browser.world) :
  Forall (fun l => l = close_button)
         (unseen_clicks (log_of (comprehensive_diagnostic.run_diagnostics w))) /\
  unseen_clicks (log_of (comprehensive_diagnostic.run_diagnostics
                           (quiet_world (fun _ => true)))) = [close_button].
Proof.
  split; [|by vm_compute].
  by apply (diag_more.diagnostic_careful w [] []).
Qed.

(** X23.  comprehensive_diagnostic.py creates the directory it saves
    into before the first screenshot: in every run, either no
    screenshot was attempted or [os.makedirs('diagnostics')] had gone
    through; and every screenshot goes to a file under [diagnostics/]. *)
Theorem X23_directory_before_screenshots (w : Browser.world) :
  (FontObs.shot_attempts (log_of (comprehensive_diagnostic.run_diagnostics w)) = [] \/
   made_dir "diagnostics" (log_of (comprehensive_diagnostic.run_diagnostics w)) = true) /\
  Forall (shot_into "diagnostics/") (log_of (comprehensive_diagnostic.run_diagnostics w)).
Proof.
  split; [apply diag_more.diagnostic_prepares|].
  apply capture_facts.emits_log, diag_more.diagnostic_shots_into.
Qed.
